(** * dian-scrapper: orchestration core of the DIAN RUT scrapers

    A shallow embedding of the three program variants of the repository:
    - the Go scraper (package main: [ProcessCedulas], [worker],
      [processCedula], [solveCaptcha], [readCedulasFromExcel]),
    - the sequential Puppeteer script [main.js] ([scrapeDianCedulas],
      [solveTurnstileWith2Captcha], [checkBalance]),
    - the pooled Puppeteer script [js/main.js] ([limitConcurrency],
      [processCedula], [readCedulasFromExcel], ...).

    The browser, the 2Captcha HTTP service, the clock and the scheduler are
    the environment: every function takes the environment's answers as an
    explicit script and returns, next to its value, the effects it issued
    (polls, page runs, channel sends), so that statements such as "no further
    poll is issued" are statements about values. *)

From Stdlib Require Import ZArith QArith String Ascii List Bool Lia.
From stdpp Require Import gmap strings list pretty.

Open Scope Z_scope.
Open Scope string_scope.

(** ** Go string helpers ([strings.Contains], [strings.TrimSpace]) *)

Module GoStrings.

(** [strings.HasPrefix(s, p)] on byte strings. *)
Fixpoint HasPrefix (s p : string) : bool :=
  match p with
  | EmptyString => true
  | String a p' =>
      match s with
      | EmptyString => false
      | String b s' => if Ascii.eqb a b then HasPrefix s' p' else false
      end
  end.

(** [strings.Contains(s, substr)]: [substr] occurs at some offset of [s]. *)
Fixpoint Contains (s substr : string) : bool :=
  HasPrefix s substr
  || match s with
     | EmptyString => false
     | String _ s' => Contains s' substr
     end.

(** UTF-8 encodings of the runes for which [unicode.IsSpace] holds:
    U+0009..U+000D, U+0020, U+0085, U+00A0, U+1680, U+2000..U+200A,
    U+2028, U+2029, U+202F, U+205F, U+3000. *)
Definition bytes (l : list N) : list ascii := map ascii_of_N l.

Definition goSpaces : list (list ascii) :=
  map bytes
    [ [9]; [10]; [11]; [12]; [13]; [32];
      [194; 133]; [194; 160]; [225; 154; 128];
      [226; 128; 128]; [226; 128; 129]; [226; 128; 130]; [226; 128; 131];
      [226; 128; 132]; [226; 128; 133]; [226; 128; 134]; [226; 128; 135];
      [226; 128; 136]; [226; 128; 137]; [226; 128; 138];
      [226; 128; 168]; [226; 128; 169]; [226; 128; 175];
      [226; 129; 159]; [227; 128; 128] ]%N.

Fixpoint stripPrefix (p s : list ascii) : option (list ascii) :=
  match p with
  | [] => Some s
  | a :: p' =>
      match s with
      | [] => None
      | b :: s' => if Ascii.eqb a b then stripPrefix p' s' else None
      end
  end.

(** Drop one leading white-space rune, if there is one. *)
Fixpoint stripSpace (spaces : list (list ascii)) (s : list ascii)
  : option (list ascii) :=
  match spaces with
  | [] => None
  | p :: rest =>
      match stripPrefix p s with
      | Some s' => Some s'
      | None => stripSpace rest s
      end
  end.

Fixpoint trimLeftFuel (fuel : nat) (spaces : list (list ascii))
  (s : list ascii) : list ascii :=
  match fuel with
  | O => s
  | S fuel' =>
      match stripSpace spaces s with
      | Some s' => trimLeftFuel fuel' spaces s'
      | None => s
      end
  end.

Definition trimLeft (spaces : list (list ascii)) (s : list ascii) :=
  trimLeftFuel (List.length s) spaces s.

(** Trailing white space is leading white space of the reversed bytes,
    matched against the reversed encodings. *)
Definition trimRight (spaces : list (list ascii)) (s : list ascii) :=
  rev (trimLeft (map (@rev ascii) spaces) (rev s)).

Definition trimWith (spaces : list (list ascii)) (s : string) : string :=
  string_of_list_ascii
    (trimRight spaces (trimLeft spaces (list_ascii_of_string s))).

Definition TrimSpace (s : string) : string := trimWith goSpaces s.

End GoStrings.

(** ** The Go scraper *)

Module Go.
Import GoStrings.

(** *** Data model *)

Record Result := mkResult {
  Cedula : string;
  PrimerApellido : string;
  SegundoApellido : string;
  PrimerNombre : string;
  SegundoNombre : string;
  Estado : string;
  Attempts : Z;
  Error : string;
  ProcessingTime : string;
  Screenshot : list ascii
}.

(** The zero value of [Result], as [make([]Result, n)] fills the slice. *)
Definition zeroResult : Result := mkResult "" "" "" "" "" "" 0 "" "" [].

Record CaptchaResponse := mkCaptchaResponse {
  Status : Z;
  Request : string
}.

(** Durations are [time.Duration] values, in nanoseconds. *)
Definition Second : Z := 1000000000.

Record TimeoutConfig := mkTimeoutConfig {
  Initial : Z;
  DataExtraction : Z;
  Captcha : Z;
  RetryDelay : Z;
  MaxRetries : Z
}.

Record Config := mkConfig {
  APIKey : string;
  Concurrency : Z;
  BatchSize : Z;
  MaxParallelBrowsers : Z;
  UseGPU : bool;
  Timeouts : TimeoutConfig;
  ProxyList : list string
}.

Definition twoCaptchaAPIKey : string := "6b839fc1d6dd5a9a77261a4fdc2aeb1f".
Definition captchaRetryDelay : Z := 5 * Second.

(** [getDefaultConfig], with [runtime.NumCPU()] as a parameter. *)
Definition getDefaultConfig (numCPU : Z) : Config :=
  {| APIKey := twoCaptchaAPIKey;
     Concurrency := numCPU * 2;
     BatchSize := 100;
     MaxParallelBrowsers := numCPU;
     UseGPU := true;
     Timeouts := {| Initial := 60 * Second;
                    DataExtraction := 30 * Second;
                    Captcha := 60 * Second;
                    RetryDelay := 5 * Second;
                    MaxRetries := 3 |};
     ProxyList := [] |}.

(** *** The 2Captcha client: [solveCaptcha]

    What one HTTP exchange can give back: a transport error, an error
    while reading the body, a body that is not the expected JSON, or a
    decoded [CaptchaResponse]. *)
Inductive HttpReply :=
| TransportErr (e : string)
| ReadErr (e : string)
| JsonErr (e : string)
| Body (r : CaptchaResponse).

(** The service as seen by one call of [solveCaptcha]: the reply to the
    submission and the reply to the [i]-th poll (counted from 0). *)
Record CaptchaService := mkCaptchaService {
  submitReply : HttpReply;
  pollReply : nat -> HttpReply
}.

(** A Go [(string, error)] pair: the text, or the error's message. *)
Inductive Outcome :=
| Ok (text : string)
| Err (msg : string).

(** The poll loop [for i := 0; i < 30; i++].  [fuel] is the number of
    iterations left and [i] the loop variable; the second component counts
    the polls ([http.Get] calls) issued from here on. *)
Fixpoint pollLoop (svc : CaptchaService) (fuel : nat) (i : nat)
  : Outcome * nat :=
  match fuel with
  | O => (Err "timeout esperando resolución del captcha", O)
  | S fuel' =>
      let again := pollLoop svc fuel' (S i) in
      match pollReply svc i with
      | TransportErr _ | ReadErr _ | JsonErr _ => (fst again, S (snd again))
      | Body resultResp =>
          if (Status resultResp =? 1)%Z then (Ok (Request resultResp), 1%nat)
          else if negb (String.eqb (Request resultResp) "CAPCHA_NOT_READY")
          then (Err ("error resolviendo captcha: " +:+ Request resultResp),
                1%nat)
          else (fst again, S (snd again))
      end
  end.

Definition maxPollAttempts : nat := 30.

Definition solveCaptcha (svc : CaptchaService) : Outcome * nat :=
  match submitReply svc with
  | TransportErr e => (Err ("error enviando captcha a 2captcha: " +:+ e), O)
  | ReadErr e => (Err ("error leyendo respuesta de 2captcha: " +:+ e), O)
  | JsonErr e => (Err ("error parseando respuesta de 2captcha: " +:+ e), O)
  | Body captchaResp =>
      if negb (Status captchaResp =? 1)%Z
      then (Err ("error en respuesta de 2captcha: " +:+ Request captchaResp),
            O)
      else pollLoop svc maxPollAttempts O
  end.

(** *** One page run: [processCedula]

    What the browser session answers during one call: the error (if any)
    of each [chromedp.Run] block, the flags and texts it evaluates, and
    the captcha service the call talks to.  [None] is a nil error. *)
Record PageRun := mkPageRun {
  navigateErr : option string;
  captchaVisible : bool;
  screenshotErr : option string;
  captchaService : CaptchaService;
  typeCaptchaErr : option string;
  clickErr : option string;
  hasError : bool;
  errorMessage : string;
  extractErr : option string;
  primerApellido : string;
  segundoApellido : string;
  primerNombre : string;
  otrosNombres : string;
  estado : string;
  elapsed : string
}.

Definition failed (cedula : string) (attempt : Z) (msg : string)
  (p : PageRun) : Result :=
  {| Cedula := cedula; PrimerApellido := ""; SegundoApellido := "";
     PrimerNombre := ""; SegundoNombre := ""; Estado := "Error";
     Attempts := attempt; Error := msg; ProcessingTime := elapsed p;
     Screenshot := [] |}.

Definition searchAndExtract (cedula : string) (attempt : Z) (p : PageRun)
  : Result :=
  match clickErr p with
  | Some e => failed cedula attempt ("Error en botón búsqueda: " +:+ e) p
  | None =>
      if hasError p then failed cedula attempt (errorMessage p) p
      else
        match extractErr p with
        | Some e => failed cedula attempt ("Error extrayendo datos: " +:+ e) p
        | None =>
            {| Cedula := cedula;
               PrimerApellido := primerApellido p;
               SegundoApellido := segundoApellido p;
               PrimerNombre := primerNombre p;
               SegundoNombre := otrosNombres p;
               Estado := estado p;
               Attempts := attempt;
               Error := "";
               ProcessingTime := elapsed p;
               Screenshot := [] |}
        end
  end.

Definition processCedula (cedula : string) (p : PageRun) (attempt : Z)
  : Result :=
  match navigateErr p with
  | Some e => failed cedula attempt ("Error al navegar: " +:+ e) p
  | None =>
      if captchaVisible p then
        match screenshotErr p with
        | Some e => failed cedula attempt ("Error con captcha: " +:+ e) p
        | None =>
            match fst (solveCaptcha (captchaService p)) with
            | Err e =>
                failed cedula attempt ("Error resolviendo captcha: " +:+ e) p
            | Ok captchaText =>
                match typeCaptchaErr p with
                | Some e =>
                    failed cedula attempt ("Error con captcha: " +:+ e) p
                | None => searchAndExtract cedula attempt p
                end
            end
        end
      else searchAndExtract cedula attempt p
  end.

(** *** The worker

    The environment of a run: whether the browser of worker [browserIdx]
    starts ([None]) or fails with a message, and what the page does when
    that worker runs its [k]-th identifier for the [attempt]-th time. *)
Record Env := mkEnv {
  startBrowser : nat -> option string;
  page : nat -> nat -> Z -> PageRun
}.

(** Effects of a worker, in program order. *)
Inductive Event :=
| EvProcess (cedula : string) (attempt : Z)
| EvSleep (d : Z)
| EvSend (r : Result).

(** The retry condition of the worker: the loop goes on only when the
    result carries an error whose text contains "captcha". *)
Definition isCaptchaError (r : Result) : bool :=
  negb (String.eqb (Error r) "" || negb (Contains (Error r) "captcha")).

(** [for attempt := 1; attempt <= MaxRetries; attempt++]: [fuel] is the
    number of iterations left, [result] the variable declared before the
    loop.  Returns its final value and the effects of the loop. *)
Fixpoint retryLoop (cfg : Config) (run : Z -> PageRun) (cedula : string)
  (fuel : nat) (attempt : Z) (result : Result) : Result * list Event :=
  match fuel with
  | O => (result, [])
  | S fuel' =>
      let result := processCedula cedula (run attempt) attempt in
      if String.eqb (Error result) ""
         || negb (Contains (Error result) "captcha")
      then (result, [EvProcess cedula attempt])
      else
        let rest := retryLoop cfg run cedula fuel' (attempt + 1) result in
        (fst rest,
         EvProcess cedula attempt
           :: EvSleep (RetryDelay (Timeouts cfg)) :: snd rest)
  end.

Definition processWithRetries (cfg : Config) (run : Z -> PageRun)
  (cedula : string) : Result * list Event :=
  retryLoop cfg run cedula (Z.to_nat (MaxRetries (Timeouts cfg))) 1
    zeroResult.

Definition startupFailure (cedula err : string) : Result :=
  {| Cedula := cedula; PrimerApellido := ""; SegundoApellido := "";
     PrimerNombre := ""; SegundoNombre := ""; Estado := "Error";
     Attempts := 1; Error := "Error iniciando navegador: " +:+ err;
     ProcessingTime := ""; Screenshot := [] |}.

(** The second loop of [worker], over the shard, [k] being the position
    of the identifier in the shard.  [s.sem.Acquire] is called with
    [context.Background()], which is never cancelled, so its error branch
    is not taken; the semaphore bounds how many page runs overlap in time
    and has no effect on what is sent. *)
Fixpoint workerLoop (cfg : Config) (env : Env) (browserIdx : nat)
  (k : nat) (cedulas : list string) : list Event :=
  match cedulas with
  | [] => []
  | cedula :: rest =>
      let r := processWithRetries cfg (page env browserIdx k) cedula in
      snd r ++ EvSend (fst r) :: workerLoop cfg env browserIdx (S k) rest
  end.

Definition worker (cfg : Config) (env : Env) (cedulas : list string)
  (browserIdx : nat) : list Event :=
  match startBrowser env browserIdx with
  | Some err => map (fun cedula => EvSend (startupFailure cedula err)) cedulas
  | None => workerLoop cfg env browserIdx O cedulas
  end.

(** What a worker puts on the [results] channel, in order. *)
Definition sends (evs : list Event) : list Result :=
  omap (fun ev => match ev with EvSend r => Some r | _ => None end) evs.

(** The page runs a worker asks for, in order. *)
Definition pageRuns (evs : list Event) : list (string * Z) :=
  omap (fun ev => match ev with
                  | EvProcess c a => Some (c, a)
                  | _ => None
                  end) evs.

(** *** [ProcessCedulas]: sharding, workers, collector *)

(** The loop [for i, cedula := range cedulas { cedulaIndices[cedula] = i }];
    a later insertion for the same key replaces the earlier one. *)
Fixpoint buildIndices (i : nat) (cedulas : list string)
  (m : gmap string nat) : gmap string nat :=
  match cedulas with
  | [] => m
  | cedula :: rest => buildIndices (S i) rest (<[cedula := i]> m)
  end.

Definition cedulaIndices (cedulas : list string) : gmap string nat :=
  buildIndices O cedulas ∅.

Definition optimalBrowsers (numCPU : Z) (cfg : Config) : Z :=
  if (0 <? MaxParallelBrowsers cfg)%Z && (MaxParallelBrowsers cfg <? numCPU)%Z
  then MaxParallelBrowsers cfg
  else numCPU.

(** Go's [/] on [int] truncates towards zero: [Z.quot]. *)
Definition cedulasPerBrowser (numCPU : Z) (cfg : Config)
  (cedulas : list string) : Z :=
  Z.quot (Z.of_nat (List.length cedulas) + optimalBrowsers numCPU cfg - 1)
         (optimalBrowsers numCPU cfg).

(** [cedulas[startIdx:endIdx]] for [0 <= startIdx <= endIdx <= len]. *)
Definition slice (cedulas : list string) (startIdx endIdx : Z)
  : list string :=
  take (Z.to_nat (endIdx - startIdx)) (drop (Z.to_nat startIdx) cedulas).

(** The loop that starts the workers,
    [for i := 0; i < optimalBrowsers && i*cedulasPerBrowser < len; i++];
    [fuel] bounds the iterations left by the first condition.  The value
    is the list of the workers' effects, worker [i] at position [i]. *)
Fixpoint startWorkers (cfg : Config) (env : Env) (cedulas : list string)
  (perBrowser : Z) (fuel : nat) (i : nat) : list (list Event) :=
  match fuel with
  | O => []
  | S fuel' =>
      if (Z.of_nat i * perBrowser <? Z.of_nat (List.length cedulas))%Z then
        let startIdx := Z.of_nat i * perBrowser in
        let endIdx := (Z.of_nat i + 1) * perBrowser in
        let endIdx :=
          if (Z.of_nat (List.length cedulas) <? endIdx)%Z
          then Z.of_nat (List.length cedulas) else endIdx in
        worker cfg env (slice cedulas startIdx endIdx) i
          :: startWorkers cfg env cedulas perBrowser fuel' (S i)
      else []
  end.

Definition workers (numCPU : Z) (cfg : Config) (env : Env)
  (cedulas : list string) : list (list Event) :=
  startWorkers cfg env cedulas (cedulasPerBrowser numCPU cfg cedulas)
    (Z.to_nat (optimalBrowsers numCPU cfg)) O.

(** The workers run concurrently and share the [results] channel: what
    the collector receives is some interleaving of their send sequences,
    each worker's own sends staying in order. *)
Inductive Interleaving {A : Type} : list (list A) -> list A -> Prop :=
| Interleaving_done (ls : list (list A)) :
    Forall (fun l => l = []) ls -> Interleaving ls []
| Interleaving_next (ls : list (list A)) (i : nat) (x : A) (xs s : list A) :
    ls !! i = Some (x :: xs) ->
    Interleaving (<[i := xs]> ls) s ->
    Interleaving ls (x :: s).

(** The body of the collector goroutine for one received result. *)
Definition record (indices : gmap string nat) (results : list Result)
  (result : Result) : list Result :=
  match indices !! Cedula result with
  | Some idx => <[idx := result]> results
  | None => results
  end.

(** The slice [results] once the collector has received [arrivals]. *)
Definition collect (cedulas : list string) (arrivals : list Result)
  : list Result :=
  fold_left (record (cedulaIndices cedulas)) arrivals
    (replicate (List.length cedulas) zeroResult).

(** The capacity of the [results] channel that [NewScraper] makes,
    [make(chan Result, config.Concurrency*2)]. *)
Definition resultsCapacity (cfg : Config) : nat :=
  Z.to_nat (Concurrency cfg * 2).

(** [ProcessCedulas cedulas] may return a slice that holds [results] at
    the moment of the return.

    The function waits for the workers ([s.wg.Wait()]), closes the channel
    and returns the slice; nothing waits for the collector goroutine, with
    which the slice stays shared.  When the workers are done every send
    has completed, so each result is in the channel's buffer, or has been
    received by the collector; the collector may not yet have written the
    result it received last.  At the return the collector has therefore
    recorded the first [recorded] arrivals, all of them but at most the
    capacity of the buffer plus one.  A write of a slot counts as one step,
    as the mutex around it intends.  The semaphore of the worker is left
    out: with [Concurrency] at least 1 every [Acquire] succeeds, a worker
    holding one unit at a time. *)
Definition ProcessCedulas (numCPU : Z) (cfg : Config) (env : Env)
  (cedulas : list string) (results : list Result) : Prop :=
  exists (arrivals : list Result) (recorded : nat),
    Interleaving (map sends (workers numCPU cfg env cedulas)) arrivals
    /\ (List.length arrivals <= recorded + resultsCapacity cfg + 1)%nat
    /\ results = collect cedulas (take recorded arrivals).

(** The slice of one run once its collector has gone through the channel:
    the workers' sends arrive worker after worker and all are recorded. *)
Definition ProcessCedulasInOrder (numCPU : Z) (cfg : Config) (env : Env)
  (cedulas : list string) : list Result :=
  collect cedulas (concat (map sends (workers numCPU cfg env cedulas))).

(** *** [readCedulasFromExcel] *)

Inductive ExcelFile :=
| OpenFails (e : string)
| GetRowsFails (e : string)
| Sheet (rows : list (list string)).

(** [for i, row := range rows], appending to [cedulas]. *)
Fixpoint readRows (i : nat) (rows : list (list string))
  (cedulas : list string) : list string :=
  match rows with
  | [] => cedulas
  | row :: rest =>
      if Nat.eqb i 0 then readRows (S i) rest cedulas
      else
        match row with
        | [] => readRows (S i) rest cedulas
        | cell :: _ =>
            let cedula := TrimSpace cell in
            if negb (String.eqb cedula "")
            then readRows (S i) rest (cedulas ++ [cedula])
            else readRows (S i) rest cedulas
        end
  end.

(** The returned pair [([]string, error)]. *)
Definition readCedulasFromExcel (f : ExcelFile)
  : option (list string) * option string :=
  match f with
  | OpenFails e => (None, Some ("error abriendo archivo Excel: " +:+ e))
  | GetRowsFails e => (None, Some ("error leyendo filas: " +:+ e))
  | Sheet rows => (Some (readRows O rows []), None)
  end.

End Go.

(** ** JavaScript values shared by the two Puppeteer scripts *)

Module Js.

(** The numbers the scripts compare (status codes, balances): a float is
    [NaN], an infinity, or a finite value, kept here as the rational it
    denotes; the programs only compare numbers with 0 and 1. *)
Inductive Number :=
| NaN
| Infinity (negative : bool)
| Fin (q : Q).

Inductive Val :=
| Undefined
| Null
| Boolean (b : bool)
| Num (n : Number)
| Str (s : string).

(** [ToBoolean]: what [!v], [v || w] and [if (v)] test. *)
Definition truthy (v : Val) : bool :=
  match v with
  | Undefined | Null => false
  | Boolean b => b
  | Num NaN => false
  | Num (Infinity _) => true
  | Num (Fin q) => negb (Qeq_bool q 0)
  | Str s => negb (String.eqb s "")
  end.

(** [v === 1]. *)
Definition isOne (v : Val) : bool :=
  match v with
  | Num (Fin q) => Qeq_bool q 1
  | _ => false
  end.

(** [v === s] for a string literal [s]. *)
Definition isStr (v : Val) (s : string) : bool :=
  match v with
  | Str s' => String.eqb s' s
  | _ => false
  end.

(** [n <= 0] on numbers; every comparison with [NaN] is false. *)
Definition leZero (n : Number) : bool :=
  match n with
  | NaN => false
  | Infinity negative => negative
  | Fin q => Qle_bool q 0
  end.

(** What an awaited [axios.get] gives: it throws (a network failure, a
    time-out with [code === "ECONNABORTED"]), or [response.data] is an
    object whose [status] and [request] fields are read. *)
Inductive AxiosReply :=
| Throws (message code : string)
| Data (status request : Val).

Record Solver := mkSolver {
  submit : AxiosReply;
  poll : nat -> AxiosReply
}.

(** The error a [catch] clause of the solver receives. *)
Inductive Thrown :=
| AxiosError (message : string)
| SubmissionError (request : Val)
| ServiceError (request : Val)
| TypeError
| TimedOut.

(** What a call of [solveTurnstileWith2Captcha] amounts to: the value it
    returns (the token, or [Null]), the delays it slept, one before each
    poll, and the error its outermost [catch] logged, if it ran. *)
Record Solved := mkSolved {
  returned : Val;
  sleeps : list Z;
  caught : option Thrown
}.

Definition polls (s : Solved) : nat := List.length (sleeps s).

(** The result objects pushed by both scripts. *)
Record Result := mkResult {
  cedula : string;
  primerApellido : string;
  segundoApellido : string;
  primerNombre : string;
  segundoNombre : string;
  estado : string
}.

Definition errorResult (cedula estado : string) : Result :=
  mkResult cedula "ERROR" "ERROR" "ERROR" "ERROR" estado.

Record Fields := mkFields {
  f_primerApellido : string;
  f_segundoApellido : string;
  f_primerNombre : string;
  f_segundoNombre : string;
  f_estado : string
}.

(** [data.cedula = cedula] on the extracted object. *)
Definition withCedula (cedula : string) (d : Fields) : Result :=
  mkResult cedula (f_primerApellido d) (f_segundoApellido d)
    (f_primerNombre d) (f_segundoNombre d) (f_estado d).

(** ECMAScript [WhiteSpace] and [LineTerminator] code points, in UTF-8:
    U+0009..U+000D, U+0020, U+00A0, U+1680, U+2000..U+200A, U+2028,
    U+2029, U+202F, U+205F, U+3000, U+FEFF. *)
Definition jsSpaces : list (list ascii) :=
  map GoStrings.bytes
    [ [9]; [10]; [11]; [12]; [13]; [32];
      [194; 160]; [225; 154; 128];
      [226; 128; 128]; [226; 128; 129]; [226; 128; 130]; [226; 128; 131];
      [226; 128; 132]; [226; 128; 133]; [226; 128; 134]; [226; 128; 135];
      [226; 128; 136]; [226; 128; 137]; [226; 128; 138];
      [226; 128; 168]; [226; 128; 169]; [226; 128; 175];
      [226; 129; 159]; [227; 128; 128]; [239; 187; 191] ]%N.

(** [String.prototype.trim]. *)
Definition trim (s : string) : string := GoStrings.trimWith jsSpaces s.

End Js.

(** ** [main.js]: the sequential script *)

Module MainJs.
Import Js.

(** [checkBalance]: [response.data.request], or [null] when the request
    throws. *)
Definition checkBalance (reply : AxiosReply) : Val :=
  match reply with
  | Throws _ _ => Null
  | Data _ request => request
  end.

Definition maxAttempts : nat := 30.

(** The [while (attempts < maxAttempts)] loop; [fuel] iterations are left
    and [attempts] polls were made.  A [throw] inside the inner [try],
    like a throwing [axios.get], lands in the inner [catch], which logs
    and lets the loop go on.  The value is [token] after the loop and the
    delays slept. *)
Fixpoint pollLoop (s : Solver) (fuel : nat) (attempts : nat)
  : Val * list Z :=
  match fuel with
  | O => (Null, [])
  | S fuel' =>
      let again := pollLoop s fuel' (S attempts) in
      match poll s attempts with
      | Throws _ _ => (fst again, 5000 :: snd again)
      | Data status request =>
          if isOne status then (request, [5000])
          else if negb (isStr request "CAPCHA_NOT_READY")
          then (fst again, 5000 :: snd again)
          else (fst again, 5000 :: snd again)
      end
  end.

Definition solveTurnstileWith2Captcha (s : Solver) : Solved :=
  match submit s with
  | Throws message _ => mkSolved Null [] (Some (AxiosError message))
  | Data status request =>
      if negb (truthy status) || negb (isOne status)
      then mkSolved Null [] (Some (SubmissionError request))
      else
        let r := pollLoop s maxAttempts O in
        if negb (truthy (fst r))
        then mkSolved Null (snd r) (Some TimedOut)
        else mkSolved (fst r) (snd r) None
  end.

(** What the page does while one identifier is handled.  Each [option]
    is the message of the exception a group of awaited calls throws
    ([None]: none does); the screenshot fields matter only when
    [takeScreenshots] is set. *)
Record PageRun := mkPageRun {
  openErr : option string;
  siteKey : Val;
  solver : Solver;
  injectErr : option string;
  searchErr : option string;
  resultsFound : bool;
  noResultsErr : option string;
  evaluateErr : option string;
  data : Fields + string;
  errorShotErr : option string;
  successShotErr : option string;
  navShotErr : option string
}.

Definition shot (takeScreenshots : bool) (e : option string)
  : option string :=
  if takeScreenshots then e else None.

(** The handler [catch (err)] of the outer [try] of the loop body. *)
Definition onErr (cedula message : string) : list Result :=
  [errorResult cedula ("Error: " +:+ message)].

(** The handler [catch (navError)]: its screenshot may throw in turn, and
    then the outer handler runs instead of the [push]. *)
Definition onNavError (takeScreenshots : bool) (p : PageRun)
  (cedula message : string) : list Result :=
  match shot takeScreenshots (navShotErr p) with
  | Some e => onErr cedula e
  | None =>
      [errorResult cedula ("Error: Navigation failed - " +:+ message)]
  end.

(** The inner [try] block, from the click on the search button on: the
    results it pushes to [resultados]. *)
Definition search (takeScreenshots : bool) (p : PageRun) (cedula : string)
  : list Result :=
  match searchErr p with
  | Some e => onNavError takeScreenshots p cedula e
  | None =>
      if negb (resultsFound p) then
        match noResultsErr p with
        | Some e => onNavError takeScreenshots p cedula e
        | None =>
            [errorResult cedula "Error: Could not find results on page"]
        end
      else
        match evaluateErr p with
        | Some e => onNavError takeScreenshots p cedula e
        | None =>
            match data p with
            | inr error =>
                match shot takeScreenshots (errorShotErr p) with
                | Some e => onNavError takeScreenshots p cedula e
                | None => [errorResult cedula ("Error: " +:+ error)]
                end
            | inl d =>
                withCedula cedula d
                  :: match shot takeScreenshots (successShotErr p) with
                     | Some e => onNavError takeScreenshots p cedula e
                     | None => []
                     end
            end
        end
  end.

(** One iteration of [for (let i = 0; i < cedulas.length; i++)]: what it
    pushes to [resultados]. *)
Definition iteration (takeScreenshots : bool) (p : PageRun)
  (cedula : string) : list Result :=
  match openErr p with
  | Some e => onErr cedula e
  | None =>
      if negb (truthy (siteKey p)) then search takeScreenshots p cedula
      else
        let token := returned (solveTurnstileWith2Captcha (solver p)) in
        if truthy token then
          match injectErr p with
          | Some e => onErr cedula e
          | None => search takeScreenshots p cedula
          end
        else []
  end.

Fixpoint forLoop (takeScreenshots : bool) (pages : nat -> PageRun)
  (i : nat) (cedulas : list string) : list Result :=
  match cedulas with
  | [] => []
  | cedula :: rest =>
      iteration takeScreenshots (pages i) cedula
        ++ forLoop takeScreenshots pages (S i) rest
  end.

(** A call of [scrapeDianCedulas]: the value it returns ([None] is
    [undefined]), whether [puppeteer.launch] was reached, and the
    identifiers whose iteration ran. *)
Record Run := mkRun {
  value : option (list Result);
  launched : bool;
  processed : list string
}.

Definition scrapeDianCedulas (cedulas : list string) (apiKey : Val)
  (takeScreenshots : bool) (balanceReply : AxiosReply)
  (pages : nat -> PageRun) : Run :=
  if negb (truthy apiKey) || isStr apiKey "YOUR_2CAPTCHA_API_KEY"
  then mkRun None false []
  else
    let balance := checkBalance balanceReply in
    if isStr balance "0" then mkRun None false []
    else
      mkRun (Some (forLoop takeScreenshots pages O cedulas)) true cedulas.

End MainJs.

(** ** [js/main.js]: the pooled script *)

Module PoolJs.
Import Js.

(** [checkBalance]: the awaited request throws, or
    [parseFloat(response.data.request)] has the given value. *)
Inductive BalanceReply :=
| BalanceThrows (message : string)
| BalanceParsed (n : Number).

(** [None] is [null]. *)
Definition checkBalance (reply : BalanceReply) : option Number :=
  match reply with
  | BalanceThrows _ => None
  | BalanceParsed n => Some n
  end.

Definition maxAttempts : nat := 20.
Definition initialDelay : Z := 1000.

(** How the [while] loop is left: normally or by [break], with the value
    of [token], or by the [return null] inside it. *)
Inductive LoopExit :=
| Token (token : Val)
| ReturnNull.

(** The [while (attempts < maxAttempts)] loop, with the current [delay];
    the second component lists the delays slept, one before each poll. *)
Fixpoint pollLoop (s : Solver) (fuel : nat) (attempts : nat) (delay : Z)
  : LoopExit * list Z :=
  match fuel with
  | O => (Token Null, [])
  | S fuel' =>
      let again := pollLoop s fuel' (S attempts) (Z.min (delay * 2) 2000) in
      let retry := (fst again, delay :: snd again) in
      match poll s attempts with
      | Throws _ _ => retry
      | Data status request =>
          if isOne status then (Token request, [delay])
          else if isStr request "CAPCHA_NOT_READY" then retry
          else
            match request with
            | Str r =>
                if GoStrings.Contains r "ERROR_CAPTCHA_UNSOLVABLE"
                then (ReturnNull, [delay])
                else retry
            | _ => retry (* [request.includes] throws, the [catch] retries *)
            end
      end
  end.

Definition solveTurnstileWith2Captcha (s : Solver) : Solved :=
  match submit s with
  | Throws message _ => mkSolved Null [] (Some (AxiosError message))
  | Data status request =>
      if negb (truthy status) || negb (isOne status)
      then mkSolved Null [] (Some (SubmissionError request))
      else
        match pollLoop s maxAttempts O initialDelay with
        | (ReturnNull, slept) => mkSolved Null slept None
        | (Token token, slept) =>
            if negb (truthy token)
            then mkSolved Null slept (Some TimedOut)
            else mkSolved token slept None
        end
  end.

(** *** [readCedulasFromExcel]

    A cell of a row of [sheet_to_json(sheet, { header: 1 })]: missing, a
    text, a truth value, or a number.  A number is a double.  For a whole
    number of magnitude at most [Number.MAX_SAFE_INTEGER], [String] gives
    its decimal digits; such a cell is [Whole z _].  For any other number
    (one with a fraction, or of a larger magnitude, where [String] rounds
    to the shortest digits and from 1e21 on uses an exponent), the text
    that [String] gives is part of the cell, [Float shown]; such a number
    is not 0. *)
Definition maxSafeInteger : Z := 9007199254740991.

Inductive Cell :=
| Blank
| Text (s : string)
| Whole (z : Z) (safe : Is_true (Z.abs z <=? maxSafeInteger)%Z)
| Float (shown : string)
| Flag (b : bool).

(** [String(cell || "")]. *)
Definition cellString (c : Cell) : string :=
  match c with
  | Blank => ""
  | Text s => s
  | Whole z _ => if (z =? 0)%Z then "" else pretty z
  | Float shown => shown
  | Flag b => if b then "true" else ""
  end.

(** [row[0]]. *)
Definition firstCell (row : list Cell) : Cell :=
  match row with
  | [] => Blank
  | c :: _ => c
  end.

Definition readCedulasFromExcel (rows : list (list Cell)) : list string :=
  filter (fun s => s <> "")
         (map (fun row => trim (cellString (firstCell row))) rows).

(** *** [processCedula] *)

Record PageRun := mkPageRun {
  newPageErr : option string;
  interceptionErr : option string;
  openErr : option string;
  siteKey : Val;
  solver : Solver;
  injectErr : option string;
  clickErr : option string;
  resultsVisible : bool;
  extractErr : option string;
  data : option Fields;
  closeErr : option string
}.

(** How the promise of an [async] call settles. *)
Inductive Settled :=
| Fulfilled (r : Result)
| RejectedWith (message : string).

(** The [try] block and its [catch]: the value the function is about to
    return when the [finally] clause starts. *)
Definition attempt (cedula : string) (p : PageRun) : Result :=
  let fromSearch :=
    match clickErr p with
    | Some e => errorResult cedula ("Error: " +:+ e)
    | None =>
        if negb (resultsVisible p)
        then errorResult cedula "Error: Could not find results on page"
        else
          match extractErr p with
          | Some e => errorResult cedula ("Error: " +:+ e)
          | None =>
              match data p with
              | None => errorResult cedula "Error: No data found"
              | Some d => withCedula cedula d
              end
          end
    end in
  match openErr p with
  | Some e => errorResult cedula ("Error: " +:+ e)
  | None =>
      if truthy (siteKey p) then
        let token := returned (solveTurnstileWith2Captcha (solver p)) in
        if truthy token then
          match injectErr p with
          | Some e => errorResult cedula ("Error: " +:+ e)
          | None => fromSearch
          end
        else errorResult cedula "Error: Captcha unsolved"
      else fromSearch
  end.

(** [browser.newPage()] and [optimizeRequestInterception] are awaited
    before the [try]; [page.close()] in the [finally] clause. *)
Definition processCedula (cedula : string) (p : PageRun) : Settled :=
  match newPageErr p with
  | Some e => RejectedWith e
  | None =>
      match interceptionErr p with
      | Some e => RejectedWith e
      | None =>
          match closeErr p with
          | Some e => RejectedWith e
          | None => Fulfilled (attempt cedula p)
          end
      end
  end.

(** *** [limitConcurrency] *)

(** [results[i] = r] on a JavaScript array: an index past the end extends
    the array, leaving holes ([None]). *)
Fixpoint assign (results : list (option Result)) (i : nat) (r : Result)
  : list (option Result) :=
  match i, results with
  | O, [] => [Some r]
  | O, _ :: rest => Some r :: rest
  | S i', [] => None :: assign [] i' r
  | S i', x :: rest => x :: assign rest i' r
  end.

(** How the promise returned by [limitConcurrency] settles. *)
Inductive Settlement :=
| Resolved (results : list (option Result))
| Rejected (message : string).

(** The closure variables of [limitConcurrency], the tasks started and
    not yet settled, and the state of the returned promise. *)
Record Pool := mkPool {
  results : list (option Result);
  running : nat;
  taskIndex : nat;
  inFlight : list nat;
  promise : option Settlement
}.

(** [resolve(v)] and [reject(e)]: only the first call has an effect. *)
Definition settle (st : Pool) (s : Settlement) : Pool :=
  match promise st with
  | Some _ => st
  | None =>
      mkPool (results st) (running st) (taskIndex st) (inFlight st) (Some s)
  end.

(** [while (running < limit && taskIndex < tasks.length)]: start tasks. *)
Fixpoint startTasks (n : nat) (limit : Z) (fuel : nat) (st : Pool) : Pool :=
  match fuel with
  | O => st
  | S fuel' =>
      if (Z.of_nat (running st) <? limit)%Z && Nat.ltb (taskIndex st) n
      then
        startTasks n limit fuel'
          (mkPool (results st) (S (running st)) (S (taskIndex st))
                  (taskIndex st :: inFlight st) (promise st))
      else st
  end.

Definition runTask (n : nat) (limit : Z) (st : Pool) : Pool :=
  if Nat.leb n (taskIndex st) && Nat.eqb (running st) 0
  then settle st (Resolved (results st))
  else startTasks n limit (n - taskIndex st) st.

(** The promise of task [i] settles and its [then] or [catch] callback
    runs. *)
Definition taskSettles (tasks : list Settled) (limit : Z) (st : Pool)
  (i : nat) : Pool :=
  if bool_decide (i ∈ inFlight st) then
    let flying := filter (fun j => j <> i) (inFlight st) in
    match tasks !! i with
    | Some (Fulfilled result) =>
        runTask (List.length tasks) limit
          (mkPool (assign (results st) i result) (pred (running st))
                  (taskIndex st) flying (promise st))
    | Some (RejectedWith e) =>
        settle (mkPool (results st) (running st) (taskIndex st) flying
                       (promise st))
               (Rejected e)
    | None => st
    end
  else st.

(** The pool while the tasks listed in [order] settle one after the
    other, up to the moment its promise settles. *)
Fixpoint settleInOrder (tasks : list Settled) (limit : Z) (st : Pool)
  (order : list nat) : Pool :=
  match promise st with
  | Some _ => st
  | None =>
      match order with
      | [] => st
      | i :: rest =>
          settleInOrder tasks limit (taskSettles tasks limit st i) rest
      end
  end.

(** [limitConcurrency(tasks, limit)]: the first call of [runTask], then
    the callbacks of the settling tasks. *)
Definition limitConcurrency (tasks : list Settled) (limit : Z)
  (order : list nat) : Pool :=
  settleInOrder tasks limit
    (runTask (List.length tasks) limit (mkPool [] O O [] None)) order.

(** *** [scrapeDianCedulas] *)

(** What the run meets outside the pages: [puppeteer.launch], the two
    calls of [fs.writeFileSync] and [browser.close()], each with the
    message of the error it throws, if it does. *)
Record Host := mkHost {
  launchErr : option string;
  csvErr : option string;
  jsonErr : option string;
  browserCloseErr : option string
}.

(** The outcome of a call: the value returned ([None] is [undefined]),
    whether [puppeteer.launch] was called, how many tasks were started,
    and the error with which the returned promise rejects, if it does. *)
Record Run := mkRun {
  value : option (list (option Result));
  launched : bool;
  started : nat;
  thrown : option string
}.

Definition tasksOf (cedulas : list string) (pages : nat -> PageRun)
  : list Settled :=
  imap (fun i cedula => processCedula cedula (pages i)) cedulas.

(** [beforeDeadline] lists, in order, the tasks whose promise settles
    before the timer of [globalTimeout] fires; the timer then rejects the
    race unless the pool has settled by then.  [puppeteer.launch] is
    awaited outside the [try]: its error rejects the call.  Inside the
    [try], a rejected race and a throwing [fs.writeFileSync] end in the
    [catch], which logs and lets the call return [undefined].  The
    [finally] clause awaits [browser.close()]: its error rejects the call,
    whatever the [try] was about to return. *)
Definition scrapeDianCedulas (cedulas : list string) (apiKey : Val)
  (concurrencyLimit : Z) (balanceReply : BalanceReply) (host : Host)
  (pages : nat -> PageRun) (beforeDeadline : list nat) : Run :=
  if negb (truthy apiKey) then mkRun None false O None
  else
    match checkBalance balanceReply with
    | None => mkRun None false O None
    | Some balance =>
        if leZero balance then mkRun None false O None
        else
          match launchErr host with
          | Some e => mkRun None true O (Some e)
          | None =>
              let tasks := tasksOf cedulas pages in
              let st :=
                limitConcurrency tasks concurrencyLimit beforeDeadline in
              let returned :=
                match promise st with
                | Some (Resolved resultados) =>
                    match csvErr host, jsonErr host with
                    | None, None => Some resultados
                    | _, _ => None
                    end
                | Some (Rejected _) => None
                | None => None
                end in
              match browserCloseErr host with
              | Some e => mkRun None true (taskIndex st) (Some e)
              | None => mkRun returned true (taskIndex st) None
              end
          end
    end.

End PoolJs.

(** ** The Go program's output: [writeResultsToExcel] and the statistics of
    [main] *)

Module GoReport.
Import Go.

(** What [SetCellValue] stores: a text or an [int]. *)
Inductive CellValue :=
| Text (s : string)
| Int (z : Z).

(** [excelize.ColumnNumberToName]: the letters of column [num], the last
    letter first computed; [fuel] bounds the loop [for num > 0]. *)
Fixpoint columnLetters (fuel : nat) (num : Z) (col : string) : string :=
  match fuel with
  | O => col
  | S fuel' =>
      if (0 <? num)%Z then
        columnLetters fuel' ((num - 1) / 26)
          (String (ascii_of_N (Z.to_N ((num - 1) mod 26 + 65))) col)
      else col
  end.

Definition ColumnNumberToName (num : Z) : string :=
  columnLetters (Z.to_nat num) num "".

(** [excelize.CoordinatesToCellName(col, row)] for [col, row >= 1], as the
    program calls it. *)
Definition CoordinatesToCellName (col row : Z) : string :=
  ColumnNumberToName col +:+ pretty row.

Definition headers : list string :=
  ["Cedula"; "Primer Apellido"; "Segundo Apellido"; "Primer Nombre";
   "Segundo Nombre"; "Estado"; "Intentos"; "Error"; "Tiempo"].

(** The cells of sheet "Results", by cell name. *)
Definition SetCellValue (f : gmap string CellValue) (cell : string)
  (v : CellValue) : gmap string CellValue :=
  <[cell := v]> f.

(** [for i, header := range headers]. *)
Fixpoint writeHeaders (f : gmap string CellValue) (i : Z)
  (hs : list string) : gmap string CellValue :=
  match hs with
  | [] => f
  | header :: rest =>
      writeHeaders
        (SetCellValue f (CoordinatesToCellName (i + 1) 1) (Text header))
        (i + 1) rest
  end.

(** The body of [for i, result := range results], with [row := i + 2];
    [fmt.Sprintf("A%d", row)] is the letter followed by the decimal row. *)
Definition writeRow (f : gmap string CellValue) (row : Z) (result : Result)
  : gmap string CellValue :=
  let f := SetCellValue f ("A" +:+ pretty row) (Text (Cedula result)) in
  let f := SetCellValue f ("B" +:+ pretty row) (Text (PrimerApellido result)) in
  let f := SetCellValue f ("C" +:+ pretty row) (Text (SegundoApellido result)) in
  let f := SetCellValue f ("D" +:+ pretty row) (Text (PrimerNombre result)) in
  let f := SetCellValue f ("E" +:+ pretty row) (Text (SegundoNombre result)) in
  let f := SetCellValue f ("F" +:+ pretty row) (Text (Estado result)) in
  let f := SetCellValue f ("G" +:+ pretty row) (Int (Attempts result)) in
  let f := SetCellValue f ("H" +:+ pretty row) (Text (Error result)) in
  SetCellValue f ("I" +:+ pretty row) (Text (ProcessingTime result)).

Fixpoint writeRows (f : gmap string CellValue) (i : Z)
  (results : list Result) : gmap string CellValue :=
  match results with
  | [] => f
  | result :: rest => writeRows (writeRow f (i + 2) result) (i + 1) rest
  end.

(** The cells written and the error of [f.SaveAs], which the environment
    decides. *)
Definition writeResultsToExcel (results : list Result)
  (saveErr : option string) : gmap string CellValue * option string :=
  (writeRows (writeHeaders ∅ 0 headers) 0 results, saveErr).

(** The three counters of [main]. *)
Record Stats := mkStats {
  successful : Z;
  errors : Z;
  noData : Z
}.

Definition countResult (st : Stats) (result : Result) : Stats :=
  if String.eqb (Error result) "" && negb (String.eqb (Estado result) "")
  then mkStats (successful st + 1) (errors st) (noData st)
  else if negb (String.eqb (Error result) "")
  then mkStats (successful st) (errors st + 1) (noData st)
  else mkStats (successful st) (errors st) (noData st + 1).

Definition statistics (results : list Result) : Stats :=
  fold_left countResult results (mkStats 0 0 0).

(** [duration / time.Duration(len(cedulas))]: an integer division, which
    panics ([None]) when the divisor is 0. *)
Definition averagePerCedula (duration : Z) (cedulas : list string)
  : option Z :=
  if (Z.of_nat (List.length cedulas) =? 0)%Z then None
  else Some (Z.quot duration (Z.of_nat (List.length cedulas))).

End GoReport.

(** ** The report of [main.js]: the counts of [generatePDF] *)

Module MainJsReport.
Import Js.

(** [r.estado !== "ERROR" && !r.estado.startsWith("Error")]. *)
Definition isSuccess (r : Result) : bool :=
  negb (String.eqb (estado r) "ERROR")
  && negb (GoStrings.HasPrefix (estado r) "Error").

(** "Successful queries" and "Failed queries". *)
Definition successCount (resultados : list Result) : nat :=
  List.length (List.filter isSuccess resultados).

Definition failedCount (resultados : list Result) : nat :=
  List.length resultados - successCount resultados.

End MainJsReport.

(** * Properties *)

(** ** The challenge-solver clients: poll loops *)

Section PollLoops.

(** The not-ready sentinel of the service, as each client tests it. *)
Definition goNotReady (r : Go.HttpReply) : Prop :=
  match r with
  | Go.Body resp => Go.Status resp <> 1 /\ Go.Request resp = "CAPCHA_NOT_READY"
  | _ => False
  end.

Definition jsNotReady (r : Js.AxiosReply) : Prop :=
  match r with
  | Js.Data status request =>
      Js.isOne status = false /\ request = Js.Str "CAPCHA_NOT_READY"
  | Js.Throws _ _ => False
  end.

(** A reply after which the Go loop polls again. *)
Definition goContinues (r : Go.HttpReply) : Prop :=
  match r with
  | Go.Body resp => Go.Status resp <> 1 /\ Go.Request resp = "CAPCHA_NOT_READY"
  | _ => True
  end.

Lemma goNotReady_continues r : goNotReady r -> goContinues r.
Proof. destruct r; simpl; tauto. Qed.

Lemma go_pollLoop_skip svc k : forall fuel i,
  (forall j, (j < k)%nat -> goContinues (Go.pollReply svc (i + j))) ->
  Go.pollLoop svc (k + fuel) i
  = (fst (Go.pollLoop svc fuel (i + k)),
     (k + snd (Go.pollLoop svc fuel (i + k)))%nat).
Proof.
  induction k as [|k IH]; intros fuel i Hk.
  - simpl. rewrite Nat.add_0_r. now destruct (Go.pollLoop svc fuel i).
  - assert (H0 := Hk O ltac:(lia)). rewrite Nat.add_0_r in H0.
    assert (Hrest : Go.pollLoop svc (k + fuel) (S i)
                    = (fst (Go.pollLoop svc fuel (i + S k)),
                       (k + snd (Go.pollLoop svc fuel (i + S k)))%nat)).
    { rewrite IH.
      - now replace (S i + k)%nat with (i + S k)%nat by lia.
      - intros j Hj. replace (S i + j)%nat with (i + S j)%nat by lia.
        apply Hk. lia. }
    change (S k + fuel)%nat with (S (k + fuel)). cbn [Go.pollLoop].
    rewrite Hrest. cbn [fst snd].
    destruct (Go.pollReply svc i) as [e|e|e|resp]; try reflexivity.
    destruct H0 as [Hs Hr].
    apply Z.eqb_neq in Hs. rewrite Hs, Hr. reflexivity.
Qed.

(** A reply after which the loop of [main.js] polls again: anything but
    a success. *)
Definition mainContinues (r : Js.AxiosReply) : Prop :=
  match r with
  | Js.Data status _ => Js.isOne status = false
  | Js.Throws _ _ => True
  end.

Lemma jsNotReady_mainContinues r : jsNotReady r -> mainContinues r.
Proof. destruct r; simpl; tauto. Qed.

Lemma main_pollLoop_skip s k : forall fuel i,
  (forall j, (j < k)%nat -> mainContinues (Js.poll s (i + j))) ->
  MainJs.pollLoop s (k + fuel) i
  = (fst (MainJs.pollLoop s fuel (i + k)),
     (replicate k 5000 ++ snd (MainJs.pollLoop s fuel (i + k)))%list).
Proof.
  induction k as [|k IH]; intros fuel i Hk.
  - simpl. rewrite Nat.add_0_r. now destruct (MainJs.pollLoop s fuel i).
  - assert (H0 := Hk O ltac:(lia)). rewrite Nat.add_0_r in H0.
    assert (Hrest : MainJs.pollLoop s (k + fuel) (S i)
                    = (fst (MainJs.pollLoop s fuel (i + S k)),
                       (replicate k 5000
                         ++ snd (MainJs.pollLoop s fuel (i + S k)))%list)).
    { rewrite IH.
      - now replace (S i + k)%nat with (i + S k)%nat by lia.
      - intros j Hj. replace (S i + j)%nat with (i + S j)%nat by lia.
        apply Hk. lia. }
    change (S k + fuel)%nat with (S (k + fuel)). cbn [MainJs.pollLoop].
    rewrite Hrest. cbn [fst snd replicate].
    destruct (Js.poll s i) as [m c|status request]; try reflexivity.
    simpl in H0. rewrite H0.
    now destruct (negb (Js.isStr request "CAPCHA_NOT_READY")).
Qed.

(** [js/main.js]: the explicit unsolvable answer. *)
Definition poolUnsolvable (r : Js.AxiosReply) : Prop :=
  match r with
  | Js.Data status (Js.Str request) =>
      Js.isOne status = false
      /\ request <> "CAPCHA_NOT_READY"
      /\ GoStrings.Contains request "ERROR_CAPTCHA_UNSOLVABLE" = true
  | _ => False
  end.

(** [js/main.js]: a reply after which the loop polls again: a throwing
    request, or a body that is neither a success nor unsolvable. *)
Definition poolContinues (r : Js.AxiosReply) : Prop :=
  match r with
  | Js.Throws _ _ => True
  | Js.Data status request =>
      Js.isOne status = false /\ ~ poolUnsolvable r
  end.

(** [js/main.js]: any other content, an error text of the service that
    is none of the three answers above. *)
Definition poolOtherContent (r : Js.AxiosReply) : Prop :=
  match r with
  | Js.Data status (Js.Str request) =>
      Js.isOne status = false
      /\ request <> "CAPCHA_NOT_READY"
      /\ GoStrings.Contains request "ERROR_CAPTCHA_UNSOLVABLE" = false
  | _ => False
  end.

Lemma jsNotReady_poolContinues r : jsNotReady r -> poolContinues r.
Proof.
  destruct r as [m c|status request]; simpl; [tauto|].
  intros [Hs ->]. split; [exact Hs|]. intros (_ & Hne & _). now apply Hne.
Qed.

Lemma poolOtherContent_continues r : poolOtherContent r -> poolContinues r.
Proof.
  destruct r as [m c|status request]; simpl; [tauto|].
  destruct request as [| |b|n|req]; try tauto.
  intros (Hs & Hne & Hc). split; [exact Hs|].
  intros (_ & _ & Hc'). congruence.
Qed.

(** The delays of [k] successive polls, from [delay] on. *)
Fixpoint backoff (k : nat) (delay : Z) : list Z :=
  match k with
  | O => []
  | S k' => delay :: backoff k' (Z.min (delay * 2) 2000)
  end.

Fixpoint delayAfter (k : nat) (delay : Z) : Z :=
  match k with
  | O => delay
  | S k' => delayAfter k' (Z.min (delay * 2) 2000)
  end.

Lemma backoff_length k : forall d, List.length (backoff k d) = k.
Proof. induction k; intros d; simpl; auto. Qed.

Lemma pool_pollLoop_step s fuel i d :
  poolContinues (Js.poll s i) ->
  PoolJs.pollLoop s (S fuel) i d
  = (fst (PoolJs.pollLoop s fuel (S i) (Z.min (d * 2) 2000)),
     d :: snd (PoolJs.pollLoop s fuel (S i) (Z.min (d * 2) 2000))).
Proof.
  intros H. cbn [PoolJs.pollLoop].
  destruct (Js.poll s i) as [m c|status request]; [reflexivity|].
  destruct H as [Hs Hu]. rewrite Hs.
  destruct (Js.isStr request "CAPCHA_NOT_READY") eqn:Hnr; [reflexivity|].
  destruct request as [| |b|n|req]; try reflexivity.
  destruct (GoStrings.Contains req "ERROR_CAPTCHA_UNSOLVABLE") eqn:Hc;
    [|reflexivity].
  exfalso. apply Hu. simpl. repeat split; auto.
  intros ->. simpl in Hnr. discriminate.
Qed.

Lemma pool_pollLoop_skip s k : forall fuel i d,
  (forall j, (j < k)%nat -> poolContinues (Js.poll s (i + j))) ->
  PoolJs.pollLoop s (k + fuel) i d
  = (fst (PoolJs.pollLoop s fuel (i + k) (delayAfter k d)),
     (backoff k d
        ++ snd (PoolJs.pollLoop s fuel (i + k) (delayAfter k d)))%list).
Proof.
  induction k as [|k IH]; intros fuel i d Hk.
  - simpl. rewrite Nat.add_0_r. now destruct (PoolJs.pollLoop s fuel i d).
  - assert (H0 := Hk O ltac:(lia)). rewrite Nat.add_0_r in H0.
    change (S k + fuel)%nat with (S (k + fuel)).
    rewrite pool_pollLoop_step by exact H0.
    rewrite IH.
    + cbn [fst snd backoff delayAfter].
      now replace (S i + k)%nat with (i + S k)%nat by lia.
    + intros j Hj. replace (S i + j)%nat with (i + S j)%nat by lia.
      apply Hk. lia.
Qed.

End PollLoops.

(** ** Solver time-out *)

(** An accepted submission: [status] is 1 and [request] is the job id. *)
Definition goAccepted (svc : Go.CaptchaService) : Prop :=
  exists id, Go.submitReply svc = Go.Body (Go.mkCaptchaResponse 1 id).

Definition jsAccepted (s : Js.Solver) : Prop :=
  exists status id, Js.submit s = Js.Data status id /\ Js.isOne status = true.

Lemma isOne_truthy v : Js.isOne v = true -> Js.truthy v = true.
Proof.
  destruct v as [| |b|[|neg|q]|s]; simpl; try discriminate.
  intros H. apply Qeq_bool_iff in H.
  destruct (Qeq_bool q 0) eqn:E; [|reflexivity].
  apply Qeq_bool_iff in E. rewrite H in E. discriminate.
Qed.

Lemma go_solveCaptcha_accepted svc :
  goAccepted svc -> Go.solveCaptcha svc = Go.pollLoop svc Go.maxPollAttempts O.
Proof. intros [id H]. unfold Go.solveCaptcha. now rewrite H. Qed.

Lemma main_solve_accepted s :
  jsAccepted s ->
  MainJs.solveTurnstileWith2Captcha s
  = let r := MainJs.pollLoop s MainJs.maxAttempts O in
    if negb (Js.truthy (fst r))
    then Js.mkSolved Js.Null (snd r) (Some Js.TimedOut)
    else Js.mkSolved (fst r) (snd r) None.
Proof.
  intros (status & id & H & Hone). unfold MainJs.solveTurnstileWith2Captcha.
  now rewrite H, Hone, (isOne_truthy _ Hone).
Qed.

Lemma pool_solve_accepted s :
  jsAccepted s ->
  PoolJs.solveTurnstileWith2Captcha s
  = match PoolJs.pollLoop s PoolJs.maxAttempts O PoolJs.initialDelay with
    | (PoolJs.ReturnNull, slept) => Js.mkSolved Js.Null slept None
    | (PoolJs.Token token, slept) =>
        if negb (Js.truthy token)
        then Js.mkSolved Js.Null slept (Some Js.TimedOut)
        else Js.mkSolved token slept None
    end.
Proof.
  intros (status & id & H & Hone). unfold PoolJs.solveTurnstileWith2Captcha.
  now rewrite H, Hone, (isOne_truthy _ Hone).
Qed.

(** C5. When the submission is accepted and every poll is answered with the
    not-ready sentinel, each of the three clients gives up with its time-out
    outcome after exactly its maximal number of polls: 30 in the Go client
    and in [main.js], 20 in [js/main.js]. *)
Theorem solver_timeout_after_max_polls :
  (forall svc : Go.CaptchaService,
      goAccepted svc ->
      (forall i, (i < Go.maxPollAttempts)%nat ->
                 goNotReady (Go.pollReply svc i)) ->
      Go.solveCaptcha svc
      = (Go.Err "timeout esperando resolución del captcha",
         Go.maxPollAttempts))
  /\ (forall s : Js.Solver,
        jsAccepted s ->
        (forall i, (i < MainJs.maxAttempts)%nat -> jsNotReady (Js.poll s i)) ->
        let r := MainJs.solveTurnstileWith2Captcha s in
        Js.returned r = Js.Null /\ Js.caught r = Some Js.TimedOut
        /\ Js.polls r = MainJs.maxAttempts)
  /\ (forall s : Js.Solver,
        jsAccepted s ->
        (forall i, (i < PoolJs.maxAttempts)%nat -> jsNotReady (Js.poll s i)) ->
        let r := PoolJs.solveTurnstileWith2Captcha s in
        Js.returned r = Js.Null /\ Js.caught r = Some Js.TimedOut
        /\ Js.polls r = PoolJs.maxAttempts).
Proof.
  split; [|split].
  - intros svc Hacc Hall. rewrite go_solveCaptcha_accepted by exact Hacc.
    pose proof (go_pollLoop_skip svc Go.maxPollAttempts O O) as E.
    rewrite Nat.add_0_r in E. rewrite E; [reflexivity|].
    intros j Hj. apply goNotReady_continues, Hall. exact Hj.
  - intros s Hacc Hall. rewrite main_solve_accepted by exact Hacc.
    pose proof (main_pollLoop_skip s MainJs.maxAttempts O O) as E.
    rewrite Nat.add_0_r in E. rewrite E; [repeat split|].
    intros j Hj. apply jsNotReady_mainContinues, Hall. exact Hj.
  - intros s Hacc Hall. rewrite pool_solve_accepted by exact Hacc.
    pose proof (pool_pollLoop_skip s PoolJs.maxAttempts O O
                  PoolJs.initialDelay) as E.
    rewrite Nat.add_0_r in E. rewrite E; [repeat split|].
    intros j Hj. apply jsNotReady_poolContinues, Hall. exact Hj.
Qed.

Definition goNeverReady : Go.CaptchaService :=
  Go.mkCaptchaService
    (Go.Body (Go.mkCaptchaResponse 1 "7301"))
    (fun _ => Go.Body (Go.mkCaptchaResponse 0 "CAPCHA_NOT_READY")).

Definition jsNeverReady : Js.Solver :=
  Js.mkSolver
    (Js.Data (Js.Num (Js.Fin 1)) (Js.Str "7301"))
    (fun _ => Js.Data (Js.Num (Js.Fin 0)) (Js.Str "CAPCHA_NOT_READY")).

Lemma goNeverReady_accepted : goAccepted goNeverReady.
Proof. exists "7301". reflexivity. Defined.

Lemma jsNeverReady_accepted : jsAccepted jsNeverReady.
Proof.
  exists (Js.Num (Js.Fin 1)), (Js.Str "7301"). split; reflexivity.
Defined.

Lemma solver_timeout_after_max_polls_witness :
  Go.solveCaptcha goNeverReady
  = (Go.Err "timeout esperando resolución del captcha", 30%nat)
  /\ Js.polls (MainJs.solveTurnstileWith2Captcha jsNeverReady) = 30%nat
  /\ Js.polls (PoolJs.solveTurnstileWith2Captcha jsNeverReady) = 20%nat.
Proof.
  destruct solver_timeout_after_max_polls as (Hgo & Hmain & Hpool).
  split; [|split].
  - apply (Hgo goNeverReady goNeverReady_accepted).
    intros i _. simpl. split; [lia | reflexivity].
  - apply (Hmain jsNeverReady jsNeverReady_accepted).
    intros i _. simpl. split; reflexivity.
  - apply (Hpool jsNeverReady jsNeverReady_accepted).
    intros i _. simpl. split; reflexivity.
Defined.

(** ** Terminal poll replies *)

Lemma backoff_snoc k : forall d,
  backoff (S k) d = (backoff k d ++ [delayAfter k d])%list.
Proof.
  induction k as [|k IH]; intros d; [reflexivity|].
  change (backoff (S (S k)) d)
    with (d :: backoff (S k) (Z.min (d * 2) 2000)).
  rewrite IH. reflexivity.
Qed.

Lemma pool_sleeps_accepted s :
  jsAccepted s ->
  Js.sleeps (PoolJs.solveTurnstileWith2Captcha s)
  = snd (PoolJs.pollLoop s PoolJs.maxAttempts O PoolJs.initialDelay).
Proof.
  intros Hacc. rewrite pool_solve_accepted by exact Hacc.
  destruct (PoolJs.pollLoop s PoolJs.maxAttempts O PoolJs.initialDelay)
    as [[token|] slept]; simpl; [|reflexivity].
  now destruct (negb (Js.truthy token)).
Qed.

Lemma pool_pollLoop_polls_once s fuel i d :
  (1 <= List.length (snd (PoolJs.pollLoop s (S fuel) i d)))%nat.
Proof.
  cbn [PoolJs.pollLoop].
  destruct (Js.poll s i) as [m c|status request]; [simpl; lia|].
  destruct (Js.isOne status); [simpl; lia|].
  destruct (Js.isStr request "CAPCHA_NOT_READY"); [simpl; lia|].
  destruct request as [| |b|n|req]; try (simpl; lia).
  destruct (GoStrings.Contains req "ERROR_CAPTCHA_UNSOLVABLE"); simpl; lia.
Qed.

Lemma pool_pollLoop_unsolvable s fuel i d :
  poolUnsolvable (Js.poll s i) ->
  PoolJs.pollLoop s (S fuel) i d = (PoolJs.ReturnNull, [d]).
Proof.
  intros H. cbn [PoolJs.pollLoop].
  destruct (Js.poll s i) as [m c|status request]; [contradiction|].
  destruct request as [| |b|n|req]; try contradiction.
  destruct H as (Hs & Hne & Hc). rewrite Hs.
  destruct (Js.isStr (Js.Str req) "CAPCHA_NOT_READY") eqn:E.
  - simpl in E. apply String.eqb_eq in E. contradiction.
  - now rewrite Hc.
Qed.

(** The solver of the counterexample: the submission is accepted, the
    first poll is answered with an error text of the service, the second
    with the token. *)
Definition errorThenToken : Js.Solver :=
  Js.mkSolver
    (Js.Data (Js.Num (Js.Fin 1)) (Js.Str "7301"))
    (fun i => match i with
              | O =>
                  Js.Data (Js.Num (Js.Fin 0)) (Js.Str "ERROR_WRONG_CAPTCHA_ID")
              | _ => Js.Data (Js.Num (Js.Fin 1)) (Js.Str "0.zrSnR")
              end).

(** C4, as stated, fails in [js/main.js]: after a reply that is neither a
    success, nor the not-ready sentinel, nor unsolvable, the client sleeps
    and polls a second time, and it returns the token of that second poll
    instead of an error outcome. *)
Lemma other_content_is_retried_by_pool_script :
  jsAccepted errorThenToken
  /\ poolOtherContent (Js.poll errorThenToken 0)
  /\ PoolJs.solveTurnstileWith2Captcha errorThenToken
     = Js.mkSolved (Js.Str "0.zrSnR") [1000; 2000] None
  /\ Js.polls (PoolJs.solveTurnstileWith2Captcha errorThenToken) <> 1%nat.
Proof.
  split; [|split; [|split]].
  - exists (Js.Num (Js.Fin 1)), (Js.Str "7301"). split; reflexivity.
  - simpl. repeat split. discriminate.
  - reflexivity.
  - discriminate.
Qed.

(** In [main.js] the [throw] for such a reply is caught by the [catch] of
    the same iteration, so the loop polls again there too. *)
Lemma service_error_is_swallowed_by_main_script :
  MainJs.solveTurnstileWith2Captcha errorThenToken
  = Js.mkSolved (Js.Str "0.zrSnR") [5000; 5000] None.
Proof. reflexivity. Qed.

(** The Go client stops at the first reply that is neither a success nor
    the sentinel. *)
Lemma go_error_reply_is_terminal svc k resp :
  goAccepted svc ->
  (k < Go.maxPollAttempts)%nat ->
  (forall j, (j < k)%nat -> goContinues (Go.pollReply svc j)) ->
  Go.pollReply svc k = Go.Body resp ->
  Go.Status resp <> 1 ->
  Go.Request resp <> "CAPCHA_NOT_READY" ->
  Go.solveCaptcha svc
  = (Go.Err ("error resolviendo captcha: " +:+ Go.Request resp), S k).
Proof.
  intros Hacc Hk Hpre Hreply Hs Hr.
  rewrite go_solveCaptcha_accepted by exact Hacc.
  unfold Go.maxPollAttempts in *.
  replace 30%nat with (k + S (29 - k))%nat by lia.
  rewrite go_pollLoop_skip by exact Hpre.
  cbn [Go.pollLoop plus]. rewrite Hreply.
  apply Z.eqb_neq in Hs. rewrite Hs.
  apply String.eqb_neq in Hr. rewrite Hr. simpl.
  f_equal. lia.
Qed.

(** C4 (amended). In the poll loop of [js/main.js], once the submission is
    accepted: an explicit unsolvable reply at poll [k] (no earlier reply
    being a success or unsolvable) ends the call at once, with [null] and
    no further poll; a reply with any other error content is not terminal:
    while attempts remain, the client sleeps and polls at least once more. *)
Theorem pool_unsolvable_terminal_other_content_retried :
  forall (s : Js.Solver) (k : nat),
    jsAccepted s ->
    (forall j, (j < k)%nat -> poolContinues (Js.poll s j)) ->
    (poolUnsolvable (Js.poll s k) ->
     (k < PoolJs.maxAttempts)%nat ->
     PoolJs.solveTurnstileWith2Captcha s
     = Js.mkSolved Js.Null (backoff (S k) PoolJs.initialDelay) None
     /\ Js.polls (PoolJs.solveTurnstileWith2Captcha s) = S k)
    /\ (poolOtherContent (Js.poll s k) ->
        (S k < PoolJs.maxAttempts)%nat ->
        (S (S k) <= Js.polls (PoolJs.solveTurnstileWith2Captcha s))%nat).
Proof.
  intros s k Hacc Hpre. unfold PoolJs.maxAttempts. split.
  - intros Hu Hk.
    assert (E : PoolJs.solveTurnstileWith2Captcha s
                = Js.mkSolved Js.Null (backoff (S k) PoolJs.initialDelay) None).
    { rewrite pool_solve_accepted by exact Hacc.
      unfold PoolJs.maxAttempts.
      replace 20%nat with (k + S (19 - k))%nat by lia.
      rewrite pool_pollLoop_skip by exact Hpre.
      rewrite pool_pollLoop_unsolvable by exact Hu.
      cbn [fst snd plus]. now rewrite backoff_snoc. }
    split; [exact E|].
    rewrite E. unfold Js.polls. cbn [Js.sleeps]. apply backoff_length.
  - intros Ho Hk. unfold Js.polls.
    rewrite pool_sleeps_accepted by exact Hacc.
    unfold PoolJs.maxAttempts.
    replace 20%nat with (S k + S (18 - k))%nat by lia.
    rewrite pool_pollLoop_skip.
    + cbn [snd]. rewrite length_app, backoff_length.
      pose proof (pool_pollLoop_polls_once s (18 - k) (0 + S k)
                    (delayAfter (S k) PoolJs.initialDelay)).
      lia.
    + intros j Hj. destruct (Nat.eq_dec j k) as [->|Hne].
      * apply poolOtherContent_continues. exact Ho.
      * apply Hpre. lia.
Qed.

Definition unsolvableAtThird : Js.Solver :=
  Js.mkSolver
    (Js.Data (Js.Num (Js.Fin 1)) (Js.Str "7301"))
    (fun i => match i with
              | 2%nat =>
                  Js.Data (Js.Num (Js.Fin 0))
                          (Js.Str "ERROR_CAPTCHA_UNSOLVABLE")
              | _ => Js.Data (Js.Num (Js.Fin 0)) (Js.Str "CAPCHA_NOT_READY")
              end).

Lemma pool_unsolvable_terminal_other_content_retried_witness :
  PoolJs.solveTurnstileWith2Captcha unsolvableAtThird
  = Js.mkSolved Js.Null [1000; 2000; 2000] None
  /\ (S (S 0)
      <= Js.polls (PoolJs.solveTurnstileWith2Captcha errorThenToken))%nat.
Proof.
  split.
  - refine (proj1 (proj1 (pool_unsolvable_terminal_other_content_retried
                     unsolvableAtThird 2 _ _) _ _)).
    + exists (Js.Num (Js.Fin 1)), (Js.Str "7301"). split; reflexivity.
    + intros j Hj. apply jsNotReady_poolContinues.
      destruct j as [|[|j]]; [simpl; auto | simpl; auto | lia].
    + simpl. repeat split. discriminate.
    + unfold PoolJs.maxAttempts. lia.
  - refine (proj2 (pool_unsolvable_terminal_other_content_retried
                     errorThenToken 0 _ _) _ _).
    + exists (Js.Num (Js.Fin 1)), (Js.Str "7301"). split; reflexivity.
    + intros j Hj. lia.
    + simpl. repeat split. discriminate.
    + unfold PoolJs.maxAttempts. lia.
Defined.

(** ** The retry loop of the Go worker *)

Section RetryLoop.

Variable cfg : Go.Config.
Variable run : Z -> Go.PageRun.
Variable cedula : string.

(** The result of the page run of attempt [a]. *)
Definition tried (a : Z) : Go.Result := Go.processCedula cedula (run a) a.

(** The effects of [n] failed attempts from attempt [a] on, each followed
    by the retry delay. *)
Fixpoint retries (n : nat) (a : Z) : list Go.Event :=
  match n with
  | O => []
  | S n' =>
      Go.EvProcess cedula a
        :: Go.EvSleep (Go.RetryDelay (Go.Timeouts cfg)) :: retries n' (a + 1)
  end.

Lemma isCaptchaError_spec r :
  Go.isCaptchaError r
  = negb (String.eqb (Go.Error r) ""
          || negb (GoStrings.Contains (Go.Error r) "captcha")).
Proof. reflexivity. Qed.

Lemma processCedula_Attempts c p a : Go.Attempts (Go.processCedula c p a) = a.
Proof.
  unfold Go.processCedula, Go.searchAndExtract, Go.failed.
  repeat match goal with
         | |- context [match ?x with _ => _ end] => destruct x
         end; reflexivity.
Qed.

Lemma processCedula_Cedula c p a : Go.Cedula (Go.processCedula c p a) = c.
Proof.
  unfold Go.processCedula, Go.searchAndExtract, Go.failed.
  repeat match goal with
         | |- context [match ?x with _ => _ end] => destruct x
         end; reflexivity.
Qed.

Lemma retryLoop_final fuel a res :
  Go.isCaptchaError (tried a) = false ->
  Go.retryLoop cfg run cedula (S fuel) a res
  = (tried a, [Go.EvProcess cedula a]).
Proof.
  intros H. rewrite isCaptchaError_spec in H. apply negb_false_iff in H.
  cbn [Go.retryLoop]. fold (tried a). now rewrite H.
Qed.

Lemma retryLoop_retry fuel a res :
  Go.isCaptchaError (tried a) = true ->
  Go.retryLoop cfg run cedula (S fuel) a res
  = (fst (Go.retryLoop cfg run cedula fuel (a + 1) (tried a)),
     Go.EvProcess cedula a
       :: Go.EvSleep (Go.RetryDelay (Go.Timeouts cfg))
       :: snd (Go.retryLoop cfg run cedula fuel (a + 1) (tried a))).
Proof.
  intros H. rewrite isCaptchaError_spec in H. apply negb_true_iff in H.
  change (Go.retryLoop cfg run cedula (S fuel) a res)
    with (if String.eqb (Go.Error (tried a)) ""
             || negb (GoStrings.Contains (Go.Error (tried a)) "captcha")
          then (tried a, [Go.EvProcess cedula a])
          else
            (fst (Go.retryLoop cfg run cedula fuel (a + 1) (tried a)),
             Go.EvProcess cedula a
               :: Go.EvSleep (Go.RetryDelay (Go.Timeouts cfg))
               :: snd (Go.retryLoop cfg run cedula fuel (a + 1) (tried a)))).
  now rewrite H.
Qed.

(** The loop stops at the first attempt that is not a captcha failure. *)
Lemma retryLoop_stops n : forall fuel a res,
  (forall j, (j < n)%nat ->
             Go.isCaptchaError (tried (a + Z.of_nat j)) = true) ->
  Go.isCaptchaError (tried (a + Z.of_nat n)) = false ->
  Go.retryLoop cfg run cedula (n + S fuel) a res
  = (tried (a + Z.of_nat n),
     (retries n a ++ [Go.EvProcess cedula (a + Z.of_nat n)])%list).
Proof.
  induction n as [|n IH]; intros fuel a res Hpre Hlast.
  - simpl Z.of_nat in *. rewrite Z.add_0_r in *.
    now apply retryLoop_final.
  - assert (H0 := Hpre O ltac:(lia)). simpl in H0. rewrite Z.add_0_r in H0.
    change (S n + S fuel)%nat with (S (n + S fuel)).
    rewrite retryLoop_retry by exact H0.
    rewrite (IH fuel (a + 1) (tried a)).
    + cbn [fst snd retries app].
      now replace (a + 1 + Z.of_nat n) with (a + Z.of_nat (S n)) by lia.
    + intros j Hj.
      replace (a + 1 + Z.of_nat j) with (a + Z.of_nat (S j)) by lia.
      apply Hpre. lia.
    + now replace (a + 1 + Z.of_nat n) with (a + Z.of_nat (S n)) by lia.
Qed.

(** When every attempt is a captcha failure the loop runs out: the result
    is the one of the last attempt. *)
Lemma retryLoop_exhausted n : forall a res,
  (forall j, (j <= n)%nat ->
             Go.isCaptchaError (tried (a + Z.of_nat j)) = true) ->
  Go.retryLoop cfg run cedula (S n) a res
  = (tried (a + Z.of_nat n), retries (S n) a).
Proof.
  induction n as [|n IH]; intros a res Hall.
  - assert (H0 := Hall O ltac:(lia)). simpl in H0. rewrite Z.add_0_r in H0.
    rewrite retryLoop_retry by exact H0. simpl. now rewrite Z.add_0_r.
  - assert (H0 := Hall O ltac:(lia)). simpl in H0. rewrite Z.add_0_r in H0.
    rewrite retryLoop_retry by exact H0.
    rewrite (IH (a + 1) (tried a)).
    + cbn [fst snd retries].
      now replace (a + 1 + Z.of_nat n) with (a + Z.of_nat (S n)) by lia.
    + intros j Hj.
      replace (a + 1 + Z.of_nat j) with (a + Z.of_nat (S j)) by lia.
      apply Hall. lia.
Qed.

(** The first attempt, among the first [n], that is not a captcha failure. *)
Fixpoint firstFinal (n : nat) (a : Z) : option nat :=
  match n with
  | O => None
  | S n' =>
      if Go.isCaptchaError (tried a) then
        match firstFinal n' (a + 1) with
        | Some j => Some (S j)
        | None => None
        end
      else Some O
  end.

Lemma firstFinal_Some n : forall a j,
  firstFinal n a = Some j ->
  (j < n)%nat
  /\ Go.isCaptchaError (tried (a + Z.of_nat j)) = false
  /\ forall i, (i < j)%nat -> Go.isCaptchaError (tried (a + Z.of_nat i)) = true.
Proof.
  induction n as [|n IH]; intros a j H; [discriminate|].
  simpl in H. destruct (Go.isCaptchaError (tried a)) eqn:E.
  - destruct (firstFinal n (a + 1)) as [j'|] eqn:F; [|discriminate].
    injection H as <-. destruct (IH _ _ F) as (Hlt & Hf & Hpre).
    split; [lia|]. split.
    + now replace (a + Z.of_nat (S j')) with (a + 1 + Z.of_nat j') by lia.
    + intros [|i] Hi; [simpl; now rewrite Z.add_0_r|].
      replace (a + Z.of_nat (S i)) with (a + 1 + Z.of_nat i) by lia.
      apply Hpre. lia.
  - injection H as <-. split; [lia|]. split.
    + simpl. now rewrite Z.add_0_r.
    + intros i Hi. lia.
Qed.

Lemma firstFinal_None n : forall a,
  firstFinal n a = None ->
  forall i, (i < n)%nat -> Go.isCaptchaError (tried (a + Z.of_nat i)) = true.
Proof.
  induction n as [|n IH]; intros a H i Hi; [lia|].
  simpl in H. destruct (Go.isCaptchaError (tried a)) eqn:E; [|discriminate].
  destruct (firstFinal n (a + 1)) eqn:F; [discriminate|].
  destruct i as [|i]; [simpl; now rewrite Z.add_0_r|].
  replace (a + Z.of_nat (S i)) with (a + 1 + Z.of_nat i) by lia.
  apply IH; [exact F | lia].
Qed.

End RetryLoop.

Lemma retryLoop_skip cfg run cedula n : forall fuel a res,
  (forall j, (j < n)%nat ->
             Go.isCaptchaError (tried run cedula (a + Z.of_nat j)) = true) ->
  exists res',
    Go.retryLoop cfg run cedula (n + fuel) a res
    = (fst (Go.retryLoop cfg run cedula fuel (a + Z.of_nat n) res'),
       (retries cfg cedula n a
          ++ snd (Go.retryLoop cfg run cedula fuel (a + Z.of_nat n)
                    res'))%list).
Proof.
  induction n as [|n IH]; intros fuel a res Hpre.
  - exists res. simpl. rewrite Z.add_0_r.
    now destruct (Go.retryLoop cfg run cedula fuel a res).
  - assert (H0 := Hpre O ltac:(lia)). simpl in H0. rewrite Z.add_0_r in H0.
    destruct (IH fuel (a + 1) (tried run cedula a)) as [res' E].
    { intros j Hj.
      replace (a + 1 + Z.of_nat j) with (a + Z.of_nat (S j)) by lia.
      apply Hpre. lia. }
    exists res'. change (S n + fuel)%nat with (S (n + fuel)).
    rewrite retryLoop_retry by exact H0. rewrite E. cbn [fst snd retries app].
    now replace (a + 1 + Z.of_nat n) with (a + Z.of_nat (S n)) by lia.
Qed.

Lemma retryLoop_first_event cfg run cedula fuel a res :
  exists rest,
    snd (Go.retryLoop cfg run cedula (S fuel) a res)
    = Go.EvProcess cedula a :: rest.
Proof.
  destruct (Go.isCaptchaError (tried run cedula a)) eqn:E.
  - rewrite retryLoop_retry by exact E. eexists. reflexivity.
  - rewrite retryLoop_final by exact E. eexists. reflexivity.
Qed.

Lemma pageRuns_retries cfg cedula n : forall a,
  Go.pageRuns (retries cfg cedula n a)
  = map (fun j => (cedula, a + Z.of_nat j)) (seq 0 n).
Proof.
  induction n as [|n IH]; intros a; [reflexivity|].
  cbn [retries]. unfold Go.pageRuns in *. cbn [omap option_bind mbind].
  simpl. rewrite IH, Z.add_0_r. f_equal.
  rewrite <- seq_shift, map_map. apply map_ext. intros j. f_equal. lia.
Qed.

Lemma retries_snoc cfg cedula n : forall a,
  retries cfg cedula (S n) a
  = (retries cfg cedula n a
       ++ [Go.EvProcess cedula (a + Z.of_nat n);
           Go.EvSleep (Go.RetryDelay (Go.Timeouts cfg))])%list.
Proof.
  induction n as [|n IH]; intros a.
  - simpl. now rewrite Z.add_0_r.
  - change (retries cfg cedula (S (S n)) a)
      with (Go.EvProcess cedula a
              :: Go.EvSleep (Go.RetryDelay (Go.Timeouts cfg))
              :: retries cfg cedula (S n) (a + 1)).
    rewrite IH. cbn [retries app].
    now replace (a + 1 + Z.of_nat n) with (a + Z.of_nat (S n)) by lia.
Qed.

(** The text of a navigation failure holds "captcha" only if the driver's
    message does. *)
Lemma navigation_error_text e :
  GoStrings.Contains ("Error al navegar: " +:+ e) "captcha"
  = GoStrings.Contains e "captcha".
Proof. reflexivity. Qed.

(** C2. In the retry loop of the Go worker, let attempt [1 + n] be reached
    (all earlier attempts were captcha failures) with attempts to spare.
    If its result is a success or an error whose text is not a captcha
    text, the loop ends there: it is the recorded result, its attempt count
    is [1 + n], no delay and no page run follow.  If it is a captcha failure
    and an attempt remains, the worker sleeps the configured retry delay
    and runs the next attempt.  In particular a navigation or
    selector-wait failure of the first page block on attempt 1 is recorded
    with [Attempts = 1] after a single page run. *)
Theorem only_captcha_failures_are_retried :
  forall (cfg : Go.Config) (run : Z -> Go.PageRun) (cedula : string) (n : nat),
    Z.of_nat n < Go.MaxRetries (Go.Timeouts cfg) ->
    (forall j, (j < n)%nat ->
               Go.isCaptchaError (tried run cedula (1 + Z.of_nat j)) = true) ->
    let a := 1 + Z.of_nat n in
    let out := Go.processWithRetries cfg run cedula in
    (Go.isCaptchaError (tried run cedula a) = false ->
     out = (tried run cedula a,
            (retries cfg cedula n 1 ++ [Go.EvProcess cedula a])%list)
     /\ Go.Attempts (fst out) = a)
    /\ (Go.isCaptchaError (tried run cedula a) = true ->
        a < Go.MaxRetries (Go.Timeouts cfg) ->
        exists rest,
          snd out
          = (retries cfg cedula n 1
               ++ Go.EvProcess cedula a
               :: Go.EvSleep (Go.RetryDelay (Go.Timeouts cfg))
               :: Go.EvProcess cedula (a + 1) :: rest)%list)
    /\ (n = O ->
        forall e,
          Go.navigateErr (run 1) = Some e ->
          GoStrings.Contains e "captcha" = false ->
          Go.Attempts (fst out) = 1
          /\ Go.Error (fst out) = "Error al navegar: " +:+ e
          /\ Go.pageRuns (snd out) = [(cedula, 1)]).
Proof.
  intros cfg run cedula n Hn Hpre a out.
  assert (Hstop : Go.isCaptchaError (tried run cedula a) = false ->
                  out = (tried run cedula a,
                         (retries cfg cedula n 1
                            ++ [Go.EvProcess cedula a])%list)).
  { intros Hfin. unfold out, Go.processWithRetries.
    replace (Z.to_nat (Go.MaxRetries (Go.Timeouts cfg)))
      with (n + S (Z.to_nat (Go.MaxRetries (Go.Timeouts cfg)) - S n))%nat
      by lia.
    apply retryLoop_stops; assumption. }
  split; [|split].
  - intros Hfin. split; [now apply Hstop|].
    rewrite (Hstop Hfin). cbn [fst]. apply processCedula_Attempts.
  - intros Hcap Ha. unfold out, Go.processWithRetries.
    replace (Z.to_nat (Go.MaxRetries (Go.Timeouts cfg)))
      with (S n + S (Z.to_nat (Go.MaxRetries (Go.Timeouts cfg)) - S (S n)))%nat
      by lia.
    destruct (retryLoop_skip cfg run cedula (S n)
                (S (Z.to_nat (Go.MaxRetries (Go.Timeouts cfg)) - S (S n)))
                1 Go.zeroResult) as [res' E].
    { intros j Hj. destruct (Nat.eq_dec j n) as [->|Hne].
      - exact Hcap.
      - apply Hpre. lia. }
    rewrite E. cbn [snd].
    destruct (retryLoop_first_event cfg run cedula
                (Z.to_nat (Go.MaxRetries (Go.Timeouts cfg)) - S (S n))
                (1 + Z.of_nat (S n)) res') as [rest Erest].
    rewrite Erest. exists rest.
    replace (1 + Z.of_nat (S n)) with (a + 1) by lia.
    rewrite retries_snoc, <- app_assoc. reflexivity.
  - intros -> e Hnav Hc.
    assert (Hr : tried run cedula 1
                 = Go.failed cedula 1 ("Error al navegar: " +:+ e) (run 1)).
    { unfold tried, Go.processCedula. now rewrite Hnav. }
    assert (Hfin : Go.isCaptchaError (tried run cedula a) = false).
    { subst a. simpl Z.of_nat. rewrite Z.add_0_r, Hr.
      rewrite isCaptchaError_spec. cbn [Go.Error Go.failed].
      rewrite navigation_error_text, Hc. reflexivity. }
    rewrite (Hstop Hfin). subst a. simpl Z.of_nat. rewrite Z.add_0_r, Hr.
    repeat split.
Qed.

Definition selectorTimeout : Go.PageRun :=
  {| Go.navigateErr := Some "context deadline exceeded";
     Go.captchaVisible := false;
     Go.screenshotErr := None;
     Go.captchaService :=
       Go.mkCaptchaService (Go.TransportErr "")
                           (fun _ => Go.TransportErr "");
     Go.typeCaptchaErr := None;
     Go.clickErr := None;
     Go.hasError := false;
     Go.errorMessage := "";
     Go.extractErr := None;
     Go.primerApellido := "";
     Go.segundoApellido := "";
     Go.primerNombre := "";
     Go.otrosNombres := "";
     Go.estado := "";
     Go.elapsed := "1m0.2s" |}.

Lemma only_captcha_failures_are_retried_witness :
  Go.Attempts
    (fst (Go.processWithRetries (Go.getDefaultConfig 4)
            (fun _ => selectorTimeout) "1047473418")) = 1
  /\ Go.pageRuns
       (snd (Go.processWithRetries (Go.getDefaultConfig 4)
               (fun _ => selectorTimeout) "1047473418"))
     = [("1047473418", 1)].
Proof.
  destruct (only_captcha_failures_are_retried (Go.getDefaultConfig 4)
              (fun _ => selectorTimeout) "1047473418" O)
    as (_ & _ & H).
  - simpl. lia.
  - intros j Hj. lia.
  - destruct (H eq_refl "context deadline exceeded" eq_refl eq_refl)
      as (Ha & _ & Hp).
    split; [exact Ha | exact Hp].
Defined.

(** ** The collector of [ProcessCedulas] *)

(** The position of the last occurrence of [c] in [l]. *)
Fixpoint lastIndex (c : string) (l : list string) : option nat :=
  match l with
  | [] => None
  | x :: rest =>
      match lastIndex c rest with
      | Some j => Some (S j)
      | None => if String.eqb x c then Some O else None
      end
  end.

(** The last of [arrivals] that the collector writes to slot [i]. *)
Fixpoint lastArrival (indices : gmap string nat) (i : nat)
  (arrivals : list Go.Result) : option Go.Result :=
  match arrivals with
  | [] => None
  | r :: rest =>
      match lastArrival indices i rest with
      | Some r' => Some r'
      | None =>
          if bool_decide (indices !! Go.Cedula r = Some i) then Some r
          else None
      end
  end.

Section Collector.

Implicit Types (cedulas : list string) (arrivals results : list Go.Result).

Lemma lastIndex_lookup c cedulas : forall j,
  lastIndex c cedulas = Some j -> cedulas !! j = Some c.
Proof.
  induction cedulas as [|x rest IH]; intros j H; [discriminate|].
  simpl in H. destruct (lastIndex c rest) as [j'|] eqn:E.
  - injection H as <-. simpl. now apply IH.
  - destruct (String.eqb x c) eqn:Ex; [|discriminate].
    injection H as <-. apply String.eqb_eq in Ex. now subst.
Qed.

Lemma lastIndex_None c cedulas : lastIndex c cedulas = None -> c ∉ cedulas.
Proof.
  induction cedulas as [|x rest IH]; intros H; [apply not_elem_of_nil|].
  simpl in H. destruct (lastIndex c rest) eqn:E; [discriminate|].
  destruct (String.eqb x c) eqn:Ex; [discriminate|].
  apply String.eqb_neq in Ex. apply not_elem_of_cons. split; [congruence|].
  now apply IH.
Qed.

Lemma lastIndex_NoDup c cedulas : forall i,
  NoDup cedulas -> cedulas !! i = Some c -> lastIndex c cedulas = Some i.
Proof.
  induction cedulas as [|x rest IH]; intros i Hnd Hi; [discriminate|].
  apply NoDup_cons in Hnd as [Hx Hnd]. destruct i as [|i]; simpl in *.
  - injection Hi as ->. destruct (lastIndex c rest) as [j|] eqn:E.
    + apply lastIndex_lookup in E. exfalso. apply Hx.
      apply list_elem_of_lookup. eauto.
    + now rewrite String.eqb_refl.
  - now rewrite (IH i Hnd Hi).
Qed.

Lemma buildIndices_lookup c cedulas : forall i (m : gmap string nat),
  Go.buildIndices i cedulas m !! c
  = match lastIndex c cedulas with
    | Some j => Some (i + j)%nat
    | None => m !! c
    end.
Proof.
  induction cedulas as [|x rest IH]; intros i m; [reflexivity|].
  simpl. rewrite IH. destruct (lastIndex c rest) as [j|].
  - f_equal. lia.
  - destruct (String.eqb x c) eqn:Ex.
    + apply String.eqb_eq in Ex. subst. rewrite lookup_insert_eq.
      f_equal. lia.
    + apply String.eqb_neq in Ex. now rewrite lookup_insert_ne.
Qed.

Lemma cedulaIndices_lookup c cedulas :
  Go.cedulaIndices cedulas !! c = lastIndex c cedulas.
Proof.
  unfold Go.cedulaIndices. rewrite buildIndices_lookup.
  destruct (lastIndex c cedulas); [reflexivity | apply lookup_empty].
Qed.

Lemma record_length indices results r :
  List.length (Go.record indices results r) = List.length results.
Proof.
  unfold Go.record. destruct (indices !! Go.Cedula r); [|reflexivity].
  apply length_insert.
Qed.

Lemma fold_record_length indices arrivals : forall results,
  List.length (fold_left (Go.record indices) arrivals results)
  = List.length results.
Proof.
  induction arrivals as [|r rest IH]; intros results; [reflexivity|].
  simpl. now rewrite IH, record_length.
Qed.

Lemma fold_record_lookup indices arrivals : forall results i,
  (i < List.length results)%nat ->
  fold_left (Go.record indices) arrivals results !! i
  = match lastArrival indices i arrivals with
    | Some r => Some r
    | None => results !! i
    end.
Proof.
  induction arrivals as [|r rest IH]; intros results i Hi; [reflexivity|].
  simpl. rewrite IH by now rewrite record_length.
  destruct (lastArrival indices i rest); [reflexivity|].
  unfold Go.record. case_bool_decide as Hidx.
  - rewrite Hidx. now apply list_lookup_insert_eq.
  - destruct (indices !! Go.Cedula r) as [j|] eqn:E; [|reflexivity].
    apply list_lookup_insert_ne. congruence.
Qed.

Lemma collect_length cedulas arrivals :
  List.length (Go.collect cedulas arrivals) = List.length cedulas.
Proof.
  unfold Go.collect. now rewrite fold_record_length, length_replicate.
Qed.

Lemma collect_lookup cedulas arrivals i :
  (i < List.length cedulas)%nat ->
  Go.collect cedulas arrivals !! i
  = match lastArrival (Go.cedulaIndices cedulas) i arrivals with
    | Some r => Some r
    | None => Some Go.zeroResult
    end.
Proof.
  intros Hi. unfold Go.collect.
  rewrite fold_record_lookup by now rewrite length_replicate.
  destruct (lastArrival _ i arrivals); [reflexivity|].
  now apply lookup_replicate_2.
Qed.

Lemma lastArrival_Some indices i arrivals r :
  lastArrival indices i arrivals = Some r ->
  r ∈ arrivals /\ indices !! Go.Cedula r = Some i.
Proof.
  induction arrivals as [|x rest IH]; intros H; [discriminate|].
  simpl in H. destruct (lastArrival indices i rest) as [r'|] eqn:E.
  - injection H as ->. destruct (IH eq_refl) as [Hin Hidx].
    split; [now apply list_elem_of_further | exact Hidx].
  - case_bool_decide as Hidx; [|discriminate]. injection H as ->.
    split; [apply list_elem_of_here | exact Hidx].
Qed.

Lemma lastArrival_None indices i arrivals r :
  lastArrival indices i arrivals = None ->
  r ∈ arrivals -> indices !! Go.Cedula r <> Some i.
Proof.
  induction arrivals as [|x rest IH]; intros H Hin.
  - now apply elem_of_nil in Hin.
  - simpl in H. destruct (lastArrival indices i rest) eqn:E; [discriminate|].
    case_bool_decide as Hidx; [discriminate|].
    apply elem_of_cons in Hin as [->|Hin]; [exact Hidx | now apply IH].
Qed.

(** Every slot holds the zero value or something that arrived. *)
Lemma collect_elem cedulas arrivals r :
  r ∈ Go.collect cedulas arrivals -> r = Go.zeroResult \/ r ∈ arrivals.
Proof.
  intros Hin. apply list_elem_of_lookup in Hin as [i Hi].
  assert (Hlt : (i < List.length cedulas)%nat).
  { rewrite <- (collect_length cedulas arrivals).
    now apply lookup_lt_Some with r. }
  rewrite collect_lookup in Hi by exact Hlt.
  destruct (lastArrival _ i arrivals) as [r'|] eqn:E.
  - injection Hi as ->. right. now apply lastArrival_Some in E.
  - injection Hi as <-. now left.
Qed.

End Collector.

(** ** Interleavings *)

Section Interleavings.

Context {A : Type}.
Implicit Types (ls : list (list A)) (s : list A).

Lemma concat_insert_tail ls : forall i x xs,
  ls !! i = Some (x :: xs) ->
  concat ls ≡ₚ x :: concat (<[i := xs]> ls).
Proof.
  induction ls as [|l ls IH]; intros i x xs H; [discriminate|].
  destruct i as [|i]; simpl in *.
  - injection H as ->. reflexivity.
  - rewrite (IH i x xs H). now rewrite Permutation_middle.
Qed.

Lemma Interleaving_Permutation ls s :
  Go.Interleaving ls s -> concat ls ≡ₚ s.
Proof.
  induction 1 as [ls Hnil|ls i x xs s Hi _ IH].
  - induction Hnil as [|l ls -> _ IHl]; [reflexivity | exact IHl].
  - rewrite (concat_insert_tail ls i x xs Hi). now rewrite IH.
Qed.

Lemma Interleaving_skip_empty ls s :
  Go.Interleaving ls s -> Go.Interleaving ([] :: ls) s.
Proof.
  induction 1 as [ls Hnil|ls i x xs s Hi _ IH].
  - apply Go.Interleaving_done. now constructor.
  - now apply (Go.Interleaving_next ([] :: ls) (S i) x xs s).
Qed.

(** Worker after worker is one of the interleavings. *)
Lemma Interleaving_concat ls : Go.Interleaving ls (concat ls).
Proof.
  induction ls as [|l ls IH].
  - apply Go.Interleaving_done. constructor.
  - induction l as [|x xs IHl].
    + simpl. now apply Interleaving_skip_empty.
    + simpl. now apply (Go.Interleaving_next ((x :: xs) :: ls) O x xs).
Qed.

End Interleavings.

(** ** What [ProcessCedulas] can return *)

Lemma take_elem {A : Type} (l : list A) (n : nat) (x : A) :
  x ∈ take n l -> x ∈ l.
Proof.
  intros H. rewrite <- (take_drop n l). apply elem_of_app. now left.
Qed.

(** The slice may be returned with every arrival recorded. *)
Lemma ProcessCedulas_drained numCPU cfg env cedulas arrivals :
  Go.Interleaving (map Go.sends (Go.workers numCPU cfg env cedulas)) arrivals ->
  Go.ProcessCedulas numCPU cfg env cedulas (Go.collect cedulas arrivals).
Proof.
  intros Hil. exists arrivals, (List.length arrivals).
  split; [exact Hil|]. split; [lia|]. now rewrite firstn_all.
Qed.

Lemma ProcessCedulas_in_order numCPU cfg env cedulas :
  Go.ProcessCedulas numCPU cfg env cedulas
    (Go.ProcessCedulasInOrder numCPU cfg env cedulas).
Proof. apply ProcessCedulas_drained, Interleaving_concat. Qed.

(** An entry of a returned slice is the zero value or was sent by a
    worker. *)
Lemma ProcessCedulas_elem numCPU cfg env cedulas results r :
  Go.ProcessCedulas numCPU cfg env cedulas results ->
  r ∈ results ->
  r = Go.zeroResult
  \/ exists arrivals,
       Go.Interleaving (map Go.sends (Go.workers numCPU cfg env cedulas))
         arrivals
       /\ r ∈ arrivals.
Proof.
  intros (arrivals & n & Hil & _ & ->) Hin.
  apply collect_elem in Hin as [->|Hin]; [now left|].
  right. exists arrivals. split; [exact Hil|]. now apply take_elem in Hin.
Qed.

(** ** Workers and shards *)

(** The shard handed to worker [i]. *)
Definition shardOf (cedulas : list string) (perBrowser : Z) (i : nat)
  : list string :=
  Go.slice cedulas (Z.of_nat i * perBrowser)
    (if (Z.of_nat (List.length cedulas) <? (Z.of_nat i + 1) * perBrowser)%Z
     then Z.of_nat (List.length cedulas)
     else (Z.of_nat i + 1) * perBrowser).

(** The environment in which the browser of worker [i] answers [o] and
    everything else is as in [env]. *)
Definition withBrowser (env : Go.Env) (i : nat) (o : option string) : Go.Env :=
  Go.mkEnv (fun j => if Nat.eqb j i then o else Go.startBrowser env j)
           (Go.page env).

Section Workers.

Variable cfg : Go.Config.

Lemma retryLoop_result run cedula fuel : forall a res,
  let r := fst (Go.retryLoop cfg run cedula (S fuel) a res) in
  a <= Go.Attempts r <= a + Z.of_nat fuel
  /\ Go.Cedula r = cedula
  /\ (Go.isCaptchaError r = true -> Go.Attempts r = a + Z.of_nat fuel).
Proof.
  induction fuel as [|fuel IH]; intros a res r; subst r;
    destruct (Go.isCaptchaError (tried run cedula a)) eqn:E.
  - rewrite retryLoop_retry by exact E. cbn [fst Go.retryLoop].
    unfold tried. rewrite processCedula_Attempts, processCedula_Cedula.
    split; [simpl; lia|]. split; [reflexivity|]. intros _. simpl. lia.
  - rewrite retryLoop_final by exact E. cbn [fst].
    rewrite E. unfold tried.
    rewrite processCedula_Attempts, processCedula_Cedula.
    split; [simpl; lia|]. split; [reflexivity|]. discriminate.
  - rewrite retryLoop_retry by exact E. cbn [fst].
    destruct (IH (a + 1) (tried run cedula a)) as (Hb & Hc & Hx).
    split; [lia|]. split; [exact Hc|]. intros Hcap. rewrite (Hx Hcap). lia.
  - rewrite retryLoop_final by exact E. cbn [fst].
    rewrite E. unfold tried.
    rewrite processCedula_Attempts, processCedula_Cedula.
    split; [lia|]. split; [reflexivity|]. discriminate.
Qed.

Lemma processWithRetries_result run cedula :
  1 <= Go.MaxRetries (Go.Timeouts cfg) ->
  let r := fst (Go.processWithRetries cfg run cedula) in
  1 <= Go.Attempts r <= Go.MaxRetries (Go.Timeouts cfg)
  /\ Go.Cedula r = cedula
  /\ (Go.isCaptchaError r = true ->
      Go.Attempts r = Go.MaxRetries (Go.Timeouts cfg)).
Proof.
  intros Hmax r. subst r. unfold Go.processWithRetries.
  destruct (Z.to_nat (Go.MaxRetries (Go.Timeouts cfg))) as [|fuel] eqn:Ef;
    [lia|].
  destruct (retryLoop_result run cedula fuel 1 Go.zeroResult) as (Hb & Hc & Hx).
  split; [lia|]. split; [exact Hc|]. intros Hcap. rewrite (Hx Hcap). lia.
Qed.

Lemma sends_app evs evs' :
  Go.sends (evs ++ evs') = (Go.sends evs ++ Go.sends evs')%list.
Proof. apply omap_app. Qed.

Lemma pageRuns_app evs evs' :
  Go.pageRuns (evs ++ evs') = (Go.pageRuns evs ++ Go.pageRuns evs')%list.
Proof. apply omap_app. Qed.

Lemma sends_retryLoop run cedula fuel : forall a res,
  Go.sends (snd (Go.retryLoop cfg run cedula fuel a res)) = [].
Proof.
  induction fuel as [|fuel IH]; intros a res; [reflexivity|].
  destruct (Go.isCaptchaError (tried run cedula a)) eqn:E.
  - rewrite retryLoop_retry by exact E. cbn [snd]. apply IH.
  - now rewrite retryLoop_final by exact E.
Qed.

(** A started worker sends one result per identifier of its shard, the
    outcome of that identifier's retry loop, in shard order. *)
Lemma sends_workerLoop env idx shard : forall k,
  Go.sends (Go.workerLoop cfg env idx k shard)
  = imap (fun j cedula =>
            fst (Go.processWithRetries cfg (Go.page env idx (k + j)) cedula))
         shard.
Proof.
  induction shard as [|c rest IH]; intros k; [reflexivity|].
  cbn [Go.workerLoop imap]. rewrite sends_app.
  unfold Go.processWithRetries at 1. rewrite sends_retryLoop.
  cbn [app]. change (Go.sends (?e :: ?l)) with
    (match e with Go.EvSend r => r :: Go.sends l | _ => Go.sends l end).
  cbn beta iota. rewrite Nat.add_0_r. f_equal.
  rewrite IH. apply imap_ext. intros j x _. simpl.
  now replace (k + S j)%nat with (S (k + j)) by lia.
Qed.

Lemma sends_worker_failed env idx shard err :
  Go.startBrowser env idx = Some err ->
  Go.worker cfg env shard idx
  = map (fun c => Go.EvSend (Go.startupFailure c err)) shard.
Proof. intros H. unfold Go.worker. now rewrite H. Qed.

Lemma sends_map_EvSend (rs : list Go.Result) :
  Go.sends (map Go.EvSend rs) = rs.
Proof. induction rs as [|r rs IH]; [reflexivity|]. cbn. now f_equal. Qed.

Lemma pageRuns_map_EvSend (rs : list Go.Result) :
  Go.pageRuns (map Go.EvSend rs) = [].
Proof. induction rs as [|r rs IH]; [reflexivity|]. exact IH. Qed.

Lemma sends_worker_Cedula env idx shard :
  1 <= Go.MaxRetries (Go.Timeouts cfg) ->
  map Go.Cedula (Go.sends (Go.worker cfg env shard idx)) = shard.
Proof.
  intros Hmax. unfold Go.worker. destruct (Go.startBrowser env idx) as [err|].
  - rewrite <- (map_map (fun c => Go.startupFailure c err) Go.EvSend).
    rewrite sends_map_EvSend, map_map. simpl. apply map_id.
  - rewrite sends_workerLoop. generalize O.
    induction shard as [|c rest IH]; intros k; [reflexivity|].
    cbn [imap map]. f_equal.
    + now apply processWithRetries_result.
    + etransitivity; [|exact (IH (S k))]. f_equal. apply imap_ext.
      intros j x _. simpl. now replace (k + S j)%nat with (S (k + j)) by lia.
Qed.

Lemma sends_worker_elem env idx shard r :
  r ∈ Go.sends (Go.worker cfg env shard idx) ->
  (exists c err, r = Go.startupFailure c err)
  \/ (exists run c, r = fst (Go.processWithRetries cfg run c)).
Proof.
  unfold Go.worker. destruct (Go.startBrowser env idx) as [err|].
  - rewrite <- (map_map (fun c => Go.startupFailure c err) Go.EvSend).
    rewrite sends_map_EvSend. intros Hin.
    apply list_elem_of_fmap in Hin as (c & -> & _). left. eauto.
  - rewrite sends_workerLoop. intros Hin.
    apply elem_of_lookup_imap in Hin as (j & c & -> & _). right. eauto.
Qed.

Lemma startWorkers_lookup env cedulas per fuel : forall i j evs,
  Go.startWorkers cfg env cedulas per fuel i !! j = Some evs ->
  evs = Go.worker cfg env (shardOf cedulas per (i + j)) (i + j).
Proof.
  induction fuel as [|fuel IH]; intros i j evs H; [discriminate|].
  cbn [Go.startWorkers] in H.
  destruct (Z.of_nat i * per <? Z.of_nat (List.length cedulas))%Z;
    [|discriminate].
  destruct j as [|j]; simpl in H.
  - injection H as <-. now rewrite Nat.add_0_r.
  - apply IH in H. now replace (i + S j)%nat with (S i + j)%nat by lia.
Qed.

End Workers.

Section Sharding.

Variable cfg : Go.Config.
Variable env : Go.Env.
Variable cedulas : list string.

Lemma shardOf_drop per i :
  0 <= per ->
  (shardOf cedulas per i
     ++ drop (Z.to_nat ((Z.of_nat i + 1) * per)) cedulas)%list
  = drop (Z.to_nat (Z.of_nat i * per)) cedulas.
Proof.
  intros Hper. unfold shardOf, Go.slice.
  destruct (Z.of_nat (List.length cedulas) <? (Z.of_nat i + 1) * per)%Z eqn:E.
  - apply Z.ltb_lt in E.
    rewrite (drop_ge cedulas (Z.to_nat ((Z.of_nat i + 1) * per))) by lia.
    rewrite app_nil_r. apply take_ge. rewrite length_drop. lia.
  - apply Z.ltb_ge in E.
    replace (Z.to_nat ((Z.of_nat i + 1) * per))
      with (Z.to_nat (Z.of_nat i * per)
            + Z.to_nat ((Z.of_nat i + 1) * per - Z.of_nat i * per))%nat
      by lia.
    rewrite <- drop_drop. apply take_drop.
Qed.

(** The identifiers of the results sent by the workers started from [i]
    on are the rest of the input, in order. *)
Lemma startWorkers_Cedulas per fuel : forall i,
  0 <= per ->
  1 <= Go.MaxRetries (Go.Timeouts cfg) ->
  Z.of_nat (List.length cedulas) <= (Z.of_nat i + Z.of_nat fuel) * per ->
  map Go.Cedula
    (concat (map Go.sends (Go.startWorkers cfg env cedulas per fuel i)))
  = drop (Z.to_nat (Z.of_nat i * per)) cedulas.
Proof.
  induction fuel as [|fuel IH]; intros i Hper Hmax Hlen.
  - simpl. symmetry. apply drop_ge. lia.
  - cbn [Go.startWorkers].
    destruct (Z.of_nat i * per <? Z.of_nat (List.length cedulas))%Z eqn:E.
    + cbn [map concat]. rewrite map_app, sends_worker_Cedula by exact Hmax.
      rewrite IH by (try assumption; lia).
      replace (Z.of_nat (S i) * per) with ((Z.of_nat i + 1) * per) by lia.
      now apply shardOf_drop.
    + apply Z.ltb_ge in E. simpl. symmetry. apply drop_ge. lia.
Qed.

Lemma optimalBrowsers_pos numCPU :
  1 <= numCPU -> 1 <= Go.optimalBrowsers numCPU cfg.
Proof.
  intros H. unfold Go.optimalBrowsers.
  destruct (0 <? Go.MaxParallelBrowsers cfg)%Z eqn:E; simpl; [|exact H].
  destruct (Go.MaxParallelBrowsers cfg <? numCPU)%Z; [|exact H].
  apply Z.ltb_lt in E. lia.
Qed.

Lemma cedulasPerBrowser_covers numCPU :
  1 <= numCPU ->
  0 <= Go.cedulasPerBrowser numCPU cfg cedulas
  /\ Z.of_nat (List.length cedulas)
     <= Go.optimalBrowsers numCPU cfg * Go.cedulasPerBrowser numCPU cfg cedulas.
Proof.
  intros H. pose proof (optimalBrowsers_pos numCPU H) as Ho.
  unfold Go.cedulasPerBrowser.
  set (o := Go.optimalBrowsers numCPU cfg) in *.
  set (n := Z.of_nat (List.length cedulas)).
  assert (Hn : 0 <= n) by (unfold n; lia).
  rewrite Z.quot_div_nonneg by lia.
  pose proof (Z.div_mod (n + o - 1) o ltac:(lia)) as Hdm.
  pose proof (Z.mod_pos_bound (n + o - 1) o ltac:(lia)) as Hmod.
  split; [apply Z.div_pos; lia | lia].
Qed.

Lemma workers_Cedulas numCPU :
  1 <= numCPU ->
  1 <= Go.MaxRetries (Go.Timeouts cfg) ->
  map Go.Cedula (concat (map Go.sends (Go.workers numCPU cfg env cedulas)))
  = cedulas.
Proof.
  intros Hcpu Hmax. unfold Go.workers.
  destruct (cedulasPerBrowser_covers numCPU Hcpu) as [Hper Hcov].
  pose proof (optimalBrowsers_pos numCPU Hcpu) as Ho.
  rewrite startWorkers_Cedulas; [reflexivity|exact Hper|exact Hmax|].
  rewrite Z2Nat.id by lia. lia.
Qed.

Lemma workers_lookup numCPU j evs :
  Go.workers numCPU cfg env cedulas !! j = Some evs ->
  evs = Go.worker cfg env
          (shardOf cedulas (Go.cedulasPerBrowser numCPU cfg cedulas) j) j.
Proof. intros H. now apply startWorkers_lookup in H. Qed.

(** Whatever the collector receives was sent by some worker. *)
Lemma arrival_sent numCPU arrivals r :
  Go.Interleaving (map Go.sends (Go.workers numCPU cfg env cedulas)) arrivals ->
  r ∈ arrivals ->
  exists shard idx, r ∈ Go.sends (Go.worker cfg env shard idx).
Proof.
  intros Hil Hin. apply Interleaving_Permutation in Hil.
  rewrite <- Hil in Hin. apply list_elem_of_In, in_concat in Hin.
  destruct Hin as (l & Hl & Hr). apply in_map_iff in Hl as (evs & <- & Hevs).
  apply list_elem_of_In in Hr. apply list_elem_of_In in Hevs.
  apply list_elem_of_lookup in Hevs as [j Hj].
  apply workers_lookup in Hj. subst evs. eauto.
Qed.

End Sharding.

(** ** Attempt bound *)

Lemma startupFailure_fields c err :
  Go.Cedula (Go.startupFailure c err) = c
  /\ Go.Estado (Go.startupFailure c err) = "Error"
  /\ Go.Attempts (Go.startupFailure c err) = 1
  /\ Go.Error (Go.startupFailure c err) = "Error iniciando navegador: " +:+ err.
Proof. repeat split. Qed.

(** C3. With a positive [MaxRetries]: every entry of the slice returned by
    [ProcessCedulas], whatever the arrival order, has an attempt count
    between 0 and [MaxRetries]; the result of a retry loop has a count
    between 1 and [MaxRetries], and when that result is still a captcha
    failure (the loop ran out of attempts) the count is exactly
    [MaxRetries]. *)
Theorem attempts_bounded_by_max_retries :
  forall (numCPU : Z) (cfg : Go.Config) (env : Go.Env) (cedulas : list string),
    1 <= Go.MaxRetries (Go.Timeouts cfg) ->
    (forall results r,
        Go.ProcessCedulas numCPU cfg env cedulas results ->
        r ∈ results ->
        0 <= Go.Attempts r <= Go.MaxRetries (Go.Timeouts cfg))
    /\ (forall (run : Z -> Go.PageRun) (cedula : string),
          let r := fst (Go.processWithRetries cfg run cedula) in
          1 <= Go.Attempts r <= Go.MaxRetries (Go.Timeouts cfg)
          /\ (Go.isCaptchaError r = true ->
              Go.Attempts r = Go.MaxRetries (Go.Timeouts cfg))).
Proof.
  intros numCPU cfg env cedulas Hmax. split.
  - intros results r Hrun Hin.
    destruct (ProcessCedulas_elem _ _ _ _ _ _ Hrun Hin)
      as [->|(arrivals & Hil & Hin')]; [simpl; lia|].
    clear Hin. rename Hin' into Hin.
    destruct (arrival_sent cfg env cedulas numCPU arrivals r Hil Hin)
      as (shard & idx & Hsent).
    apply sends_worker_elem in Hsent as [(c & err & ->)|(run & c & ->)].
    + simpl. lia.
    + destruct (processWithRetries_result cfg run c Hmax) as (Hb & _ & _).
      lia.
  - intros run cedula r.
    destruct (processWithRetries_result cfg run cedula Hmax) as (Hb & _ & Hx).
    split; assumption.
Qed.

(** A page on which the captcha image cannot even be captured. *)
Definition captchaFails : Go.PageRun :=
  {| Go.navigateErr := None;
     Go.captchaVisible := true;
     Go.screenshotErr := Some "context deadline exceeded";
     Go.captchaService :=
       Go.mkCaptchaService (Go.TransportErr "")
                           (fun _ => Go.TransportErr "");
     Go.typeCaptchaErr := None;
     Go.clickErr := None;
     Go.hasError := false;
     Go.errorMessage := "";
     Go.extractErr := None;
     Go.primerApellido := "";
     Go.segundoApellido := "";
     Go.primerNombre := "";
     Go.otrosNombres := "";
     Go.estado := "";
     Go.elapsed := "1m0.2s" |}.

Lemma attempts_bounded_by_max_retries_witness :
  Go.Attempts
    (fst (Go.processWithRetries (Go.getDefaultConfig 4)
            (fun _ => captchaFails) "73089347")) = 3.
Proof.
  destruct (attempts_bounded_by_max_retries 4 (Go.getDefaultConfig 4)
              (Go.mkEnv (fun _ => None) (fun _ _ _ => captchaFails))
              ["73089347"]) as [_ H].
  - simpl. lia.
  - apply (H (fun _ => captchaFails) "73089347"). reflexivity.
Defined.

(** ** Browser start-up failure *)

Section BrowserFailure.

Variable cfg : Go.Config.
Variable env : Go.Env.
Variable i : nat.
Variable o : option string.

Lemma workerLoop_withBrowser j shard : forall k,
  Go.workerLoop cfg (withBrowser env i o) j k shard
  = Go.workerLoop cfg env j k shard.
Proof.
  induction shard as [|c rest IH]; intros k; [reflexivity|].
  cbn [Go.workerLoop]. rewrite IH. reflexivity.
Qed.

Lemma worker_withBrowser j shard :
  j <> i ->
  Go.worker cfg (withBrowser env i o) shard j = Go.worker cfg env shard j.
Proof.
  intros Hne. unfold Go.worker. cbn [Go.startBrowser withBrowser].
  apply Nat.eqb_neq in Hne. rewrite Hne, workerLoop_withBrowser.
  reflexivity.
Qed.

Lemma startWorkers_withBrowser cedulas per fuel : forall i0 j,
  (i0 + j)%nat <> i ->
  Go.startWorkers cfg (withBrowser env i o) cedulas per fuel i0 !! j
  = Go.startWorkers cfg env cedulas per fuel i0 !! j.
Proof.
  induction fuel as [|fuel IH]; intros i0 j Hne; [reflexivity|].
  cbn [Go.startWorkers].
  destruct (Z.of_nat i0 * per <? Z.of_nat (List.length cedulas))%Z;
    [|reflexivity].
  destruct j as [|j]; simpl.
  - rewrite worker_withBrowser by lia. reflexivity.
  - apply IH. lia.
Qed.

End BrowserFailure.

(** C7. When the browser of worker [i] fails to start, that worker sends,
    for every identifier of its shard and in shard order, an error result
    with [Estado = "Error"] and [Attempts = 1], and it runs no page at all:
    nothing is retried.  What any other worker does is the same whatever
    the browser of worker [i] answers, and a worker whose own browser
    starts sends the outcome of the retry loop of each identifier of its
    shard. *)
Theorem browser_failure_fails_whole_shard :
  forall (numCPU : Z) (cfg : Go.Config) (env : Go.Env) (cedulas : list string)
         (i : nat) (evs : list Go.Event) (err : string),
    Go.workers numCPU cfg env cedulas !! i = Some evs ->
    Go.startBrowser env i = Some err ->
    let per := Go.cedulasPerBrowser numCPU cfg cedulas in
    evs = map (fun c => Go.EvSend (Go.startupFailure c err))
              (shardOf cedulas per i)
    /\ Go.sends evs
       = map (fun c => Go.startupFailure c err) (shardOf cedulas per i)
    /\ Go.pageRuns evs = []
    /\ (forall r, r ∈ Go.sends evs ->
                  Go.Estado r = "Error" /\ Go.Attempts r = 1
                  /\ Go.Error r = "Error iniciando navegador: " +:+ err)
    /\ (forall j o, j <> i ->
          Go.workers numCPU cfg (withBrowser env i o) cedulas !! j
          = Go.workers numCPU cfg env cedulas !! j)
    /\ (forall j evs', j <> i ->
          Go.workers numCPU cfg env cedulas !! j = Some evs' ->
          Go.startBrowser env j = None ->
          Go.sends evs'
          = imap (fun k c =>
                    fst (Go.processWithRetries cfg (Go.page env j k) c))
                 (shardOf cedulas per j)).
Proof.
  intros numCPU cfg env cedulas i evs err Hi Herr per.
  apply workers_lookup in Hi.
  rewrite (sends_worker_failed cfg env i _ err Herr) in Hi.
  fold per in Hi.
  assert (Hs : Go.sends evs
               = map (fun c => Go.startupFailure c err)
                     (shardOf cedulas per i)).
  { rewrite Hi.
    rewrite <- (map_map (fun c => Go.startupFailure c err) Go.EvSend).
    apply sends_map_EvSend. }
  split; [exact Hi|]. split; [exact Hs|]. split; [|split; [|split]].
  - rewrite Hi.
    rewrite <- (map_map (fun c => Go.startupFailure c err) Go.EvSend).
    apply pageRuns_map_EvSend.
  - intros r Hr. rewrite Hs in Hr.
    apply list_elem_of_fmap in Hr as (c & -> & _). repeat split.
  - intros j o Hne. unfold Go.workers.
    apply startWorkers_withBrowser. simpl. exact Hne.
  - intros j evs' Hne Hj Hstart. apply workers_lookup in Hj. subst evs'.
    unfold Go.worker. rewrite Hstart. apply sends_workerLoop.
Qed.

(** A page that answers with the registry data, no captcha shown. *)
Definition registered : Go.PageRun :=
  {| Go.navigateErr := None;
     Go.captchaVisible := false;
     Go.screenshotErr := None;
     Go.captchaService :=
       Go.mkCaptchaService (Go.TransportErr "")
                           (fun _ => Go.TransportErr "");
     Go.typeCaptchaErr := None;
     Go.clickErr := None;
     Go.hasError := false;
     Go.errorMessage := "";
     Go.extractErr := None;
     Go.primerApellido := "PEREZ";
     Go.segundoApellido := "GOMEZ";
     Go.primerNombre := "ANA";
     Go.otrosNombres := "";
     Go.estado := "REGISTRO ACTIVO";
     Go.elapsed := "10.4s" |}.

(** Two browsers, of which the first does not start. *)
Definition firstBrowserDown : Go.Env :=
  Go.mkEnv (fun i => match i with
                     | O => Some "exec: chrome: not found"
                     | _ => None
                     end)
           (fun _ _ _ => registered).

Definition fourCedulas : list string :=
  ["1047473418"; "73089347"; "42207035"; "1047447085"].

Lemma browser_failure_fails_whole_shard_witness :
  Go.sends (Go.worker (Go.getDefaultConfig 2) firstBrowserDown
              ["1047473418"; "73089347"] 0)
  = [Go.startupFailure "1047473418" "exec: chrome: not found";
     Go.startupFailure "73089347" "exec: chrome: not found"].
Proof.
  exact (proj1 (proj2 (browser_failure_fails_whole_shard 2
                         (Go.getDefaultConfig 2) firstBrowserDown fourCedulas
                         0 _ "exec: chrome: not found" eq_refl eq_refl))).
Defined.

(** ** Duplicate identifiers *)

Lemma lastIndex_is_last c cedulas : forall j j',
  lastIndex c cedulas = Some j -> (j < j')%nat -> cedulas !! j' <> Some c.
Proof.
  induction cedulas as [|x rest IH]; intros j j' H Hlt Hj'; [discriminate|].
  simpl in H. destruct j' as [|j']; [lia|]. simpl in Hj'.
  destruct (lastIndex c rest) as [j0|] eqn:E.
  - injection H as <-. apply (IH j0 j' eq_refl); [lia | exact Hj'].
  - apply lastIndex_None in E. apply E. apply list_elem_of_lookup. eauto.
Qed.

Lemma lastIndex_of_last c cedulas j :
  cedulas !! j = Some c ->
  (forall j', (j < j')%nat -> cedulas !! j' <> Some c) ->
  lastIndex c cedulas = Some j.
Proof.
  intros Hj Hlast. destruct (lastIndex c cedulas) as [j0|] eqn:E.
  - f_equal. pose proof (lastIndex_lookup _ _ _ E) as Hj0.
    destruct (Nat.lt_trichotomy j0 j) as [Hlt|[->|Hgt]]; [|reflexivity|].
    + exfalso. now apply (lastIndex_is_last _ _ _ _ E Hlt).
    + exfalso. now apply (Hlast j0 Hgt).
  - apply lastIndex_None in E. exfalso. apply E.
    apply list_elem_of_lookup. eauto.
Qed.

Lemma lastArrival_app indices i pre arrivals :
  lastArrival indices i (pre ++ arrivals)
  = match lastArrival indices i arrivals with
    | Some r => Some r
    | None => lastArrival indices i pre
    end.
Proof.
  induction pre as [|x pre IH]; simpl.
  - now destruct (lastArrival indices i arrivals).
  - rewrite IH. now destruct (lastArrival indices i arrivals).
Qed.

Lemma lastArrival_none_of indices i arrivals :
  (forall r, r ∈ arrivals -> indices !! Go.Cedula r <> Some i) ->
  lastArrival indices i arrivals = None.
Proof.
  induction arrivals as [|x rest IH]; intros Hall; [reflexivity|].
  simpl. rewrite IH by (intros r Hr; apply Hall; now apply list_elem_of_further).
  case_bool_decide as Hidx; [|reflexivity].
  exfalso. now apply (Hall x); [apply list_elem_of_here|].
Qed.

(** C9. In the Go collector the index map sends an identifier to the
    position of its last occurrence in the input; a result for that
    identifier is written to that slot; after any sequence of arrivals the
    slot of the last occurrence holds the result that arrived last for the
    identifier, and a slot at an earlier occurrence of a repeated
    identifier still holds the zero-valued [Result]. *)
Theorem duplicates_collapse_onto_last_occurrence :
  forall (cedulas : list string) (c : string),
    (forall j,
        Go.cedulaIndices cedulas !! c = Some j
        <-> cedulas !! j = Some c
            /\ forall j', (j < j')%nat -> cedulas !! j' <> Some c)
    /\ (forall results r j,
          Go.Cedula r = c ->
          Go.cedulaIndices cedulas !! c = Some j ->
          Go.record (Go.cedulaIndices cedulas) results r = <[j := r]> results)
    /\ (forall earlier r later j,
          Go.Cedula r = c ->
          Go.cedulaIndices cedulas !! c = Some j ->
          (forall r', r' ∈ later -> Go.Cedula r' <> c) ->
          Go.collect cedulas (earlier ++ r :: later) !! j = Some r)
    /\ (forall arrivals i j,
          cedulas !! i = Some c ->
          cedulas !! j = Some c ->
          (i < j)%nat ->
          Go.collect cedulas arrivals !! i = Some Go.zeroResult).
Proof.
  intros cedulas c. split; [|split; [|split]].
  - intros j. rewrite cedulaIndices_lookup. split.
    + intros H. split; [now apply lastIndex_lookup|].
      intros j' Hlt. now apply (lastIndex_is_last _ _ _ _ H).
    + intros [Hj Hlast]. now apply lastIndex_of_last.
  - intros results r j Hc Hidx. unfold Go.record. now rewrite Hc, Hidx.
  - intros earlier r later j Hc Hidx Hlater.
    pose proof Hidx as Hj. rewrite cedulaIndices_lookup in Hj.
    apply lastIndex_lookup in Hj.
    rewrite collect_lookup by now apply lookup_lt_Some with c.
    rewrite lastArrival_app. cbn [lastArrival].
    rewrite lastArrival_none_of.
    + rewrite Hc, Hidx. now rewrite bool_decide_eq_true_2.
    + intros r' Hr' Hidx'. apply (Hlater r' Hr').
      rewrite cedulaIndices_lookup in Hidx'.
      apply lastIndex_lookup in Hidx'. congruence.
  - intros arrivals i j Hi Hj Hlt.
    rewrite collect_lookup by now apply lookup_lt_Some with c.
    destruct (lastArrival (Go.cedulaIndices cedulas) i arrivals) as [r|] eqn:E;
      [|reflexivity].
    exfalso. apply lastArrival_Some in E as [_ Hidx].
    rewrite cedulaIndices_lookup in Hidx.
    pose proof (lastIndex_lookup _ _ _ Hidx) as Hr.
    assert (Go.Cedula r = c) by congruence. subst c.
    now apply (lastIndex_is_last _ _ _ _ Hidx Hlt).
Qed.

Lemma duplicates_collapse_onto_last_occurrence_witness :
  Go.collect ["73089347"; "42207035"; "73089347"]
    [Go.startupFailure "73089347" "x"; Go.startupFailure "73089347" "y"]
    !! 2%nat
  = Some (Go.startupFailure "73089347" "y")
  /\ Go.collect ["73089347"; "42207035"; "73089347"]
       [Go.startupFailure "73089347" "x"; Go.startupFailure "73089347" "y"]
       !! O
     = Some Go.zeroResult.
Proof.
  destruct (duplicates_collapse_onto_last_occurrence
              ["73089347"; "42207035"; "73089347"] "73089347")
    as (_ & _ & Hlast & Hzero).
  split.
  - apply (Hlast [Go.startupFailure "73089347" "x"]
             (Go.startupFailure "73089347" "y") [] 2%nat).
    + reflexivity.
    + vm_compute. reflexivity.
    + intros r' Hr'. now apply elem_of_nil in Hr'.
  - apply (Hzero _ 0%nat 2%nat); [reflexivity | reflexivity | lia].
Defined.

(** ** Results and input positions *)








Lemma collect_slot cedulas arrivals i c :
  NoDup cedulas ->
  map Go.Cedula arrivals ≡ₚ cedulas ->
  cedulas !! i = Some c ->
  exists r, Go.collect cedulas arrivals !! i = Some r
            /\ Go.Cedula r = c /\ r ∈ arrivals.
Proof.
  intros Hnd Hperm Hi.
  rewrite collect_lookup by now apply lookup_lt_Some with c.
  destruct (lastArrival (Go.cedulaIndices cedulas) i arrivals) as [r|] eqn:E.
  - exists r. apply lastArrival_Some in E as [Hin Hidx].
    rewrite cedulaIndices_lookup in Hidx. apply lastIndex_lookup in Hidx.
    split; [reflexivity|]. split; [congruence | exact Hin].
  - exfalso.
    assert (Hc : c ∈ map Go.Cedula arrivals).
    { rewrite Hperm. apply list_elem_of_lookup. eauto. }
    apply list_elem_of_fmap in Hc as (r & -> & Hr).
    apply (lastArrival_None _ _ _ r E Hr).
    rewrite cedulaIndices_lookup. now apply lastIndex_NoDup.
Qed.


(** A page of [main.js] without captcha that shows the registry data. *)
Definition plainPage : MainJs.PageRun :=
  {| MainJs.openErr := None;
     MainJs.siteKey := Js.Null;
     MainJs.solver :=
       Js.mkSolver (Js.Throws "" "") (fun _ => Js.Throws "" "");
     MainJs.injectErr := None;
     MainJs.searchErr := None;
     MainJs.resultsFound := true;
     MainJs.noResultsErr := None;
     MainJs.evaluateErr := None;
     MainJs.data :=
       inl (Js.mkFields "PEREZ" "GOMEZ" "ANA" "N/A" "REGISTRO ACTIVO");
     MainJs.errorShotErr := None;
     MainJs.successShotErr := None;
     MainJs.navShotErr := None |}.



Lemma collect_slot_position cedulas arrivals i r :
  Go.collect cedulas arrivals !! i = Some r ->
  r = Go.zeroResult \/ (r ∈ arrivals /\ cedulas !! i = Some (Go.Cedula r)).
Proof.
  intros Hi.
  assert (Hlt : (i < List.length cedulas)%nat).
  { rewrite <- (collect_length cedulas arrivals).
    now apply lookup_lt_Some with r. }
  rewrite collect_lookup in Hi by exact Hlt.
  destruct (lastArrival (Go.cedulaIndices cedulas) i arrivals) as [r'|] eqn:E.
  - injection Hi as ->. right. apply lastArrival_Some in E as [Hin Hidx].
    split; [exact Hin|]. rewrite cedulaIndices_lookup in Hidx.
    now apply lastIndex_lookup.
  - injection Hi as <-. now left.
Qed.




(** A run of two browsers on four identifiers that returns while the last
    result is still in the channel: its slot holds the zero value at the
    return, although every identifier has been processed. *)
Example return_before_last_result_is_recorded :
  Go.ProcessCedulas 2 (Go.getDefaultConfig 2) firstBrowserDown fourCedulas
    (Go.collect fourCedulas
       (take 3
          (concat (map Go.sends
                     (Go.workers 2 (Go.getDefaultConfig 2) firstBrowserDown
                        fourCedulas)))))
  /\ Go.collect fourCedulas
       (take 3
          (concat (map Go.sends
                     (Go.workers 2 (Go.getDefaultConfig 2) firstBrowserDown
                        fourCedulas)))) !! 3%nat
     = Some Go.zeroResult.
Proof.
  split; [|vm_compute; reflexivity].
  eexists _, 3%nat. split; [apply Interleaving_concat|].
  split; [vm_compute; lia | reflexivity].
Qed.



(** ** The task pool of [js/main.js] *)

Section Assign.

Implicit Types (l : list (option Js.Result)) (r : Js.Result).

Lemma assign_lookup_eq l r : forall i, PoolJs.assign l i r !! i = Some (Some r).
Proof.
  intros i. revert l. induction i as [|i IH]; intros [|x l]; simpl; auto.
Qed.

Lemma assign_lookup_ne l r i : forall j x,
  j <> i -> l !! j = Some x -> PoolJs.assign l i r !! j = Some x.
Proof.
  revert l. induction i as [|i IH]; intros [|y l] j x Hne Hj;
    try discriminate; destruct j as [|j]; simpl in *; try congruence.
  apply IH; [congruence | exact Hj].
Qed.

Lemma assign_lookup_inv l r i : forall j x,
  PoolJs.assign l i r !! j = Some (Some x) ->
  j = i \/ l !! j = Some (Some x).
Proof.
  revert l. induction i as [|i IH]; intros [|y l] j x Hj;
    destruct j as [|j]; simpl in *; auto; try discriminate.
  - destruct (IH [] j x Hj) as [->|H]; [now left | discriminate].
  - destruct (IH l j x Hj) as [->|H]; [now left | now right].
Qed.

Lemma assign_length l r : forall i,
  List.length (PoolJs.assign l i r) = Nat.max (List.length l) (S i).
Proof.
  intros i. revert l.
  induction i as [|i IH]; intros [|x l]; simpl; rewrite ?IH; simpl; lia.
Qed.

End Assign.

Lemma filter_ne_length (l : list nat) i :
  NoDup l -> i ∈ l ->
  List.length (filter (fun j => j <> i) l) = pred (List.length l).
Proof.
  induction l as [|x l IH]; intros Hnd Hin.
  - now apply elem_of_nil in Hin.
  - apply NoDup_cons in Hnd as [Hx Hnd]. destruct (decide (x = i)) as [->|Hne].
    + rewrite filter_cons_False by auto. simpl.
      clear IH Hin. induction l as [|y l IHl]; [reflexivity|].
      apply not_elem_of_cons in Hx as [Hy Hx].
      apply NoDup_cons in Hnd as [_ Hnd].
      rewrite filter_cons_True by auto. simpl. f_equal. now apply IHl.
    + rewrite filter_cons_True by auto. simpl.
      apply elem_of_cons in Hin as [->|Hin]; [congruence|].
      rewrite IH by assumption. destruct l; [now apply elem_of_nil in Hin|].
      reflexivity.
Qed.

Section PoolInvariant.

Variable tasks : list PoolJs.Settled.
Variable limit : Z.

(** While the promise is pending: the tasks below [taskIndex] are started,
    those in [inFlight] are running, the others are fulfilled and their
    results stored; [settled] collects the tasks settled so far. *)
Record Pending (settled : list nat) (st : PoolJs.Pool) : Prop := {
  pending_index : (PoolJs.taskIndex st <= List.length tasks)%nat;
  pending_nodup : NoDup (PoolJs.inFlight st);
  pending_flight :
    forall i, i ∈ PoolJs.inFlight st -> (i < PoolJs.taskIndex st)%nat;
  pending_running : PoolJs.running st = List.length (PoolJs.inFlight st);
  pending_length :
    (List.length (PoolJs.results st) <= PoolJs.taskIndex st)%nat;
  pending_stored :
    forall i, (i < PoolJs.taskIndex st)%nat -> i ∉ PoolJs.inFlight st ->
      exists r, tasks !! i = Some (PoolJs.Fulfilled r)
                /\ PoolJs.results st !! i = Some (Some r);
  pending_settled :
    forall i x, PoolJs.results st !! i = Some (Some x) -> i ∈ settled
}.

(** A resolved promise carries one result per task, each task settled. *)
Definition Full (settled : list nat) (rs : list (option Js.Result)) : Prop :=
  List.length rs = List.length tasks
  /\ forall i, (i < List.length tasks)%nat ->
       i ∈ settled
       /\ exists r, tasks !! i = Some (PoolJs.Fulfilled r)
                    /\ rs !! i = Some (Some r).

Definition Good (settled : list nat) (st : PoolJs.Pool) : Prop :=
  match PoolJs.promise st with
  | None => Pending settled st
  | Some (PoolJs.Resolved rs) => Full settled rs
  | Some (PoolJs.Rejected e) =>
      exists i, tasks !! i = Some (PoolJs.RejectedWith e)
  end.

(** With a positive limit a pending pool always has a task running. *)
Definition Live (st : PoolJs.Pool) : Prop :=
  PoolJs.promise st = None -> 1 <= limit -> PoolJs.inFlight st <> [].

Lemma Pending_weaken settled settled' st :
  (forall i, i ∈ settled -> i ∈ settled') ->
  Pending settled st -> Pending settled' st.
Proof. intros Hsub [H1 H2 H3 H4 H5 H6 H7]. split; eauto. Qed.

Lemma startTasks_pending settled fuel : forall st,
  Pending settled st -> PoolJs.promise st = None ->
  Pending settled (PoolJs.startTasks (List.length tasks) limit fuel st)
  /\ PoolJs.promise (PoolJs.startTasks (List.length tasks) limit fuel st)
     = None.
Proof.
  induction fuel as [|fuel IH]; intros st Hp Hnone; [now split|].
  cbn [PoolJs.startTasks].
  destruct ((Z.of_nat (PoolJs.running st) <? limit)%Z
            && Nat.ltb (PoolJs.taskIndex st) (List.length tasks)) eqn:E;
    [|now split].
  apply andb_true_iff in E as [_ Hlt]. apply Nat.ltb_lt in Hlt.
  destruct Hp as [H1 H2 H3 H4 H5 H6 H7].
  apply IH; [|exact Hnone]. split; cbn.
  - lia.
  - apply NoDup_cons. split; [|exact H2].
    intros Hin. apply H3 in Hin. lia.
  - intros i Hi. apply elem_of_cons in Hi as [->|Hi]; [lia|].
    apply H3 in Hi. lia.
  - now rewrite H4.
  - lia.
  - intros i Hi Hnot. apply not_elem_of_cons in Hnot as [Hne Hnot].
    apply H6; [lia | exact Hnot].
  - exact H7.
Qed.

Lemma startTasks_flying fuel : forall st,
  PoolJs.inFlight st <> [] ->
  PoolJs.inFlight (PoolJs.startTasks (List.length tasks) limit fuel st) <> [].
Proof.
  induction fuel as [|fuel IH]; intros st Hne; [exact Hne|].
  cbn [PoolJs.startTasks].
  destruct ((Z.of_nat (PoolJs.running st) <? limit)%Z
            && Nat.ltb (PoolJs.taskIndex st) (List.length tasks));
    [|exact Hne].
  apply IH. cbn. discriminate.
Qed.

Lemma runTask_good settled st :
  Pending settled st -> PoolJs.promise st = None ->
  Good settled (PoolJs.runTask (List.length tasks) limit st)
  /\ Live (PoolJs.runTask (List.length tasks) limit st).
Proof.
  intros Hp Hnone. unfold PoolJs.runTask.
  destruct (Nat.leb (List.length tasks) (PoolJs.taskIndex st)
            && Nat.eqb (PoolJs.running st) 0) eqn:E.
  - apply andb_true_iff in E as [Hle Hrun].
    apply Nat.leb_le in Hle. apply Nat.eqb_eq in Hrun.
    destruct Hp as [H1 H2 H3 H4 H5 H6 H7].
    assert (Hfl : PoolJs.inFlight st = []).
    { destruct (PoolJs.inFlight st); [reflexivity|]. simpl in H4. lia. }
    unfold PoolJs.settle. rewrite Hnone. split.
    + unfold Good. cbn. split.
      * apply Nat.le_antisymm; [lia|].
        destruct (List.length tasks) as [|m] eqn:Em; [lia|].
        destruct (H6 m) as (r & _ & Hr);
          [lia|rewrite Hfl; apply not_elem_of_nil|].
        apply lookup_lt_Some in Hr. lia.
      * intros i Hi.
        destruct (H6 i) as (r & Ht & Hr);
          [lia|rewrite Hfl; apply not_elem_of_nil|].
        split; [now apply (H7 i r) | eauto].
    + intros Hpr. discriminate.
  - destruct (startTasks_pending settled
                (List.length tasks - PoolJs.taskIndex st) st Hp Hnone)
      as [Hp' Hnone'].
    split; [unfold Good; now rewrite Hnone'|].
    intros _ Hlim.
    destruct (PoolJs.inFlight st) as [|i0 fl] eqn:Hfl.
    + destruct Hp as [H1 H2 H3 H4 H5 H6 H7]. rewrite Hfl in H4. simpl in H4.
      rewrite H4 in E. simpl in E. rewrite andb_true_r in E.
      apply Nat.leb_gt in E.
      destruct (List.length tasks - PoolJs.taskIndex st)%nat as [|fuel] eqn:Ef;
        [lia|].
      cbn [PoolJs.startTasks]. rewrite H4.
      assert ((Z.of_nat 0 <? limit)%Z = true) as -> by (apply Z.ltb_lt; lia).
      assert (Nat.ltb (PoolJs.taskIndex st) (List.length tasks) = true) as ->
        by (apply Nat.ltb_lt; lia).
      cbn [andb]. apply startTasks_flying. cbn. discriminate.
    + apply startTasks_flying. rewrite Hfl. discriminate.
Qed.

Lemma taskSettles_good settled st i :
  Pending settled st -> PoolJs.promise st = None -> Live st ->
  Good (i :: settled) (PoolJs.taskSettles tasks limit st i)
  /\ Live (PoolJs.taskSettles tasks limit st i).
Proof.
  intros Hp Hnone Hlive.
  assert (Hweak : Pending (i :: settled) st).
  { apply (Pending_weaken settled); [|exact Hp].
    intros j Hj. now apply list_elem_of_further. }
  unfold PoolJs.taskSettles. case_bool_decide as Hin.
  2:{ split; [unfold Good; now rewrite Hnone | exact Hlive]. }
  destruct (tasks !! i) as [[r|e]|] eqn:Ht.
  - apply runTask_good; [|exact Hnone].
    destruct Hp as [H1 H2 H3 H4 H5 H6 H7]. split; cbn.
    + exact H1.
    + now apply NoDup_filter.
    + intros j Hj. apply list_elem_of_filter in Hj as [_ Hj]. now apply H3.
    + rewrite filter_ne_length by assumption. now rewrite H4.
    + rewrite assign_length. apply H3 in Hin. lia.
    + intros j Hj Hnot. destruct (decide (j = i)) as [->|Hne].
      * exists r. split; [exact Ht | apply assign_lookup_eq].
      * destruct (H6 j Hj) as (r' & Ht' & Hr').
        { intros Hj'. apply Hnot. apply list_elem_of_filter. now split. }
        exists r'. split; [exact Ht'|]. now apply assign_lookup_ne.
    + intros j x Hj. apply assign_lookup_inv in Hj as [->|Hj].
      * apply list_elem_of_here.
      * apply list_elem_of_further. now apply (H7 j x).
  - unfold PoolJs.settle. cbn. rewrite Hnone. split.
    + unfold Good. cbn. eauto.
    + intros Hpr. discriminate.
  - split; [unfold Good; now rewrite Hnone | exact Hlive].
Qed.

Lemma Good_weaken settled settled' st :
  (forall i, i ∈ settled -> i ∈ settled') ->
  Good settled st -> Good settled' st.
Proof.
  intros Hsub. unfold Good. destruct (PoolJs.promise st) as [[rs|e]|].
  - intros [Hlen Hall]. split; [exact Hlen|].
    intros i Hi. destruct (Hall i Hi) as [Hs Hr]. split; auto.
  - auto.
  - now apply Pending_weaken.
Qed.

Lemma settleInOrder_good order : forall settled st,
  Good settled st -> Live st ->
  Good (order ++ settled) (PoolJs.settleInOrder tasks limit st order)
  /\ Live (PoolJs.settleInOrder tasks limit st order).
Proof.
  induction order as [|i order IH]; intros settled st Hg Hl.
  - simpl. destruct (PoolJs.promise st); now split.
  - cbn [PoolJs.settleInOrder].
    destruct (PoolJs.promise st) as [s|] eqn:Hpr.
    + split; [|exact Hl].
      apply (Good_weaken settled); [|exact Hg].
      intros j Hj. apply elem_of_app. now right.
    + unfold Good in Hg. rewrite Hpr in Hg.
      destruct (taskSettles_good settled st i Hg Hpr Hl) as [Hg' Hl'].
      destruct (IH (i :: settled) _ Hg' Hl') as [Hg'' Hl''].
      split; [|exact Hl''].
      apply (Good_weaken (order ++ i :: settled)); [|exact Hg''].
      intros j Hj. apply elem_of_app in Hj as [Hj|Hj].
      * apply elem_of_app. left. now apply list_elem_of_further.
      * apply elem_of_cons in Hj as [->|Hj].
        -- apply elem_of_app. left. apply list_elem_of_here.
        -- apply elem_of_app. now right.
Qed.

Lemma limitConcurrency_good order :
  Good order (PoolJs.limitConcurrency tasks limit order)
  /\ Live (PoolJs.limitConcurrency tasks limit order).
Proof.
  unfold PoolJs.limitConcurrency.
  destruct (runTask_good [] (PoolJs.mkPool [] O O [] None)) as [Hg Hl].
  - split; cbn;
      first [ lia
            | apply NoDup_nil_2
            | intros i Hi; now apply elem_of_nil in Hi
            | intros i Hi; lia
            | intros i x Hi; discriminate ].
  - reflexivity.
  - destruct (settleInOrder_good order [] _ Hg Hl) as [Hg' Hl'].
    split; [|exact Hl']. now rewrite app_nil_r in Hg'.
Qed.

End PoolInvariant.

(** ** The global deadline of [js/main.js] *)

Lemma pool_attempt_cedula c p : Js.cedula (PoolJs.attempt c p) = c.
Proof.
  unfold PoolJs.attempt.
  repeat match goal with
         | |- context [match ?x with _ => _ end] => destruct x
         end; reflexivity.
Qed.

Lemma pool_processCedula_cedula c p r :
  PoolJs.processCedula c p = PoolJs.Fulfilled r -> Js.cedula r = c.
Proof.
  unfold PoolJs.processCedula.
  destruct (PoolJs.newPageErr p); [discriminate|].
  destruct (PoolJs.interceptionErr p); [discriminate|].
  destruct (PoolJs.closeErr p); [discriminate|].
  intros H. injection H as <-. apply pool_attempt_cedula.
Qed.

Lemma tasksOf_lookup cedulas pages i c :
  cedulas !! i = Some c ->
  PoolJs.tasksOf cedulas pages !! i = Some (PoolJs.processCedula c (pages i)).
Proof. intros H. unfold PoolJs.tasksOf. now rewrite list_lookup_imap, H. Qed.

Lemma tasksOf_length cedulas pages :
  List.length (PoolJs.tasksOf cedulas pages) = List.length cedulas.
Proof. apply length_imap. Qed.

(** The try block of [scrapeDianCedulas]: what it is about to return. *)
Definition poolReturn (host : PoolJs.Host) (st : PoolJs.Pool)
  : option (list (option Js.Result)) :=
  match PoolJs.promise st with
  | Some (PoolJs.Resolved resultados) =>
      match PoolJs.csvErr host, PoolJs.jsonErr host with
      | None, None => Some resultados
      | _, _ => None
      end
  | _ => None
  end.

(** The value returned once the two guards of [scrapeDianCedulas] are
    passed and the browser is launched. *)
Lemma pool_value_launched cedulas apiKey limit balanceReply host pages order :
  PoolJs.launched
    (PoolJs.scrapeDianCedulas cedulas apiKey limit balanceReply host pages
       order)
  = true ->
  PoolJs.launchErr host = None ->
  PoolJs.value
    (PoolJs.scrapeDianCedulas cedulas apiKey limit balanceReply host pages
       order)
  = match PoolJs.browserCloseErr host with
    | Some _ => None
    | None =>
        poolReturn host
          (PoolJs.limitConcurrency (PoolJs.tasksOf cedulas pages) limit order)
    end.
Proof.
  unfold PoolJs.scrapeDianCedulas, poolReturn.
  destruct (negb (Js.truthy apiKey)); [discriminate|].
  destruct (PoolJs.checkBalance balanceReply) as [balance|]; [|discriminate].
  destruct (Js.leZero balance); [discriminate|].
  intros _ ->.
  destruct (PoolJs.browserCloseErr host); [reflexivity|].
  destruct (PoolJs.promise
              (PoolJs.limitConcurrency (PoolJs.tasksOf cedulas pages) limit
                 order)) as [[rs|e]|]; reflexivity.
Qed.

Lemma pool_value_Some cedulas apiKey limit balanceReply host pages order rs :
  PoolJs.value
    (PoolJs.scrapeDianCedulas cedulas apiKey limit balanceReply host pages
       order)
  = Some rs ->
  PoolJs.promise
    (PoolJs.limitConcurrency (PoolJs.tasksOf cedulas pages) limit order)
  = Some (PoolJs.Resolved rs).
Proof.
  unfold PoolJs.scrapeDianCedulas.
  destruct (negb (Js.truthy apiKey)); [discriminate|].
  destruct (PoolJs.checkBalance balanceReply) as [balance|]; [|discriminate].
  destruct (Js.leZero balance); [discriminate|].
  destruct (PoolJs.launchErr host); [discriminate|].
  destruct (PoolJs.browserCloseErr host); [discriminate|].
  destruct (PoolJs.promise
              (PoolJs.limitConcurrency (PoolJs.tasksOf cedulas pages) limit
                 order)) as [[rs'|e]|]; cbn; try discriminate.
  destruct (PoolJs.csvErr host); [discriminate|].
  destruct (PoolJs.jsonErr host); [discriminate|]. congruence.
Qed.

(** The call rejects only with the error of [puppeteer.launch] or of
    [browser.close()], and then returns nothing. *)
Lemma pool_thrown cedulas apiKey limit balanceReply host pages order e :
  PoolJs.thrown
    (PoolJs.scrapeDianCedulas cedulas apiKey limit balanceReply host pages
       order)
  = Some e ->
  PoolJs.value
    (PoolJs.scrapeDianCedulas cedulas apiKey limit balanceReply host pages
       order)
  = None
  /\ (PoolJs.launchErr host = Some e \/ PoolJs.browserCloseErr host = Some e).
Proof.
  unfold PoolJs.scrapeDianCedulas.
  destruct (negb (Js.truthy apiKey)); [discriminate|].
  destruct (PoolJs.checkBalance balanceReply) as [balance|]; [|discriminate].
  destruct (Js.leZero balance); [discriminate|].
  destruct (PoolJs.launchErr host) as [e'|].
  - cbn. intros H. split; [reflexivity | left; exact H].
  - destruct (PoolJs.browserCloseErr host) as [e'|]; [|discriminate].
    cbn. intros H. split; [reflexivity | right; exact H].
Qed.

(** A host on which the browser starts and closes and both files are
    written. *)
Definition quietHost : PoolJs.Host := PoolJs.mkHost None None None None.

(** A host whose disk is full when the results are written. *)
Definition fullDisk : PoolJs.Host :=
  PoolJs.mkHost None (Some "ENOSPC: no space left on device, write") None None.

(** A page of [js/main.js] without captcha that shows the registry data. *)
Definition plainPoolPage : PoolJs.PageRun :=
  {| PoolJs.newPageErr := None;
     PoolJs.interceptionErr := None;
     PoolJs.openErr := None;
     PoolJs.siteKey := Js.Null;
     PoolJs.solver := Js.mkSolver (Js.Throws "" "") (fun _ => Js.Throws "" "");
     PoolJs.injectErr := None;
     PoolJs.clickErr := None;
     PoolJs.resultsVisible := true;
     PoolJs.extractErr := None;
     PoolJs.data :=
       Some (Js.mkFields "PEREZ" "GOMEZ" "ANA" "N/A" "REGISTRO ACTIVO");
     PoolJs.closeErr := None |}.

(** C6, as stated, fails in [js/main.js]: two identifiers, both started,
    the first task settles and the deadline fires while the second is still
    running; the call returns [undefined], with no entry for either. *)
Lemma deadline_discards_every_result :
  PoolJs.scrapeDianCedulas ["1047473418"; "73089347"]
    (Js.Str "6b839fc1d6dd5a9a77261a4fdc2aeb1f") 50
    (PoolJs.BalanceParsed (Js.Fin (25 # 2))) quietHost
    (fun _ => plainPoolPage) [0%nat]
  = PoolJs.mkRun None true 2 None.
Proof. vm_compute. reflexivity. Qed.

(** C6 (amended).  [scrapeDianCedulas] of [js/main.js] rejects to its
    caller only with the error of [puppeteer.launch] or of
    [browser.close()], never with the error of an identifier, and it then
    returns nothing.  Otherwise it returns either a full sequence or
    [undefined].  If it returns a sequence, that sequence has one entry
    per input identifier, at the identifier's input position and carrying
    that identifier, every task settled before the deadline, and both
    results files were written.  If some task has not settled when the
    deadline fires, or writing a results file throws, it returns
    [undefined]: nothing is recorded for any identifier.  Past its two
    guards, when the browser starts and closes, both files are written,
    the limit is positive, every task fulfils and none is still running
    at the deadline, it does return a sequence. *)
Theorem pool_run_returns_all_results_or_none :
  forall (cedulas : list string) (apiKey : Js.Val) (limit : Z)
         (balanceReply : PoolJs.BalanceReply) (host : PoolJs.Host)
         (pages : nat -> PoolJs.PageRun) (beforeDeadline : list nat),
    let run :=
      PoolJs.scrapeDianCedulas cedulas apiKey limit balanceReply host pages
        beforeDeadline in
    (forall e,
        PoolJs.thrown run = Some e ->
        PoolJs.value run = None
        /\ (PoolJs.launchErr host = Some e
            \/ PoolJs.browserCloseErr host = Some e))
    /\ (forall resultados,
          PoolJs.value run = Some resultados ->
          List.length resultados = List.length cedulas
          /\ PoolJs.thrown run = None
          /\ PoolJs.csvErr host = None /\ PoolJs.jsonErr host = None
          /\ forall i c,
               cedulas !! i = Some c ->
               i ∈ beforeDeadline
               /\ exists r,
                    resultados !! i = Some (Some r)
                    /\ PoolJs.processCedula c (pages i) = PoolJs.Fulfilled r
                    /\ Js.cedula r = c)
    /\ ((exists i, (i < List.length cedulas)%nat /\ i ∉ beforeDeadline) ->
        PoolJs.value run = None)
    /\ (PoolJs.launched run = true ->
        PoolJs.launchErr host = None ->
        PoolJs.csvErr host = None ->
        PoolJs.jsonErr host = None ->
        PoolJs.browserCloseErr host = None ->
        1 <= limit ->
        (forall i c, cedulas !! i = Some c ->
                     exists r, PoolJs.processCedula c (pages i)
                               = PoolJs.Fulfilled r) ->
        PoolJs.inFlight
          (PoolJs.limitConcurrency (PoolJs.tasksOf cedulas pages) limit
             beforeDeadline) = [] ->
        exists resultados,
          PoolJs.value run = Some resultados /\ PoolJs.thrown run = None).
Proof.
  intros cedulas apiKey limit balanceReply host pages order run.
  destruct (limitConcurrency_good (PoolJs.tasksOf cedulas pages) limit order)
    as [Hgood Hlive].
  assert (Hfull : forall resultados,
             PoolJs.value run = Some resultados ->
             List.length resultados = List.length cedulas
             /\ forall i c,
                  cedulas !! i = Some c ->
                  i ∈ order
                  /\ exists r,
                       resultados !! i = Some (Some r)
                       /\ PoolJs.processCedula c (pages i) = PoolJs.Fulfilled r
                       /\ Js.cedula r = c).
  { intros rs Hv. apply pool_value_Some in Hv.
    unfold Good in Hgood. rewrite Hv in Hgood. destruct Hgood as [Hlen Hall].
    rewrite tasksOf_length in Hlen, Hall. split; [exact Hlen|].
    intros i c Hi.
    destruct (Hall i) as (Hs & r & Ht & Hr);
      [now apply lookup_lt_Some with c|].
    rewrite (tasksOf_lookup _ _ _ _ Hi) in Ht. injection Ht as Ht.
    split; [exact Hs|]. exists r. split; [exact Hr|]. split; [exact Ht|].
    now apply (pool_processCedula_cedula c (pages i)). }
  split; [intros e; apply pool_thrown|]. split; [|split].
  - intros rs Hv. destruct (Hfull rs Hv) as [Hlen Hall].
    split; [exact Hlen|].
    assert (Hrest : PoolJs.thrown run = None
                    /\ PoolJs.csvErr host = None
                    /\ PoolJs.jsonErr host = None).
    { subst run. revert Hv. clear. unfold PoolJs.scrapeDianCedulas.
      destruct (negb (Js.truthy apiKey)); [discriminate|].
      destruct (PoolJs.checkBalance balanceReply) as [balance|];
        [|discriminate].
      destruct (Js.leZero balance); [discriminate|].
      destruct (PoolJs.launchErr host); [discriminate|].
      destruct (PoolJs.browserCloseErr host); [discriminate|].
      destruct (PoolJs.promise _) as [[rs'|e]|]; cbn; try discriminate.
      destruct (PoolJs.csvErr host); [discriminate|].
      destruct (PoolJs.jsonErr host); [discriminate|]. auto. }
    destruct Hrest as (Ht & Hcsv & Hjson). auto.
  - intros (i & Hi & Hnot).
    destruct (PoolJs.value run) as [rs|] eqn:Hv; [|reflexivity].
    exfalso. destruct (Hfull rs eq_refl) as [_ Hall].
    destruct (lookup_lt_is_Some_2 cedulas i Hi) as [c Hc].
    now destruct (Hall i c Hc) as [Hin _].
  - intros Hlaunched Hlaunch Hcsv Hjson Hclose Hlim Hfulfil Hidle.
    assert (Hthrown : PoolJs.thrown run = None).
    { destruct (PoolJs.thrown run) as [e|] eqn:Ht; [|reflexivity].
      apply pool_thrown in Ht as [_ [Ht|Ht]]; congruence. }
    subst run.
    rewrite pool_value_launched by assumption.
    rewrite Hclose. unfold poolReturn. rewrite Hcsv, Hjson.
    destruct (PoolJs.promise
                (PoolJs.limitConcurrency (PoolJs.tasksOf cedulas pages) limit
                   order)) as [[rs|e]|] eqn:Hpr.
    + eauto.
    + exfalso. unfold Good in Hgood. rewrite Hpr in Hgood.
      destruct Hgood as [i Hi].
      destruct (cedulas !! i) as [c|] eqn:Hc.
      * rewrite (tasksOf_lookup _ _ _ _ Hc) in Hi.
        destruct (Hfulfil i c Hc) as [r Hr]. congruence.
      * apply lookup_ge_None in Hc. apply lookup_lt_Some in Hi.
        rewrite tasksOf_length in Hi. lia.
    + exfalso. now apply (Hlive Hpr Hlim).
Qed.

Lemma pool_run_returns_all_results_or_none_witness :
  PoolJs.value
    (PoolJs.scrapeDianCedulas ["1047473418"; "73089347"]
       (Js.Str "6b839fc1d6dd5a9a77261a4fdc2aeb1f") 50
       (PoolJs.BalanceParsed (Js.Fin (25 # 2))) quietHost
       (fun _ => plainPoolPage) [0%nat])
  = None
  /\ exists resultados,
       PoolJs.value
         (PoolJs.scrapeDianCedulas ["1047473418"; "73089347"]
            (Js.Str "6b839fc1d6dd5a9a77261a4fdc2aeb1f") 1
            (PoolJs.BalanceParsed (Js.Fin (25 # 2))) quietHost
            (fun _ => plainPoolPage) [0%nat; 1%nat])
       = Some resultados
       /\ PoolJs.thrown
            (PoolJs.scrapeDianCedulas ["1047473418"; "73089347"]
               (Js.Str "6b839fc1d6dd5a9a77261a4fdc2aeb1f") 1
               (PoolJs.BalanceParsed (Js.Fin (25 # 2))) quietHost
               (fun _ => plainPoolPage) [0%nat; 1%nat])
          = None.
Proof.
  split.
  - apply (pool_run_returns_all_results_or_none
             ["1047473418"; "73089347"]
             (Js.Str "6b839fc1d6dd5a9a77261a4fdc2aeb1f") 50
             (PoolJs.BalanceParsed (Js.Fin (25 # 2))) quietHost
             (fun _ => plainPoolPage) [0%nat]).
    exists 1%nat. split; [simpl; lia|].
    intros H. apply elem_of_cons in H as [H|H]; [discriminate|].
    now apply elem_of_nil in H.
  - apply (pool_run_returns_all_results_or_none
             ["1047473418"; "73089347"]
             (Js.Str "6b839fc1d6dd5a9a77261a4fdc2aeb1f") 1
             (PoolJs.BalanceParsed (Js.Fin (25 # 2))) quietHost
             (fun _ => plainPoolPage) [0%nat; 1%nat]).
    + reflexivity.
    + reflexivity.
    + reflexivity.
    + reflexivity.
    + reflexivity.
    + lia.
    + intros i c _. eexists. reflexivity.
    + reflexivity.
Defined.

(** With every task fulfilled in time, a results file that cannot be
    written still makes the call return [undefined]. *)
Example unwritable_results_file_discards_the_run :
  PoolJs.scrapeDianCedulas ["1047473418"; "73089347"]
    (Js.Str "6b839fc1d6dd5a9a77261a4fdc2aeb1f") 50
    (PoolJs.BalanceParsed (Js.Fin (25 # 2))) fullDisk
    (fun _ => plainPoolPage) [0%nat; 1%nat]
  = PoolJs.mkRun None true 2 None.
Proof. vm_compute. reflexivity. Qed.

(** ** Reading the identifiers *)

Example TrimSpace_example :
  GoStrings.TrimSpace (String (ascii_of_N 9) " 1047 473  ") = "1047 473"
  /\ Js.trim "  42207035 " = "42207035"
  /\ GoStrings.TrimSpace "   " = "".
Proof. repeat split. Qed.

(** The first cell of every row that has one. *)
Definition firstColumn (rows : list (list string)) : list string :=
  omap head rows.

Lemma go_readRows rows : forall i acc,
  Go.readRows (S i) rows acc
  = (acc ++ filter (fun s => s <> "")
              (map GoStrings.TrimSpace (firstColumn rows)))%list.
Proof.
  induction rows as [|row rest IH]; intros i acc.
  - simpl. now rewrite app_nil_r.
  - cbn [Go.readRows Nat.eqb]. destruct row as [|cell cells].
    + apply IH.
    + change (firstColumn ((cell :: cells) :: rest))
        with (cell :: firstColumn rest).
      cbn [map]. destruct (String.eqb (GoStrings.TrimSpace cell) "") eqn:E.
      * apply String.eqb_eq in E. rewrite filter_cons_False by auto.
        apply IH.
      * apply String.eqb_neq in E. rewrite filter_cons_True by auto.
        cbn [negb]. rewrite IH, <- app_assoc. reflexivity.
Qed.

(** The Go reader does what C8 says: the first row is skipped, the first
    cell of each later row is trimmed, and empty values are dropped. *)
Lemma go_reader_skips_header rows :
  Go.readCedulasFromExcel (Go.Sheet rows)
  = (Some (filter (fun s => s <> "")
             (map GoStrings.TrimSpace (firstColumn (tail rows)))),
     None).
Proof.
  unfold Go.readCedulasFromExcel. destruct rows as [|header rest];
    [reflexivity|].
  cbn [Go.readRows Nat.eqb tail]. now rewrite go_readRows.
Qed.

(** The reader of [js/main.js] trims the first cell of every row and drops
    the empty values, the first row included. *)
Lemma js_reader_keeps_every_row rows :
  PoolJs.readCedulasFromExcel rows
  = filter (fun s => s <> "")
      (map (fun row => Js.trim (PoolJs.cellString (PoolJs.firstCell row)))
         rows).
Proof. reflexivity. Qed.

(** C8 on a sheet with a header row: the Go reader returns the two
    identifiers, the reader of [js/main.js] returns the header text as a
    first identifier. *)
Theorem js_reader_returns_header_as_identifier :
  Go.readCedulasFromExcel
    (Go.Sheet [["Cedula"]; [" 1047473418 "]; [""]; ["73089347"]])
  = (Some ["1047473418"; "73089347"], None)
  /\ PoolJs.readCedulasFromExcel
       [[PoolJs.Text "Cedula"]; [PoolJs.Text " 1047473418 "]; [PoolJs.Blank];
        [PoolJs.Whole 73089347 I]]
     = ["Cedula"; "1047473418"; "73089347"].
Proof. split; vm_compute; reflexivity. Qed.

(** ** The balance guard *)

(** C10. When the balance check reports no funds, [scrapeDianCedulas]
    returns [undefined] without launching the browser and without starting
    any identifier: in [main.js] when the balance is the string "0", in
    [js/main.js] when the balance is [null] or a number that is at most
    0. *)
Theorem no_funds_returns_before_launch :
  (forall (cedulas : list string) (apiKey : Js.Val) (takeScreenshots : bool)
          (balanceReply : Js.AxiosReply) (pages : nat -> MainJs.PageRun),
      MainJs.checkBalance balanceReply = Js.Str "0" ->
      MainJs.scrapeDianCedulas cedulas apiKey takeScreenshots balanceReply pages
      = MainJs.mkRun None false [])
  /\ (forall (cedulas : list string) (apiKey : Js.Val) (limit : Z)
             (balanceReply : PoolJs.BalanceReply) (host : PoolJs.Host)
             (pages : nat -> PoolJs.PageRun) (beforeDeadline : list nat),
        (PoolJs.checkBalance balanceReply = None
         \/ exists balance,
              PoolJs.checkBalance balanceReply = Some balance
              /\ Js.leZero balance = true) ->
        PoolJs.scrapeDianCedulas cedulas apiKey limit balanceReply host pages
          beforeDeadline
        = PoolJs.mkRun None false O None).
Proof.
  split.
  - intros cedulas apiKey shots reply pages Hb.
    unfold MainJs.scrapeDianCedulas. rewrite Hb.
    now destruct (negb (Js.truthy apiKey)
                  || Js.isStr apiKey "YOUR_2CAPTCHA_API_KEY").
  - intros cedulas apiKey limit reply host pages order Hb.
    unfold PoolJs.scrapeDianCedulas.
    destruct (negb (Js.truthy apiKey)); [reflexivity|].
    destruct Hb as [->|(balance & -> & ->)]; reflexivity.
Qed.

Lemma no_funds_returns_before_launch_witness :
  MainJs.scrapeDianCedulas fourCedulas
    (Js.Str "6b839fc1d6dd5a9a77261a4fdc2aeb1f") false
    (Js.Data (Js.Num (Js.Fin 1)) (Js.Str "0")) (fun _ => plainPage)
  = MainJs.mkRun None false []
  /\ PoolJs.scrapeDianCedulas fourCedulas
       (Js.Str "6b839fc1d6dd5a9a77261a4fdc2aeb1f") 50
       (PoolJs.BalanceParsed (Js.Fin 0)) quietHost (fun _ => plainPoolPage)
       [0%nat; 1%nat; 2%nat; 3%nat]
     = PoolJs.mkRun None false O None.
Proof.
  destruct no_funds_returns_before_launch as [Hmain Hpool]. split.
  - apply Hmain. reflexivity.
  - apply Hpool. right. exists (Js.Fin 0). split; reflexivity.
Defined.

(** ** An end-to-end run *)

(** A page on which the captcha is shown and the service refuses the
    submission. *)
Definition submissionRefused : Go.PageRun :=
  {| Go.navigateErr := None;
     Go.captchaVisible := true;
     Go.screenshotErr := None;
     Go.captchaService :=
       Go.mkCaptchaService
         (Go.Body (Go.mkCaptchaResponse 0 "ERROR_NO_SLOT_AVAILABLE"))
         (fun _ => Go.TransportErr "");
     Go.typeCaptchaErr := None;
     Go.clickErr := None;
     Go.hasError := false;
     Go.errorMessage := "";
     Go.extractErr := None;
     Go.primerApellido := "";
     Go.segundoApellido := "";
     Go.primerNombre := "";
     Go.otrosNombres := "";
     Go.estado := "";
     Go.elapsed := "12.1s" |}.

(** One browser; the second identifier meets a refused captcha submission
    on its first attempt and the registry data on its second. *)
Definition secondNeedsRetry : Go.Env :=
  Go.mkEnv (fun _ => None)
           (fun _ k attempt =>
              match k, attempt with
              | 1%nat, 1 => submissionRefused
              | _, _ => registered
              end).

Definition twoRetries : Go.Config :=
  {| Go.APIKey := Go.twoCaptchaAPIKey;
     Go.Concurrency := 2;
     Go.BatchSize := 100;
     Go.MaxParallelBrowsers := 1;
     Go.UseGPU := true;
     Go.Timeouts := {| Go.Initial := 60 * Go.Second;
                       Go.DataExtraction := 30 * Go.Second;
                       Go.Captcha := 60 * Go.Second;
                       Go.RetryDelay := 5 * Go.Second;
                       Go.MaxRetries := 2 |};
     Go.ProxyList := [] |}.

Example three_identifiers_one_retry :
  map (fun r => (Go.Cedula r, Go.Estado r, Go.Attempts r))
    (Go.ProcessCedulasInOrder 1 twoRetries secondNeedsRetry
       ["100"; "200"; "300"])
  = [("100", "REGISTRO ACTIVO", 1); ("200", "REGISTRO ACTIVO", 2);
     ("300", "REGISTRO ACTIVO", 1)]
  /\ Go.pageRuns
       (Go.worker twoRetries secondNeedsRetry ["100"; "200"; "300"] 0)
     = [("100", 1); ("200", 1); ("200", 2); ("300", 1)].
Proof. split; vm_compute; reflexivity. Qed.

(** * Further properties of the code *)

(** ** Sharding in [ProcessCedulas] *)

Lemma shardOf_length cedulas per i :
  0 <= per ->
  Z.of_nat i * per < Z.of_nat (List.length cedulas) ->
  Z.of_nat (List.length (shardOf cedulas per i))
  = Z.min per (Z.of_nat (List.length cedulas) - Z.of_nat i * per).
Proof.
  intros Hper Hlt. unfold shardOf, Go.slice.
  rewrite length_take, length_drop.
  destruct (Z.of_nat (List.length cedulas) <? (Z.of_nat i + 1) * per)%Z eqn:E.
  - apply Z.ltb_lt in E. lia.
  - apply Z.ltb_ge in E. lia.
Qed.

Lemma shards_from_drop cedulas per m : forall i,
  0 <= per ->
  Z.of_nat (List.length cedulas) <= (Z.of_nat i + Z.of_nat m) * per ->
  concat (map (shardOf cedulas per) (seq i m))
  = drop (Z.to_nat (Z.of_nat i * per)) cedulas.
Proof.
  induction m as [|m IH]; intros i Hper Hcov.
  - simpl. symmetry. apply drop_ge. lia.
  - cbn [seq map concat]. rewrite IH by (try assumption; lia).
    replace (Z.of_nat (S i) * per) with ((Z.of_nat i + 1) * per) by lia.
    now apply shardOf_drop.
Qed.

(** The workers started from [i] on: worker [j] gets shard [j]; the loop
    stops early only when the input is used up. *)
Lemma startWorkers_shape cfg env cedulas per fuel : forall i,
  exists m,
    (m <= fuel)%nat
    /\ Go.startWorkers cfg env cedulas per fuel i
       = map (fun j => Go.worker cfg env (shardOf cedulas per j) j) (seq i m)
    /\ (forall j, (i <= j < i + m)%nat ->
                  Z.of_nat j * per < Z.of_nat (List.length cedulas))
    /\ ((m < fuel)%nat ->
        Z.of_nat (List.length cedulas) <= (Z.of_nat i + Z.of_nat m) * per).
Proof.
  induction fuel as [|fuel IH]; intros i.
  - exists O. repeat split; [lia | intros j Hj; lia | intros H; lia].
  - cbn [Go.startWorkers].
    destruct (Z.of_nat i * per <? Z.of_nat (List.length cedulas))%Z eqn:E.
    + apply Z.ltb_lt in E. destruct (IH (S i)) as (m & Hm & Heq & Hlt & Hstop).
      exists (S m). split; [lia|]. split; [|split].
      * cbn [seq map]. rewrite Heq. reflexivity.
      * intros j Hj. destruct (Nat.eq_dec j i) as [->|Hne]; [exact E|].
        apply Hlt. lia.
      * intros Hfuel. specialize (Hstop ltac:(lia)). lia.
    + apply Z.ltb_ge in E. exists O. split; [lia|]. split; [reflexivity|].
      split; [intros j Hj; lia | intros _; lia].
Qed.

(** X1. [ProcessCedulas] starts at most [optimalBrowsers] workers; worker
    [i] gets shard [i]; the shards, in worker order, make up the input, so
    every identifier belongs to exactly one worker; no started worker has
    an empty shard and none has more than [cedulasPerBrowser]
    identifiers. *)
Theorem shards_partition_the_input :
  forall (numCPU : Z) (cfg : Go.Config) (env : Go.Env)
         (cedulas : list string),
    1 <= numCPU ->
    let per := Go.cedulasPerBrowser numCPU cfg cedulas in
    let ws := Go.workers numCPU cfg env cedulas in
    Z.of_nat (List.length ws) <= Go.optimalBrowsers numCPU cfg
    /\ ws = map (fun i => Go.worker cfg env (shardOf cedulas per i) i)
                (seq 0 (List.length ws))
    /\ concat (map (shardOf cedulas per) (seq 0 (List.length ws))) = cedulas
    /\ (forall i, (i < List.length ws)%nat ->
          shardOf cedulas per i <> []
          /\ Z.of_nat (List.length (shardOf cedulas per i)) <= per).
Proof.
  intros numCPU cfg env cedulas Hcpu per ws.
  destruct (cedulasPerBrowser_covers cfg cedulas numCPU Hcpu) as [Hper Hcov].
  pose proof (optimalBrowsers_pos cfg numCPU Hcpu) as Ho.
  fold per in Hper, Hcov.
  destruct (startWorkers_shape cfg env cedulas per
              (Z.to_nat (Go.optimalBrowsers numCPU cfg)) O)
    as (m & Hm & Heq & Hlt & Hstop).
  assert (Hws : ws = map (fun i => Go.worker cfg env (shardOf cedulas per i) i)
                         (seq 0 m)) by exact Heq.
  assert (Hlen : List.length ws = m).
  { rewrite Hws, length_map. apply length_seq. }
  rewrite Hlen. split; [lia|]. split; [exact Hws|]. split.
  - rewrite shards_from_drop; [reflexivity | exact Hper |].
    destruct (Nat.eq_dec m (Z.to_nat (Go.optimalBrowsers numCPU cfg)))
      as [->|Hne].
    + rewrite Z2Nat.id by lia. lia.
    + apply Hstop. lia.
  - intros i Hi. specialize (Hlt i ltac:(lia)).
    pose proof (shardOf_length cedulas per i Hper Hlt) as Hl.
    assert (1 <= per) by nia.
    split; [|lia].
    intros Hnil. rewrite Hnil in Hl. simpl in Hl. lia.
Qed.

Lemma shards_partition_the_input_witness :
  concat (map (shardOf fourCedulas 2) (seq 0 2)) = fourCedulas.
Proof.
  exact (proj1 (proj2 (proj2 (shards_partition_the_input 2
                                (Go.getDefaultConfig 2) firstBrowserDown
                                fourCedulas ltac:(lia))))).
Defined.

(** ** Arrival order in [ProcessCedulas] *)

Lemma NoDup_fmap_eq {A B : Type} (f : A -> B) (l : list A) x y :
  NoDup (map f l) -> x ∈ l -> y ∈ l -> f x = f y -> x = y.
Proof.
  induction l as [|a l IH]; intros Hnd Hx Hy Hf.
  - now apply elem_of_nil in Hx.
  - simpl in Hnd. apply NoDup_cons in Hnd as [Ha Hnd].
    apply elem_of_cons in Hx as [->|Hx]; apply elem_of_cons in Hy as [->|Hy].
    + reflexivity.
    + exfalso. apply Ha. rewrite Hf. now apply (list_elem_of_fmap_2 f).
    + exfalso. apply Ha. rewrite <- Hf. now apply (list_elem_of_fmap_2 f).
    + now apply IH.
Qed.

(** X2. When no identifier is repeated (and [MaxRetries] is positive), the
    slice the collector builds from all the results does not depend on the
    order in which they arrive.  A slice returned by [ProcessCedulas], which
    does not wait for the collector, differs from it only in slots that
    still hold the zero value. *)
Theorem collector_result_independent_of_arrival_order :
  forall (numCPU : Z) (cfg : Go.Config) (env : Go.Env)
         (cedulas : list string),
    1 <= numCPU ->
    1 <= Go.MaxRetries (Go.Timeouts cfg) ->
    NoDup cedulas ->
    (forall arrivals arrivals',
        Go.Interleaving (map Go.sends (Go.workers numCPU cfg env cedulas))
          arrivals ->
        Go.Interleaving (map Go.sends (Go.workers numCPU cfg env cedulas))
          arrivals' ->
        Go.collect cedulas arrivals = Go.collect cedulas arrivals')
    /\ (forall results i,
          Go.ProcessCedulas numCPU cfg env cedulas results ->
          (i < List.length cedulas)%nat ->
          results !! i = Some Go.zeroResult
          \/ results !! i
             = Go.ProcessCedulasInOrder numCPU cfg env cedulas !! i).
Proof.
  intros numCPU cfg env cedulas Hcpu Hmax Hnd.
  assert (Hsent : forall arrivals,
             Go.Interleaving
               (map Go.sends (Go.workers numCPU cfg env cedulas)) arrivals ->
             map Go.Cedula arrivals ≡ₚ cedulas).
  { intros arrivals Hil. apply Interleaving_Permutation in Hil.
    rewrite <- Hil. now rewrite workers_Cedulas. }
  assert (Hsame : forall arr arr' r r',
             Go.Interleaving
               (map Go.sends (Go.workers numCPU cfg env cedulas)) arr ->
             Go.Interleaving
               (map Go.sends (Go.workers numCPU cfg env cedulas)) arr' ->
             r ∈ arr -> r' ∈ arr' -> Go.Cedula r = Go.Cedula r' -> r = r').
  { intros arr arr' r r' Hil Hil' Hr Hr' Hc.
    apply (NoDup_fmap_eq Go.Cedula arr); try assumption.
    - now rewrite (Hsent arr Hil).
    - apply Interleaving_Permutation in Hil, Hil'.
      rewrite <- Hil. now rewrite Hil'. }
  split.
  - intros arr arr' Hil Hil'. apply list_eq. intros i.
    destruct (cedulas !! i) as [c|] eqn:Hi.
    + destruct (collect_slot cedulas arr i c Hnd (Hsent arr Hil) Hi)
        as (r & -> & Hr & Hin).
      destruct (collect_slot cedulas arr' i c Hnd (Hsent arr' Hil') Hi)
        as (r' & -> & Hr' & Hin').
      f_equal. apply (Hsame arr arr'); congruence.
    + apply lookup_ge_None in Hi.
      rewrite !(proj2 (lookup_ge_None _ _)); [reflexivity | |];
        now rewrite collect_length.
  - intros results i (arr & n & Hil & _ & ->) Hi.
    destruct (lookup_lt_is_Some_2 cedulas i Hi) as [c Hc].
    destruct (Go.collect cedulas (take n arr) !! i) as [r|] eqn:Hr.
    + apply collect_slot_position in Hr as [->|[Hin Hpos]]; [now left|].
      right. apply take_elem in Hin.
      destruct (collect_slot cedulas _ i c Hnd
                  (Hsent _ (Interleaving_concat _)) Hc)
        as (r' & Hr' & Hc' & Hin').
      unfold Go.ProcessCedulasInOrder. rewrite Hr'. f_equal.
      apply (Hsame arr _ r r' Hil (Interleaving_concat _) Hin Hin').
      congruence.
    + apply lookup_ge_None in Hr. rewrite collect_length in Hr. lia.
Qed.

Lemma collector_result_independent_of_arrival_order_witness :
  Go.collect fourCedulas
    [fst (Go.processWithRetries (Go.getDefaultConfig 2)
            (fun _ => registered) "42207035");
     Go.startupFailure "1047473418" "exec: chrome: not found";
     fst (Go.processWithRetries (Go.getDefaultConfig 2)
            (fun _ => registered) "1047447085");
     Go.startupFailure "73089347" "exec: chrome: not found"]
  = Go.collect fourCedulas
      (concat (map Go.sends
                 (Go.workers 2 (Go.getDefaultConfig 2) firstBrowserDown
                    fourCedulas))).
Proof.
  apply (collector_result_independent_of_arrival_order 2
           (Go.getDefaultConfig 2) firstBrowserDown fourCedulas).
  - lia.
  - simpl. lia.
  - apply (bool_decide_unpack _). vm_compute. exact I.
  - eapply (Go.Interleaving_next _ 1%nat); [reflexivity|].
    eapply (Go.Interleaving_next _ 0%nat); [reflexivity|].
    eapply (Go.Interleaving_next _ 1%nat); [reflexivity|].
    eapply (Go.Interleaving_next _ 0%nat); [reflexivity|].
    apply Go.Interleaving_done. repeat constructor.
  - apply Interleaving_concat.
Defined.

(** ** Which failures the Go worker retries *)

Lemma isCaptchaError_Contains r :
  Go.isCaptchaError r = GoStrings.Contains (Go.Error r) "captcha".
Proof.
  rewrite isCaptchaError_spec. destruct (String.eqb (Go.Error r) "") eqn:E.
  - apply String.eqb_eq in E. rewrite E. reflexivity.
  - simpl. apply negb_involutive.
Qed.

Lemma searchAndExtract_retried c a p :
  Go.isCaptchaError (Go.searchAndExtract c a p)
  = match Go.clickErr p with
    | Some e => GoStrings.Contains e "captcha"
    | None =>
        if Go.hasError p
        then GoStrings.Contains (Go.errorMessage p) "captcha"
        else match Go.extractErr p with
             | Some e => GoStrings.Contains e "captcha"
             | None => false
             end
    end.
Proof.
  rewrite isCaptchaError_Contains. unfold Go.searchAndExtract.
  destruct (Go.clickErr p); [reflexivity|].
  destruct (Go.hasError p); [reflexivity|].
  destruct (Go.extractErr p); reflexivity.
Qed.

(** X3. Which results of [processCedula] make the worker try again.  A
    failure of the captcha stage (capturing the image, solving it, typing
    the text) always does, whatever the underlying message.  A failure of
    the first page block, of the search click or of the extraction does
    only if the driver's message contains "captcha", a site-reported error
    only if the site's text does, and a success never does. *)
Theorem retried_failures_characterised :
  forall (cedula : string) (p : Go.PageRun) (attempt : Z),
    let retried := Go.isCaptchaError (Go.processCedula cedula p attempt) in
    (forall e, Go.navigateErr p = Some e ->
               retried = GoStrings.Contains e "captcha")
    /\ (Go.navigateErr p = None -> Go.captchaVisible p = true ->
        (exists e, Go.screenshotErr p = Some e)
        \/ (exists e, fst (Go.solveCaptcha (Go.captchaService p)) = Go.Err e)
        \/ (exists e, Go.typeCaptchaErr p = Some e) ->
        retried = true)
    /\ (Go.navigateErr p = None ->
        Go.captchaVisible p = false
        \/ (Go.screenshotErr p = None
            /\ (exists text,
                   fst (Go.solveCaptcha (Go.captchaService p)) = Go.Ok text)
            /\ Go.typeCaptchaErr p = None) ->
        retried
        = match Go.clickErr p with
          | Some e => GoStrings.Contains e "captcha"
          | None =>
              if Go.hasError p
              then GoStrings.Contains (Go.errorMessage p) "captcha"
              else match Go.extractErr p with
                   | Some e => GoStrings.Contains e "captcha"
                   | None => false
                   end
          end).
Proof.
  intros cedula p attempt retried. subst retried. split; [|split].
  - intros e He. rewrite isCaptchaError_Contains.
    unfold Go.processCedula. rewrite He. reflexivity.
  - intros Hnav Hvis Hfail. rewrite isCaptchaError_Contains.
    unfold Go.processCedula. rewrite Hnav, Hvis.
    destruct (Go.screenshotErr p) as [e|]; [reflexivity|].
    destruct (fst (Go.solveCaptcha (Go.captchaService p))) as [text|e];
      [|reflexivity].
    destruct (Go.typeCaptchaErr p) as [e|]; [reflexivity|].
    destruct Hfail as [[e He]|[[e He]|[e He]]]; discriminate.
  - intros Hnav Hpass.
    assert (E : Go.processCedula cedula p attempt
                = Go.searchAndExtract cedula attempt p).
    { unfold Go.processCedula. rewrite Hnav.
      destruct Hpass as [->|(-> & (text & ->) & ->)]; [reflexivity|].
      now destruct (Go.captchaVisible p). }
    rewrite E. apply searchAndExtract_retried.
Qed.

(** A page whose site-side error text mentions the captcha. *)
Definition siteRejectsCaptcha : Go.PageRun :=
  {| Go.navigateErr := None;
     Go.captchaVisible := false;
     Go.screenshotErr := None;
     Go.captchaService :=
       Go.mkCaptchaService (Go.TransportErr "")
                           (fun _ => Go.TransportErr "");
     Go.typeCaptchaErr := None;
     Go.clickErr := None;
     Go.hasError := true;
     Go.errorMessage := "El captcha no es correcto";
     Go.extractErr := None;
     Go.primerApellido := "";
     Go.segundoApellido := "";
     Go.primerNombre := "";
     Go.otrosNombres := "";
     Go.estado := "";
     Go.elapsed := "15.3s" |}.

Lemma retried_failures_characterised_witness :
  Go.isCaptchaError (Go.processCedula "73089347" captchaFails 1) = true
  /\ Go.isCaptchaError (Go.processCedula "73089347" selectorTimeout 1) = false
  /\ Go.isCaptchaError (Go.processCedula "73089347" siteRejectsCaptcha 1)
     = true.
Proof.
  split; [|split].
  - apply (proj1 (proj2 (retried_failures_characterised "73089347"
                           captchaFails 1)) eq_refl eq_refl).
    left. eexists. reflexivity.
  - exact (proj1 (retried_failures_characterised "73089347"
                    selectorTimeout 1) _ eq_refl).
  - apply (proj2 (proj2 (retried_failures_characterised "73089347"
                           siteRejectsCaptcha 1)) eq_refl).
    left. reflexivity.
Defined.

(** ** The Go captcha client *)

Lemma go_pollLoop_bound svc fuel : forall i,
  (snd (Go.pollLoop svc fuel i) <= fuel)%nat.
Proof.
  induction fuel as [|fuel IH]; intros i; [simpl; lia|].
  cbn [Go.pollLoop]. specialize (IH (S i)).
  destruct (Go.pollReply svc i) as [e|e|e|resp]; cbn [snd]; try lia.
  destruct (Go.Status resp =? 1)%Z; [simpl; lia|].
  destruct (negb (String.eqb (Go.Request resp) "CAPCHA_NOT_READY"));
    cbn [snd]; lia.
Qed.

(** X4. [solveCaptcha] never polls more than 30 times, and it does not poll
    at all when the submission fails: a transport, read or JSON error, or
    an answer whose status is not 1, gives an error at once. *)
Theorem go_solver_fails_fast_and_polls_at_most_30 :
  forall svc : Go.CaptchaService,
    (snd (Go.solveCaptcha svc) <= 30)%nat
    /\ (~ goAccepted svc ->
        snd (Go.solveCaptcha svc) = O
        /\ exists msg, fst (Go.solveCaptcha svc) = Go.Err msg).
Proof.
  intros svc. unfold Go.solveCaptcha.
  destruct (Go.submitReply svc) as [e|e|e|resp] eqn:Hs.
  1-3: split; [cbn [snd]; lia | intros _; split; [reflexivity | eauto]].
  destruct (Go.Status resp =? 1)%Z eqn:E; cbn [negb].
  - split; [apply go_pollLoop_bound|].
    intros Hna. exfalso. apply Hna. exists (Go.Request resp).
    apply Z.eqb_eq in E. rewrite Hs. destruct resp as [st rq].
    cbn in E. now subst.
  - split; [cbn [snd]; lia|]. intros _. split; [reflexivity | eauto].
Qed.

Definition submissionRefusedService : Go.CaptchaService :=
  Go.mkCaptchaService
    (Go.Body (Go.mkCaptchaResponse 0 "ERROR_ZERO_BALANCE"))
    (fun _ => Go.Body (Go.mkCaptchaResponse 1 "k7xw2")).

Lemma go_solver_fails_fast_and_polls_at_most_30_witness :
  snd (Go.solveCaptcha submissionRefusedService) = O.
Proof.
  apply (proj2 (go_solver_fails_fast_and_polls_at_most_30
                  submissionRefusedService)).
  intros [id H]. discriminate H.
Defined.

(** X5. Once the submission is accepted, [solveCaptcha] returns the text of
    the first poll whose status is 1, after exactly that many polls,
    provided the earlier polls were not-ready answers or exchanges that
    failed (transport, read or JSON errors are skipped, each using up one
    of the 30 polls). *)
Theorem go_solver_returns_first_solution :
  forall (svc : Go.CaptchaService) (k : nat) (text : string),
    goAccepted svc ->
    (k < Go.maxPollAttempts)%nat ->
    (forall j, (j < k)%nat -> goContinues (Go.pollReply svc j)) ->
    Go.pollReply svc k = Go.Body (Go.mkCaptchaResponse 1 text) ->
    Go.solveCaptcha svc = (Go.Ok text, S k).
Proof.
  intros svc k text Hacc Hk Hpre Hreply.
  rewrite go_solveCaptcha_accepted by exact Hacc.
  unfold Go.maxPollAttempts in *.
  replace 30%nat with (k + S (29 - k))%nat by lia.
  rewrite go_pollLoop_skip by exact Hpre.
  cbn [Go.pollLoop plus]. rewrite Hreply.
  cbn [Go.Status Go.Request fst snd Z.eqb Pos.eqb]. f_equal. lia.
Qed.

Definition solvedAtThird : Go.CaptchaService :=
  Go.mkCaptchaService
    (Go.Body (Go.mkCaptchaResponse 1 "7301"))
    (fun i => match i with
              | O => Go.TransportErr "connection reset by peer"
              | 1%nat => Go.Body (Go.mkCaptchaResponse 0 "CAPCHA_NOT_READY")
              | _ => Go.Body (Go.mkCaptchaResponse 1 "k7xw2")
              end).

Lemma go_solver_returns_first_solution_witness :
  Go.solveCaptcha solvedAtThird = (Go.Ok "k7xw2", 3%nat).
Proof.
  apply (go_solver_returns_first_solution solvedAtThird 2 "k7xw2").
  - exists "7301". reflexivity.
  - unfold Go.maxPollAttempts. lia.
  - intros j Hj. destruct j as [|[|j]]; simpl; [exact I | | lia].
    split; [lia | reflexivity].
  - reflexivity.
Defined.

(** ** Page runs and delays of the retry loop *)

Lemma map_seq_snoc {A : Type} (f : nat -> A) n :
  map f (seq 0 (S n)) = (map f (seq 0 n) ++ [f n])%list.
Proof. now rewrite seq_S, map_app. Qed.

(** X6. For one identifier the worker runs the page at most [MaxRetries]
    times, the attempts being numbered 1, 2, ... without gaps; with a
    positive [MaxRetries] at least one run is made and the [Attempts] field
    of the recorded result is the number of runs made; with [MaxRetries]
    at most 0 no page is run and the recorded result is the zero value. *)
Theorem retry_loop_attempts_match_page_runs :
  forall (cfg : Go.Config) (run : Z -> Go.PageRun) (cedula : string),
    let out := Go.processWithRetries cfg run cedula in
    let runs := Go.pageRuns (snd out) in
    (List.length runs <= Z.to_nat (Go.MaxRetries (Go.Timeouts cfg)))%nat
    /\ runs = map (fun j => (cedula, 1 + Z.of_nat j))
                  (seq 0 (List.length runs))
    /\ (1 <= Go.MaxRetries (Go.Timeouts cfg) ->
        (1 <= List.length runs)%nat
        /\ Go.Attempts (fst out) = Z.of_nat (List.length runs))
    /\ (Go.MaxRetries (Go.Timeouts cfg) <= 0 -> out = (Go.zeroResult, [])).
Proof.
  intros cfg run cedula out runs. subst runs out.
  unfold Go.processWithRetries.
  destruct (Z.to_nat (Go.MaxRetries (Go.Timeouts cfg))) as [|m] eqn:Hfuel.
  { cbn. split; [lia|]. split; [reflexivity|]. split; [lia|reflexivity]. }
  assert (Hshape :
    exists n, (n <= m)%nat
      /\ fst (Go.retryLoop cfg run cedula (S m) 1 Go.zeroResult)
         = tried run cedula (1 + Z.of_nat n)
      /\ Go.pageRuns (snd (Go.retryLoop cfg run cedula (S m) 1 Go.zeroResult))
         = map (fun j => (cedula, 1 + Z.of_nat j)) (seq 0 (S n))).
  { destruct (firstFinal run cedula (S m) 1) as [j|] eqn:F.
    - apply firstFinal_Some in F as (Hj & Hfin & Hpre).
      exists j. split; [lia|].
      replace (S m) with (j + S (m - j))%nat by lia.
      rewrite (retryLoop_stops cfg run cedula j (m - j) 1 Go.zeroResult Hpre Hfin).
      cbn [fst snd]. split; [reflexivity|].
      rewrite pageRuns_app, pageRuns_retries, map_seq_snoc. reflexivity.
    - pose proof (firstFinal_None run cedula (S m) 1 F) as Hall.
      exists m. split; [lia|].
      rewrite (retryLoop_exhausted cfg run cedula m 1 Go.zeroResult)
        by (intros j Hj; apply Hall; lia).
      cbn [fst snd]. split; [reflexivity|]. apply pageRuns_retries. }
  destruct Hshape as (n & Hn & Hres & Hruns).
  rewrite Hruns, Hres, length_map, length_seq.
  split; [lia|]. split; [reflexivity|]. split.
  - intros _. split; [lia|]. unfold tried. rewrite processCedula_Attempts. lia.
  - intros Hle. lia.
Qed.

Lemma retry_loop_attempts_match_page_runs_witness :
  Go.Attempts
    (fst (Go.processWithRetries twoRetries
            (fun a => if (a =? 1)%Z then submissionRefused else registered)
            "200"))
  = Z.of_nat
      (List.length
         (Go.pageRuns
            (snd (Go.processWithRetries twoRetries
                    (fun a => if (a =? 1)%Z then submissionRefused
                              else registered)
                    "200")))).
Proof.
  apply (retry_loop_attempts_match_page_runs twoRetries
           (fun a => if (a =? 1)%Z then submissionRefused else registered)
           "200").
  simpl. lia.
Defined.

(** X7. When every attempt of an identifier is a captcha failure, the
    worker runs the page exactly [MaxRetries] times and sleeps the retry
    delay after each of them, the last one included, before it records the
    result of the last attempt. *)
Theorem exhausted_retries_sleep_after_every_attempt :
  forall (cfg : Go.Config) (run : Z -> Go.PageRun) (cedula : string),
    1 <= Go.MaxRetries (Go.Timeouts cfg) ->
    (forall a, 1 <= a <= Go.MaxRetries (Go.Timeouts cfg) ->
               Go.isCaptchaError (Go.processCedula cedula (run a) a) = true) ->
    let out := Go.processWithRetries cfg run cedula in
    fst out
    = Go.processCedula cedula (run (Go.MaxRetries (Go.Timeouts cfg)))
        (Go.MaxRetries (Go.Timeouts cfg))
    /\ snd out
       = concat (map (fun j => [Go.EvProcess cedula (1 + Z.of_nat j);
                                Go.EvSleep (Go.RetryDelay (Go.Timeouts cfg))])
                     (seq 0 (Z.to_nat (Go.MaxRetries (Go.Timeouts cfg)))))
    /\ last (snd out) = Some (Go.EvSleep (Go.RetryDelay (Go.Timeouts cfg))).
Proof.
  intros cfg run cedula Hmax Hall out. subst out.
  unfold Go.processWithRetries.
  destruct (Z.to_nat (Go.MaxRetries (Go.Timeouts cfg))) as [|m] eqn:Hfuel;
    [lia|].
  rewrite (retryLoop_exhausted cfg run cedula m 1 Go.zeroResult).
  2:{ intros j Hj. apply Hall. lia. }
  cbn [fst snd].
  assert (Hret : forall n a,
             retries cfg cedula n a
             = concat (map (fun j => [Go.EvProcess cedula (a + Z.of_nat j);
                                      Go.EvSleep
                                        (Go.RetryDelay (Go.Timeouts cfg))])
                           (seq 0 n))).
  { induction n as [|n IH]; intros a; [reflexivity|].
    cbn [retries seq map concat app]. rewrite Z.add_0_r. do 2 f_equal.
    rewrite IH, <- seq_shift, map_map. f_equal.
    apply map_ext. intros j. do 2 f_equal. lia. }
  split; [|split].
  - unfold tried. now replace (1 + Z.of_nat m)
      with (Go.MaxRetries (Go.Timeouts cfg)) by lia.
  - apply Hret.
  - rewrite retries_snoc. rewrite last_app. reflexivity.
Qed.

Lemma exhausted_retries_sleep_after_every_attempt_witness :
  snd (Go.processWithRetries (Go.getDefaultConfig 4)
         (fun _ => captchaFails) "73089347")
  = [Go.EvProcess "73089347" 1; Go.EvSleep (5 * Go.Second);
     Go.EvProcess "73089347" 2; Go.EvSleep (5 * Go.Second);
     Go.EvProcess "73089347" 3; Go.EvSleep (5 * Go.Second)].
Proof.
  apply (exhausted_retries_sleep_after_every_attempt (Go.getDefaultConfig 4)
           (fun _ => captchaFails) "73089347").
  - simpl. lia.
  - intros a _. reflexivity.
Defined.

(** ** The statistics of the Go [main] *)

Definition hasErrorText (r : Go.Result) : bool :=
  negb (String.eqb (Go.Error r) "").

Definition isBlank (r : Go.Result) : bool :=
  String.eqb (Go.Error r) "" && String.eqb (Go.Estado r) "".

Lemma statistics_from results : forall st,
  let st' := fold_left GoReport.countResult results st in
  GoReport.successful st' + GoReport.errors st' + GoReport.noData st'
  = GoReport.successful st + GoReport.errors st + GoReport.noData st
    + Z.of_nat (List.length results)
  /\ GoReport.errors st'
     = GoReport.errors st
       + Z.of_nat (List.length (List.filter hasErrorText results))
  /\ GoReport.noData st'
     = GoReport.noData st
       + Z.of_nat (List.length (List.filter isBlank results)).
Proof.
  induction results as [|r rest IH]; intros st; [cbn; lia|].
  cbn [fold_left List.filter List.length]. cbn zeta.
  destruct (IH (GoReport.countResult st r)) as (Hsum & Herr & Hno).
  rewrite Hsum, Herr, Hno. unfold GoReport.countResult, hasErrorText, isBlank.
  destruct (String.eqb (Go.Error r) ""), (String.eqb (Go.Estado r) "");
    cbn; lia.
Qed.

(** X9. The three counters printed by [main] split the results: every
    result is counted exactly once, as an error when its [Error] text is
    not empty, as "sin datos" when both [Error] and [Estado] are empty (a
    slot left at the zero value is one of these), otherwise as
    successful. *)
Theorem statistics_partition_the_results :
  forall results : list Go.Result,
    let st := GoReport.statistics results in
    GoReport.successful st + GoReport.errors st + GoReport.noData st
    = Z.of_nat (List.length results)
    /\ GoReport.errors st
       = Z.of_nat (List.length (List.filter hasErrorText results))
    /\ GoReport.noData st
       = Z.of_nat (List.length (List.filter isBlank results))
    /\ isBlank Go.zeroResult = true.
Proof.
  intros results st. subst st. unfold GoReport.statistics.
  destruct (statistics_from results (GoReport.mkStats 0 0 0))
    as (Hsum & Herr & Hno).
  cbn in Hsum, Herr, Hno. repeat split; assumption.
Qed.

(** X10. A site-reported error whose text comes back empty leaves a result
    with [Estado = "Error"] and an empty [Error]: the worker does not try
    again and [main] counts the identifier among the successful
    queries. *)
Theorem unreadable_site_error_counts_as_success :
  forall (cedula : string) (p : Go.PageRun) (attempt : Z),
    Go.navigateErr p = None ->
    Go.captchaVisible p = false ->
    Go.clickErr p = None ->
    Go.hasError p = true ->
    Go.errorMessage p = "" ->
    let r := Go.processCedula cedula p attempt in
    Go.Estado r = "Error" /\ Go.Error r = ""
    /\ Go.isCaptchaError r = false
    /\ GoReport.statistics [r] = GoReport.mkStats 1 0 0.
Proof.
  intros cedula p attempt Hnav Hvis Hclick Herr Hmsg r. subst r.
  unfold Go.processCedula, Go.searchAndExtract.
  rewrite Hnav, Hvis, Hclick, Herr, Hmsg. repeat split.
Qed.

Definition siteErrorWithoutText : Go.PageRun :=
  {| Go.navigateErr := None;
     Go.captchaVisible := false;
     Go.screenshotErr := None;
     Go.captchaService :=
       Go.mkCaptchaService (Go.TransportErr "")
                           (fun _ => Go.TransportErr "");
     Go.typeCaptchaErr := None;
     Go.clickErr := None;
     Go.hasError := true;
     Go.errorMessage := "";
     Go.extractErr := None;
     Go.primerApellido := "";
     Go.segundoApellido := "";
     Go.primerNombre := "";
     Go.otrosNombres := "";
     Go.estado := "";
     Go.elapsed := "15.3s" |}.

Lemma unreadable_site_error_counts_as_success_witness :
  GoReport.statistics [Go.processCedula "42207035" siteErrorWithoutText 1]
  = GoReport.mkStats 1 0 0.
Proof.
  apply (unreadable_site_error_counts_as_success "42207035"
           siteErrorWithoutText 1); reflexivity.
Defined.

Lemma filter_nil_iff {A : Type} (P : A -> Prop) `{forall x, Decision (P x)}
  (l : list A) :
  filter P l = [] <-> forall x, x ∈ l -> ~ P x.
Proof.
  induction l as [|a l IH].
  - split; [intros _ x Hx; now apply elem_of_nil in Hx | reflexivity].
  - destruct (decide (P a)) as [Ha|Ha].
    + rewrite filter_cons_True by exact Ha. split; [discriminate|].
      intros Hall. exfalso. apply (Hall a); [apply list_elem_of_here | exact Ha].
    + rewrite filter_cons_False by exact Ha. rewrite IH. split.
      * intros Hall x Hx. apply elem_of_cons in Hx as [->|Hx]; auto.
      * intros Hall x Hx. apply Hall. now apply list_elem_of_further.
Qed.

(** X11. [main] divides the run time by the number of identifiers read.
    For a sheet that opens, that integer division is by zero (a run-time
    panic, after the results file is written) exactly when no row below
    the header has a first cell that is non-blank once trimmed; otherwise
    the average is the truncated quotient. *)
Theorem average_panics_without_identifiers :
  forall (rows : list (list string)) (cedulas : list string) (duration : Z),
    fst (Go.readCedulasFromExcel (Go.Sheet rows)) = Some cedulas ->
    (GoReport.averagePerCedula duration cedulas = None
     <-> forall cell, cell ∈ firstColumn (tail rows) ->
                      GoStrings.TrimSpace cell = "")
    /\ (cedulas <> [] ->
        GoReport.averagePerCedula duration cedulas
        = Some (Z.quot duration (Z.of_nat (List.length cedulas)))).
Proof.
  intros rows cedulas duration Hread.
  rewrite go_reader_skips_header in Hread. cbn [fst] in Hread.
  injection Hread as <-. unfold GoReport.averagePerCedula.
  set (ids := filter (fun s => s <> "")
                (map GoStrings.TrimSpace (firstColumn (tail rows)))).
  assert (Hnil : ids = []
                 <-> forall cell, cell ∈ firstColumn (tail rows) ->
                                  GoStrings.TrimSpace cell = "").
  { unfold ids. rewrite filter_nil_iff. split.
    - intros Hall cell Hcell.
      destruct (decide (GoStrings.TrimSpace cell = "")) as [E|E]; [exact E|].
      exfalso. apply (Hall (GoStrings.TrimSpace cell)); [|exact E].
      now apply (list_elem_of_fmap_2 GoStrings.TrimSpace).
    - intros Hall x Hx. apply list_elem_of_fmap in Hx as (cell & -> & Hcell).
      intros Hne. apply Hne. now apply Hall. }
  split.
  - rewrite <- Hnil. destruct ids as [|x xs]; cbn.
    + split; reflexivity.
    + split; discriminate.
  - intros Hne. destruct ids as [|x xs]; [contradiction|]. reflexivity.
Qed.

Lemma average_panics_without_identifiers_witness :
  GoReport.averagePerCedula 90000000000 [] = None.
Proof.
  apply (proj1 (average_panics_without_identifiers
                  [["Cedula"]; ["  "]; []] [] 90000000000 eq_refl)).
  intros cell Hcell.
  apply elem_of_cons in Hcell as [->|Hcell]; [reflexivity|].
  now apply elem_of_nil in Hcell.
Defined.

(** ** The sheet written by [writeResultsToExcel] *)

Section WrittenSheet.

Import GoReport.

Lemma cell_names_differ c c' (row row' : Z) :
  row <> row' -> String c (pretty row) <> String c' (pretty row').
Proof.
  intros Hne H. injection H as _ H. apply Hne.
  now apply (inj pretty) in H.
Qed.

Lemma writeRow_lookup_other f row r key :
  (forall c, key <> String c (pretty row)) ->
  writeRow f row r !! key = f !! key.
Proof.
  intros H. unfold writeRow, SetCellValue.
  repeat (rewrite lookup_insert_ne by (apply not_eq_sym, H)).
  reflexivity.
Qed.

Lemma writeRows_lookup_other results : forall f i key,
  (forall c z, i + 2 <= z -> key <> String c (pretty z)) ->
  writeRows f i results !! key = f !! key.
Proof.
  induction results as [|r rest IH]; intros f i key H; [reflexivity|].
  cbn [writeRows]. rewrite IH.
  - apply writeRow_lookup_other. intros c. apply H. lia.
  - intros c z Hz. apply H. lia.
Qed.

Lemma writeRow_lookup_same f row r :
  let g := writeRow f row r in
  g !! ("A" +:+ pretty row) = Some (Text (Go.Cedula r))
  /\ g !! ("B" +:+ pretty row) = Some (Text (Go.PrimerApellido r))
  /\ g !! ("C" +:+ pretty row) = Some (Text (Go.SegundoApellido r))
  /\ g !! ("D" +:+ pretty row) = Some (Text (Go.PrimerNombre r))
  /\ g !! ("E" +:+ pretty row) = Some (Text (Go.SegundoNombre r))
  /\ g !! ("F" +:+ pretty row) = Some (Text (Go.Estado r))
  /\ g !! ("G" +:+ pretty row) = Some (Int (Go.Attempts r))
  /\ g !! ("H" +:+ pretty row) = Some (Text (Go.Error r))
  /\ g !! ("I" +:+ pretty row) = Some (Text (Go.ProcessingTime r)).
Proof.
  cbn zeta. unfold writeRow, SetCellValue.
  repeat split;
    repeat first [ rewrite lookup_insert_eq; reflexivity
                 | rewrite lookup_insert_ne by (intros H; discriminate H) ].
Qed.

Lemma writeRows_lookup_row results : forall f i j r c,
  results !! j = Some r ->
  writeRows f i results !! String c (pretty (i + Z.of_nat j + 2))
  = writeRow f (i + Z.of_nat j + 2) r
      !! String c (pretty (i + Z.of_nat j + 2))
  \/ exists g,
       writeRows f i results !! String c (pretty (i + Z.of_nat j + 2))
       = writeRow g (i + Z.of_nat j + 2) r
           !! String c (pretty (i + Z.of_nat j + 2)).
Proof.
  induction results as [|r0 rest IH]; intros f i j r c Hj; [discriminate|].
  destruct j as [|j]; cbn [writeRows].
  - injection Hj as ->. left. rewrite Z.add_0_r.
    apply writeRows_lookup_other. intros c' z Hz.
    apply cell_names_differ. lia.
  - right. simpl in Hj.
    replace (i + Z.of_nat (S j) + 2) with (i + 1 + Z.of_nat j + 2) by lia.
    destruct (IH (writeRow f (i + 2) r0) (i + 1) j r c Hj) as [H|[g H]];
      eauto.
Qed.

End WrittenSheet.

(** X12. In the sheet written by [writeResultsToExcel], row 1 holds the
    nine column titles and row [i + 2] holds result [i]: identifier, the
    four name fields, [Estado], the attempt count as a number, the error
    text and the processing time, in columns A to I.  No later result
    overwrites an earlier row, and the error of [SaveAs] is what the
    function returns. *)
Theorem written_sheet_has_one_row_per_result :
  forall (results : list Go.Result) (saveErr : option string),
    let f := fst (GoReport.writeResultsToExcel results saveErr) in
    snd (GoReport.writeResultsToExcel results saveErr) = saveErr
    /\ (forall k h,
          GoReport.headers !! k = Some h ->
          f !! GoReport.CoordinatesToCellName (Z.of_nat k + 1) 1
          = Some (GoReport.Text h))
    /\ (forall i r,
          results !! i = Some r ->
          let row := pretty (Z.of_nat i + 2) in
          f !! ("A" +:+ row) = Some (GoReport.Text (Go.Cedula r))
          /\ f !! ("B" +:+ row) = Some (GoReport.Text (Go.PrimerApellido r))
          /\ f !! ("C" +:+ row) = Some (GoReport.Text (Go.SegundoApellido r))
          /\ f !! ("D" +:+ row) = Some (GoReport.Text (Go.PrimerNombre r))
          /\ f !! ("E" +:+ row) = Some (GoReport.Text (Go.SegundoNombre r))
          /\ f !! ("F" +:+ row) = Some (GoReport.Text (Go.Estado r))
          /\ f !! ("G" +:+ row) = Some (GoReport.Int (Go.Attempts r))
          /\ f !! ("H" +:+ row) = Some (GoReport.Text (Go.Error r))
          /\ f !! ("I" +:+ row) = Some (GoReport.Text (Go.ProcessingTime r))).
Proof.
  intros results saveErr f. subst f. unfold GoReport.writeResultsToExcel.
  cbn [fst snd]. split; [reflexivity|]. split.
  - intros k h Hk.
    assert (Hone : pretty 1 = "1") by (vm_compute; reflexivity).
    assert (Hkey : exists c,
               GoReport.CoordinatesToCellName (Z.of_nat k + 1) 1
               = String c (pretty 1)
               /\ GoReport.writeHeaders ∅ 0 GoReport.headers
                    !! String c (pretty 1) = Some (GoReport.Text h)).
    { rewrite Hone.
      do 9 (destruct k as [|k];
            [injection Hk as <-; eexists; split; vm_compute; reflexivity|]).
      discriminate Hk. }
    destruct Hkey as (c & -> & Hh).
    rewrite writeRows_lookup_other; [exact Hh|].
    intros c' z Hz. apply cell_names_differ. lia.
  - intros i r Hi. cbn zeta.
    assert (Hrow : forall c,
               exists g,
                 GoReport.writeRows
                   (GoReport.writeHeaders ∅ 0 GoReport.headers) 0 results
                   !! String c (pretty (Z.of_nat i + 2))
                 = GoReport.writeRow g (Z.of_nat i + 2) r
                     !! String c (pretty (Z.of_nat i + 2))).
    { intros c.
      destruct (writeRows_lookup_row results
                  (GoReport.writeHeaders ∅ 0 GoReport.headers) 0 i r c Hi)
        as [H|[g H]]; rewrite Z.add_0_l in H; eauto. }
    repeat split;
      match goal with
      | |- _ !! (String ?c EmptyString +:+ _) = _ =>
          destruct (Hrow c) as [g Hg];
          change (String c EmptyString +:+ pretty (Z.of_nat i + 2))
            with (String c (pretty (Z.of_nat i + 2)));
          rewrite Hg;
          apply (writeRow_lookup_same g (Z.of_nat i + 2) r)
      end.
Qed.

Lemma written_sheet_has_one_row_per_result_witness :
  fst (GoReport.writeResultsToExcel
         [Go.zeroResult; Go.startupFailure "73089347" "x"] None)
    !! "G3"
  = Some (GoReport.Int 1).
Proof.
  assert (H := proj2 (proj2 (written_sheet_has_one_row_per_result
                               [Go.zeroResult;
                                Go.startupFailure "73089347" "x"] None))
                 1%nat _ eq_refl).
  cbn zeta in H.
  exact (proj1 (proj2 (proj2 (proj2 (proj2 (proj2 (proj2 H))))))).
Defined.

(** ** Trimming *)

(** [s] begins, respectively ends, with one of the white-space runes. *)
Definition leadingSpace (spaces : list (list ascii)) (s : list ascii) : Prop :=
  exists p rest, p ∈ spaces /\ s = (p ++ rest)%list.

Definition trailingSpace (spaces : list (list ascii)) (s : list ascii) : Prop :=
  exists p rest, p ∈ spaces /\ s = (rest ++ p)%list.

Section Trimming.

Import GoStrings.

Variable spaces : list (list ascii).
Hypothesis runes_not_empty : Forall (fun p => p <> []) spaces.

Lemma stripPrefix_Some p : forall s s',
  stripPrefix p s = Some s' <-> s = (p ++ s')%list.
Proof.
  induction p as [|a p IH]; intros s s'; simpl.
  - split; [now intros [= ->] | now intros ->].
  - destruct s as [|b s]; [split; discriminate|].
    destruct (Ascii.eqb a b) eqn:E.
    + apply Ascii.eqb_eq in E. subst b. rewrite IH. split.
      * now intros ->.
      * now intros [= ->].
    + apply Ascii.eqb_neq in E. split; [discriminate|].
      intros [= -> _]. contradiction.
Qed.

Lemma stripSpace_Some_of sp : forall s s',
  stripSpace sp s = Some s' -> exists p, p ∈ sp /\ s = (p ++ s')%list.
Proof.
  induction sp as [|p sp IH]; intros s s' H; [discriminate|].
  simpl in H. destruct (stripPrefix p s) as [s0|] eqn:E.
  - injection H as ->. apply stripPrefix_Some in E.
    exists p. split; [apply list_elem_of_here | exact E].
  - destruct (IH s s' H) as (q & Hq & Hs).
    exists q. split; [now apply list_elem_of_further | exact Hs].
Qed.

Lemma stripSpace_None_of sp : forall s,
  stripSpace sp s = None -> ~ leadingSpace sp s.
Proof.
  induction sp as [|p sp IH]; intros s H (q & rest & Hq & Hs).
  - now apply elem_of_nil in Hq.
  - simpl in H. destruct (stripPrefix p s) as [s0|] eqn:E; [discriminate|].
    apply elem_of_cons in Hq as [->|Hq].
    + apply stripPrefix_Some in Hs. congruence.
    + apply (IH s H). exists q, rest. now split.
Qed.

Lemma stripSpace_shorter s s' :
  stripSpace spaces s = Some s' -> (List.length s' < List.length s)%nat.
Proof.
  intros H. apply stripSpace_Some_of in H as (p & Hp & ->).
  rewrite Forall_forall in runes_not_empty.
  specialize (runes_not_empty p Hp). rewrite length_app.
  destruct p; [contradiction | simpl; lia].
Qed.

Lemma trimLeftFuel_spec fuel : forall s,
  (List.length s <= fuel)%nat ->
  ~ leadingSpace spaces (trimLeftFuel fuel spaces s)
  /\ exists pre, s = (pre ++ trimLeftFuel fuel spaces s)%list.
Proof.
  induction fuel as [|fuel IH]; intros s Hlen.
  - destruct s; [|simpl in Hlen; lia]. simpl. split; [|now exists []].
    intros (p & rest & Hp & Hs). rewrite Forall_forall in runes_not_empty.
    specialize (runes_not_empty p Hp). destruct p; [contradiction|discriminate].
  - cbn [trimLeftFuel]. destruct (stripSpace spaces s) as [s'|] eqn:E.
    + pose proof (stripSpace_shorter s s' E) as Hlt.
      destruct (IH s' ltac:(lia)) as [Hno [pre Hpre]]. split; [exact Hno|].
      apply stripSpace_Some_of in E as (p & _ & ->).
      exists (p ++ pre)%list. rewrite <- app_assoc. now f_equal.
    + split; [now apply stripSpace_None_of | now exists []].
Qed.

Lemma trimLeftFuel_fixed fuel : forall s,
  ~ leadingSpace spaces s -> trimLeftFuel fuel spaces s = s.
Proof.
  destruct fuel as [|fuel]; intros s Hno; [reflexivity|].
  cbn [trimLeftFuel]. destruct (stripSpace spaces s) as [s'|] eqn:E;
    [|reflexivity].
  exfalso. apply Hno. apply stripSpace_Some_of in E as (p & Hp & ->).
  now exists p, s'.
Qed.

Lemma trimLeft_spec s :
  ~ leadingSpace spaces (trimLeft spaces s)
  /\ exists pre, s = (pre ++ trimLeft spaces s)%list.
Proof. apply trimLeftFuel_spec. reflexivity. Qed.

End Trimming.

Section TrimBothEnds.

Import GoStrings.

Variable spaces : list (list ascii).
Hypothesis runes_not_empty : Forall (fun p => p <> []) spaces.

Lemma reversed_runes_not_empty :
  Forall (fun p => p <> []) (map (@rev ascii) spaces).
Proof.
  rewrite Forall_forall in *. intros p Hp.
  apply list_elem_of_fmap in Hp as (q & -> & Hq).
  specialize (runes_not_empty q Hq). destruct q; [contradiction|].
  simpl. intros H. now apply app_eq_nil in H as [_ H].
Qed.

Lemma leading_reversed s :
  leadingSpace (map (@rev ascii) spaces) s <-> trailingSpace spaces (rev s).
Proof.
  split.
  - intros (p & rest & Hp & ->). apply list_elem_of_fmap in Hp as (q & -> & Hq).
    exists q, (rev rest). split; [exact Hq|].
    now rewrite rev_app_distr, rev_involutive.
  - intros (p & rest & Hp & Hs). exists (rev p), (rev rest). split.
    + now apply (list_elem_of_fmap_2 (@rev ascii)).
    + rewrite <- rev_app_distr, <- Hs. now rewrite rev_involutive.
Qed.

Lemma trimRight_spec s :
  ~ trailingSpace spaces (trimRight spaces s)
  /\ exists post, s = (trimRight spaces s ++ post)%list.
Proof.
  unfold trimRight.
  destruct (trimLeft_spec _ reversed_runes_not_empty (rev s)) as [Hno [pre Hpre]].
  split.
  - intros H. apply Hno. apply leading_reversed. exact H.
  - exists (rev pre). rewrite <- rev_app_distr, <- Hpre.
    now rewrite rev_involutive.
Qed.

Lemma trimRight_fixed s :
  ~ trailingSpace spaces s -> trimRight spaces s = s.
Proof.
  intros Hno. unfold trimRight, trimLeft.
  rewrite trimLeftFuel_fixed; [apply rev_involutive|].
  intros H. apply Hno. apply leading_reversed in H.
  now rewrite rev_involutive in H.
Qed.

(** What [trimWith] returns: a run of the bytes of [s] that neither begins
    nor ends with a white-space rune. *)
Lemma trimWith_spec s :
  let t := list_ascii_of_string (trimWith spaces s) in
  ~ leadingSpace spaces t /\ ~ trailingSpace spaces t
  /\ exists pre post, list_ascii_of_string s = (pre ++ t ++ post)%list.
Proof.
  cbn zeta. unfold trimWith. rewrite list_ascii_of_string_of_list_ascii.
  set (l := list_ascii_of_string s).
  destruct (trimLeft_spec spaces runes_not_empty l) as [Hlead [pre Hpre]].
  destruct (trimRight_spec (trimLeft spaces l)) as [Htrail [post Hpost]].
  split; [|split].
  - intros (p & rest & Hp & Hs). apply Hlead. exists p, (rest ++ post)%list.
    split; [exact Hp|]. rewrite Hpost at 1. rewrite Hs.
    now rewrite <- app_assoc.
  - exact Htrail.
  - exists pre, post. rewrite Hpre at 1. now rewrite <- Hpost.
Qed.

Lemma trimWith_idempotent s :
  trimWith spaces (trimWith spaces s) = trimWith spaces s.
Proof.
  destruct (trimWith_spec s) as (Hlead & Htrail & _).
  unfold trimWith at 1. unfold trimLeft.
  rewrite (trimLeftFuel_fixed spaces _ _ Hlead).
  rewrite (trimRight_fixed _ Htrail).
  apply string_of_list_ascii_of_string.
Qed.

End TrimBothEnds.

Lemma goSpaces_not_empty : Forall (fun p => p <> []) GoStrings.goSpaces.
Proof. unfold GoStrings.goSpaces. repeat constructor; discriminate. Qed.

Lemma jsSpaces_not_empty : Forall (fun p => p <> []) Js.jsSpaces.
Proof. unfold Js.jsSpaces. repeat constructor; discriminate. Qed.

(** X13. [strings.TrimSpace], as the Go reader uses it, and
    [String.prototype.trim], as the reader of [js/main.js] uses it, are
    idempotent, and their value is a run of consecutive bytes of the
    argument that neither begins nor ends with a white-space rune. *)
Theorem trimming_is_idempotent_and_strips_both_ends :
  forall s : string,
    GoStrings.TrimSpace (GoStrings.TrimSpace s) = GoStrings.TrimSpace s
    /\ Js.trim (Js.trim s) = Js.trim s
    /\ (let t := list_ascii_of_string (GoStrings.TrimSpace s) in
        ~ leadingSpace GoStrings.goSpaces t
        /\ ~ trailingSpace GoStrings.goSpaces t
        /\ exists pre post,
             list_ascii_of_string s = (pre ++ t ++ post)%list)
    /\ (let t := list_ascii_of_string (Js.trim s) in
        ~ leadingSpace Js.jsSpaces t
        /\ ~ trailingSpace Js.jsSpaces t
        /\ exists pre post,
             list_ascii_of_string s = (pre ++ t ++ post)%list).
Proof.
  intros s. split; [|split; [|split]].
  - apply (trimWith_idempotent _ goSpaces_not_empty).
  - apply (trimWith_idempotent _ jsSpaces_not_empty).
  - apply (trimWith_spec _ goSpaces_not_empty).
  - apply (trimWith_spec _ jsSpaces_not_empty).
Qed.

(** ** What the readers return *)

Lemma firstColumn_elem rows cell :
  cell ∈ firstColumn rows -> exists others, (cell :: others) ∈ rows.
Proof.
  unfold firstColumn. intros H. apply list_elem_of_omap in H as (row & Hrow & Hh).
  destruct row as [|c others]; [discriminate|]. injection Hh as ->. eauto.
Qed.

Lemma firstColumn_length rows :
  (List.length (firstColumn rows) <= List.length rows)%nat.
Proof.
  induction rows as [|[|c others] rows IH]; simpl; [lia| |];
    unfold firstColumn in *; cbn; lia.
Qed.

(** X14. For a sheet that opens, the Go reader returns no error and a list
    with at most one identifier per row below the header.  Every
    identifier returned is the trimmed first cell of one of those rows, is
    not empty, and neither begins nor ends with a white-space rune. *)
Theorem go_reader_returns_trimmed_first_cells :
  forall rows : list (list string),
    exists cedulas,
      Go.readCedulasFromExcel (Go.Sheet rows) = (Some cedulas, None)
      /\ (List.length cedulas <= pred (List.length rows))%nat
      /\ forall c, c ∈ cedulas ->
           c <> ""
           /\ ~ leadingSpace GoStrings.goSpaces (list_ascii_of_string c)
           /\ ~ trailingSpace GoStrings.goSpaces (list_ascii_of_string c)
           /\ exists cell others,
                (cell :: others) ∈ tail rows
                /\ c = GoStrings.TrimSpace cell.
Proof.
  intros rows. eexists. split; [apply go_reader_skips_header|]. split.
  - etransitivity; [apply length_filter|]. rewrite length_map.
    etransitivity; [apply firstColumn_length|].
    destruct rows; simpl; lia.
  - intros c Hc. apply list_elem_of_filter in Hc as [Hne Hc].
    apply list_elem_of_fmap in Hc as (cell & -> & Hcell).
    destruct (trimWith_spec _ goSpaces_not_empty cell) as (Hl & Ht & _).
    split; [exact Hne|]. split; [exact Hl|]. split; [exact Ht|].
    apply firstColumn_elem in Hcell as [others Hrow]. eauto.
Qed.

Lemma go_reader_returns_trimmed_first_cells_witness :
  ~ leadingSpace GoStrings.goSpaces (list_ascii_of_string "1047473418").
Proof.
  destruct (go_reader_returns_trimmed_first_cells
              [["Cedula"]; [" 1047473418 "]]) as (cedulas & Heq & _ & Hall).
  assert (Hc : cedulas = ["1047473418"]).
  { assert (Hread : Go.readCedulasFromExcel
                      (Go.Sheet [["Cedula"]; [" 1047473418 "]])
                    = (Some ["1047473418"], None)) by reflexivity.
    rewrite Hread in Heq. now injection Heq as <-. }
  apply (Hall "1047473418"). rewrite Hc. apply list_elem_of_here.
Defined.

Lemma pool_reader_drops (row : list PoolJs.Cell) rows :
  Js.trim (PoolJs.cellString (PoolJs.firstCell row)) = "" ->
  PoolJs.readCedulasFromExcel (row :: rows) = PoolJs.readCedulasFromExcel rows.
Proof.
  intros H. unfold PoolJs.readCedulasFromExcel. cbn [map].
  now rewrite filter_cons_False by (rewrite H; auto).
Qed.

(** X15. The reader of [js/main.js] returns at most one identifier per
    row, the first row included.  Every identifier returned is the trimmed
    text of the first cell of a row, is not empty, and neither begins nor
    ends with a white-space character.  A row without cells, and a row
    whose first cell is the number 0 or the value [false], gives no
    identifier. *)
Theorem pool_reader_returns_trimmed_first_cells :
  forall rows : list (list PoolJs.Cell),
    (List.length (PoolJs.readCedulasFromExcel rows) <= List.length rows)%nat
    /\ (forall c, c ∈ PoolJs.readCedulasFromExcel rows ->
          c <> ""
          /\ ~ leadingSpace Js.jsSpaces (list_ascii_of_string c)
          /\ ~ trailingSpace Js.jsSpaces (list_ascii_of_string c)
          /\ exists row,
               row ∈ rows
               /\ c = Js.trim (PoolJs.cellString (PoolJs.firstCell row)))
    /\ (forall others,
          PoolJs.readCedulasFromExcel ([] :: rows)
          = PoolJs.readCedulasFromExcel rows
          /\ PoolJs.readCedulasFromExcel ((PoolJs.Whole 0 I :: others) :: rows)
             = PoolJs.readCedulasFromExcel rows
          /\ PoolJs.readCedulasFromExcel
               ((PoolJs.Flag false :: others) :: rows)
             = PoolJs.readCedulasFromExcel rows).
Proof.
  intros rows. split; [|split].
  - unfold PoolJs.readCedulasFromExcel.
    etransitivity; [apply length_filter|]. now rewrite length_map.
  - intros c Hc. unfold PoolJs.readCedulasFromExcel in Hc.
    apply list_elem_of_filter in Hc as [Hne Hc].
    apply list_elem_of_fmap in Hc as (row & -> & Hrow).
    destruct (trimWith_spec _ jsSpaces_not_empty
                (PoolJs.cellString (PoolJs.firstCell row))) as (Hl & Ht & _).
    split; [exact Hne|]. split; [exact Hl|]. split; [exact Ht|]. eauto.
  - intros others. repeat split; apply pool_reader_drops; reflexivity.
Qed.

Lemma pool_reader_returns_trimmed_first_cells_witness :
  ~ trailingSpace Js.jsSpaces (list_ascii_of_string "73089347").
Proof.
  apply (proj1 (proj2 (pool_reader_returns_trimmed_first_cells
                         [[PoolJs.Text "Cedula"]; [PoolJs.Whole 73089347 I]]))
           "73089347").
  apply list_elem_of_further, list_elem_of_here.
Defined.

(** ** The Turnstile clients of the two scripts *)

Lemma main_pollLoop_bound s fuel : forall i,
  (List.length (snd (MainJs.pollLoop s fuel i)) <= fuel)%nat.
Proof.
  induction fuel as [|fuel IH]; intros i; [simpl; lia|].
  cbn [MainJs.pollLoop]. specialize (IH (S i)).
  destruct (Js.poll s i) as [m c|status request]; cbn [snd List.length];
    [lia|].
  destruct (Js.isOne status); [simpl; lia|].
  destruct (negb (Js.isStr request "CAPCHA_NOT_READY"));
    cbn [snd List.length]; lia.
Qed.

Lemma pool_pollLoop_sleeps s fuel : forall i d,
  snd (PoolJs.pollLoop s fuel i d)
  = backoff (List.length (snd (PoolJs.pollLoop s fuel i d))) d
  /\ (List.length (snd (PoolJs.pollLoop s fuel i d)) <= fuel)%nat.
Proof.
  induction fuel as [|fuel IH]; intros i d; [split; [reflexivity|simpl; lia]|].
  cbn [PoolJs.pollLoop].
  destruct (IH (S i) (Z.min (d * 2) 2000)) as [Hb Hl].
  assert (Hretry :
    forall e,
      snd (e, d :: snd (PoolJs.pollLoop s fuel (S i) (Z.min (d * 2) 2000)))
      = backoff
          (List.length
             (snd (e : PoolJs.LoopExit,
                   d :: snd (PoolJs.pollLoop s fuel (S i)
                               (Z.min (d * 2) 2000)))))
          d
      /\ (List.length
            (snd (e, d :: snd (PoolJs.pollLoop s fuel (S i)
                                 (Z.min (d * 2) 2000))))
          <= S fuel)%nat).
  { intros e. cbn [snd List.length backoff]. split; [now f_equal | lia]. }
  destruct (Js.poll s i) as [m c|status request]; [apply Hretry|].
  destruct (Js.isOne status); [split; [reflexivity | simpl; lia]|].
  destruct (Js.isStr request "CAPCHA_NOT_READY"); [apply Hretry|].
  destruct request as [| |b|n|req]; try apply Hretry.
  destruct (GoStrings.Contains req "ERROR_CAPTCHA_UNSOLVABLE");
    [split; [reflexivity | simpl; lia] | apply Hretry].
Qed.

Lemma backoff_from_initial n :
  backoff n PoolJs.initialDelay = take n (1000 :: replicate 19 2000)
  \/ (20 < n)%nat.
Proof.
  do 21 (destruct n as [|n]; [left; reflexivity|]). right. lia.
Qed.

Lemma main_polls_bound s :
  (Js.polls (MainJs.solveTurnstileWith2Captcha s) <= 30)%nat.
Proof.
  unfold MainJs.solveTurnstileWith2Captcha, Js.polls.
  destruct (Js.submit s) as [m c|status request]; [cbn; lia|].
  destruct (negb (Js.truthy status) || negb (Js.isOne status)); [cbn; lia|].
  pose proof (main_pollLoop_bound s MainJs.maxAttempts O) as Hm. cbn zeta.
  destruct (negb (Js.truthy (fst (MainJs.pollLoop s MainJs.maxAttempts O))));
    exact Hm.
Qed.

Lemma pool_sleeps_backoff s :
  Js.sleeps (PoolJs.solveTurnstileWith2Captcha s)
  = backoff (Js.polls (PoolJs.solveTurnstileWith2Captcha s))
      PoolJs.initialDelay
  /\ (Js.polls (PoolJs.solveTurnstileWith2Captcha s) <= 20)%nat.
Proof.
  unfold PoolJs.solveTurnstileWith2Captcha, Js.polls.
  destruct (Js.submit s) as [m c|status request];
    [split; [reflexivity | cbn; lia]|].
  destruct (negb (Js.truthy status) || negb (Js.isOne status));
    [split; [reflexivity | cbn; lia]|].
  pose proof (pool_pollLoop_sleeps s PoolJs.maxAttempts O PoolJs.initialDelay)
    as Hp.
  destruct (PoolJs.pollLoop s PoolJs.maxAttempts O PoolJs.initialDelay)
    as [[token|] slept]; cbn [snd] in Hp; [|exact Hp].
  destruct (negb (Js.truthy token)); exact Hp.
Qed.

(** X16. Neither script polls when the submission fails: a throwing
    request or an answer whose status is not 1 makes
    [solveTurnstileWith2Captcha] return [null] without a single poll.  In
    every case [main.js] polls at most 30 times and [js/main.js] at most
    20 times. *)
Theorem turnstile_clients_fail_fast_and_bound_polls :
  forall s : Js.Solver,
    (Js.polls (MainJs.solveTurnstileWith2Captcha s) <= 30)%nat
    /\ (Js.polls (PoolJs.solveTurnstileWith2Captcha s) <= 20)%nat
    /\ (~ jsAccepted s ->
        Js.returned (MainJs.solveTurnstileWith2Captcha s) = Js.Null
        /\ Js.sleeps (MainJs.solveTurnstileWith2Captcha s) = []
        /\ Js.returned (PoolJs.solveTurnstileWith2Captcha s) = Js.Null
        /\ Js.sleeps (PoolJs.solveTurnstileWith2Captcha s) = []).
Proof.
  intros s. split; [apply main_polls_bound|].
  split; [apply pool_sleeps_backoff|].
  intros Hna.
  unfold MainJs.solveTurnstileWith2Captcha, PoolJs.solveTurnstileWith2Captcha.
  destruct (Js.submit s) as [m c|status request] eqn:Hs;
    [repeat split|].
  destruct (negb (Js.truthy status) || negb (Js.isOne status)) eqn:E;
    [repeat split|].
  apply orb_false_iff in E as [_ Hone]. apply negb_false_iff in Hone.
  exfalso. apply Hna. exists status, request. now split.
Qed.

Definition keyRefused : Js.Solver :=
  Js.mkSolver (Js.Data (Js.Num (Js.Fin 0)) (Js.Str "ERROR_WRONG_USER_KEY"))
              (fun _ => Js.Data (Js.Num (Js.Fin 1)) (Js.Str "0.zrSnR")).

Lemma turnstile_clients_fail_fast_and_bound_polls_witness :
  Js.sleeps (MainJs.solveTurnstileWith2Captcha keyRefused) = []
  /\ Js.sleeps (PoolJs.solveTurnstileWith2Captcha keyRefused) = [].
Proof.
  destruct (proj2 (proj2 (turnstile_clients_fail_fast_and_bound_polls
                            keyRefused))) as (_ & Hm & _ & Hp).
  - intros (status & id & H & Hone). injection H as <- _. discriminate Hone.
  - split; [exact Hm | exact Hp].
Defined.

(** X17. In [main.js], once the submission is accepted, polling ends at the
    first poll whose status is 1, whatever the earlier polls answered
    (error texts and failed requests included): a non-empty token is
    returned after exactly that many polls, 5 seconds apart.  If that
    answer carries an empty token, the client stops polling as well but
    returns [null], reporting a time-out. *)
Theorem main_client_stops_at_first_success :
  forall (s : Js.Solver) (k : nat) (status token : Js.Val),
    jsAccepted s ->
    (k < MainJs.maxAttempts)%nat ->
    (forall j, (j < k)%nat -> mainContinues (Js.poll s j)) ->
    Js.poll s k = Js.Data status token ->
    Js.isOne status = true ->
    (Js.truthy token = true ->
     MainJs.solveTurnstileWith2Captcha s
     = Js.mkSolved token (replicate (S k) 5000) None)
    /\ (Js.truthy token = false ->
        MainJs.solveTurnstileWith2Captcha s
        = Js.mkSolved Js.Null (replicate (S k) 5000) (Some Js.TimedOut)).
Proof.
  intros s k status token Hacc Hk Hpre Hreply Hone.
  rewrite main_solve_accepted by exact Hacc. unfold MainJs.maxAttempts in *.
  replace 30%nat with (k + S (29 - k))%nat by lia.
  rewrite main_pollLoop_skip by exact Hpre.
  cbn [MainJs.pollLoop plus]. rewrite Hreply, Hone. cbn [fst snd].
  replace (replicate k 5000 ++ [5000])%list with (replicate (S k) 5000)
    by (rewrite replicate_S_end; reflexivity).
  split; intros ->; reflexivity.
Qed.

Definition emptyTokenAtSecond : Js.Solver :=
  Js.mkSolver
    (Js.Data (Js.Num (Js.Fin 1)) (Js.Str "7301"))
    (fun i => match i with
              | O => Js.Data (Js.Num (Js.Fin 0)) (Js.Str "ERROR_WRONG_CAPTCHA_ID")
              | _ => Js.Data (Js.Num (Js.Fin 1)) (Js.Str "")
              end).

Lemma main_client_stops_at_first_success_witness :
  MainJs.solveTurnstileWith2Captcha emptyTokenAtSecond
  = Js.mkSolved Js.Null [5000; 5000] (Some Js.TimedOut).
Proof.
  apply (proj2 (main_client_stops_at_first_success emptyTokenAtSecond 1
                  (Js.Num (Js.Fin 1)) (Js.Str "")
                  ltac:(exists (Js.Num (Js.Fin 1)), (Js.Str "7301");
                        split; reflexivity)
                  ltac:(unfold MainJs.maxAttempts; lia)
                  ltac:(intros [|j] Hj; [reflexivity | lia])
                  eq_refl eq_refl)).
  reflexivity.
Defined.

(** X18. The client of [js/main.js] waits 1000 ms before its first poll and
    2000 ms before every later one, whatever the polls answer; with at
    most 20 polls it never waits more than 39 seconds in total. *)
Theorem pool_client_backoff_schedule :
  forall s : Js.Solver,
    let r := PoolJs.solveTurnstileWith2Captcha s in
    Js.sleeps r = take (Js.polls r) (1000 :: replicate 19 2000)
    /\ fold_right Z.add 0 (Js.sleeps r) <= 39000.
Proof.
  intros s r. destruct (pool_sleeps_backoff s) as [Hsl Hb]. fold r in Hsl, Hb.
  assert (Hs : Js.sleeps r = take (Js.polls r) (1000 :: replicate 19 2000)).
  { rewrite Hsl.
    destruct (backoff_from_initial (Js.polls r)) as [H|H]; [exact H | lia]. }
  split; [exact Hs|]. rewrite Hs.
  revert Hb. generalize (Js.polls r). intros n Hn.
  do 21 (destruct n as [|n]; [vm_compute; discriminate|]). lia.
Qed.

(** X19. In [js/main.js], once the submission is accepted, a poll that
    throws, or whose [request] is not a text (so that [request.includes]
    throws), is treated like any other non-final answer: the client polls
    again.  The first poll whose status is 1 ends the polling, and its
    non-empty token is returned after exactly that many polls. *)
Theorem pool_client_retries_malformed_replies :
  forall (s : Js.Solver) (k : nat) (status token : Js.Val),
    jsAccepted s ->
    (k < PoolJs.maxAttempts)%nat ->
    (forall j, (j < k)%nat ->
       poolContinues (Js.poll s j)
       \/ (exists m c, Js.poll s j = Js.Throws m c)
       \/ (exists st rq, Js.poll s j = Js.Data st rq
                         /\ Js.isOne st = false
                         /\ forall text, rq <> Js.Str text)) ->
    Js.poll s k = Js.Data status token ->
    Js.isOne status = true ->
    Js.truthy token = true ->
    PoolJs.solveTurnstileWith2Captcha s
    = Js.mkSolved token (take (S k) (1000 :: replicate 19 2000)) None.
Proof.
  intros s k status token Hacc Hk Hpre Hreply Hone Htok.
  assert (Hcont : forall j, (j < k)%nat -> poolContinues (Js.poll s (0 + j))).
  { intros j Hj. change (0 + j)%nat with j.
    destruct (Hpre j Hj) as [H|[(m & c & H)|(st & rq & H & Hst & Hrq)]].
    - exact H.
    - rewrite H. exact I.
    - rewrite H. split; [exact Hst|]. simpl.
      destruct rq as [| |b|n|text]; try tauto. exfalso. now apply (Hrq text). }
  rewrite pool_solve_accepted by exact Hacc. unfold PoolJs.maxAttempts in *.
  replace 20%nat with (k + S (19 - k))%nat by lia.
  rewrite pool_pollLoop_skip by exact Hcont.
  cbn [PoolJs.pollLoop plus]. rewrite Hreply, Hone. cbn [fst snd].
  rewrite Htok. cbn [negb]. f_equal.
  rewrite <- backoff_snoc.
  destruct (backoff_from_initial (S k)) as [H|H]; [exact H | lia].
Qed.

Definition malformedThenToken : Js.Solver :=
  Js.mkSolver
    (Js.Data (Js.Num (Js.Fin 1)) (Js.Str "7301"))
    (fun i => match i with
              | O => Js.Data (Js.Num (Js.Fin 0)) Js.Undefined
              | 1%nat => Js.Throws "timeout of 3000ms exceeded" "ECONNABORTED"
              | _ => Js.Data (Js.Num (Js.Fin 1)) (Js.Str "0.zrSnR")
              end).

Lemma pool_client_retries_malformed_replies_witness :
  PoolJs.solveTurnstileWith2Captcha malformedThenToken
  = Js.mkSolved (Js.Str "0.zrSnR") [1000; 2000; 2000] None.
Proof.
  apply (pool_client_retries_malformed_replies malformedThenToken 2
           (Js.Num (Js.Fin 1)) (Js.Str "0.zrSnR")).
  - exists (Js.Num (Js.Fin 1)), (Js.Str "7301"). split; reflexivity.
  - unfold PoolJs.maxAttempts. lia.
  - intros [|[|j]] Hj; [| |lia].
    + right. right. exists (Js.Num (Js.Fin 0)), Js.Undefined.
      split; [reflexivity|]. split; [reflexivity|]. discriminate.
    + right. left. eexists. eexists. reflexivity.
  - reflexivity.
  - reflexivity.
  - reflexivity.
Defined.

(** ** Results pushed by [main.js] *)

Lemma main_onNavError_shape b p c m :
  exists estado, MainJs.onNavError b p c m = [Js.errorResult c estado]
                 /\ MainJsReport.isSuccess (Js.errorResult c estado) = false.
Proof.
  unfold MainJs.onNavError, MainJs.onErr.
  destruct (MainJs.shot b (MainJs.navShotErr p)); eexists; split; reflexivity.
Qed.

(** What one iteration pushes: nothing, one result, or an extracted record
    followed by one error result. *)
Lemma main_iteration_shape b p c :
  MainJs.iteration b p c = []
  \/ (exists r, MainJs.iteration b p c = [r] /\ Js.cedula r = c)
  \/ (exists d estado,
        b = true
        /\ MainJs.iteration b p c
           = [Js.withCedula c d; Js.errorResult c estado]
        /\ MainJsReport.isSuccess (Js.errorResult c estado) = false).
Proof.
  assert (Hnav : forall m,
             exists r, MainJs.onNavError b p c m = [r] /\ Js.cedula r = c).
  { intros m. destruct (main_onNavError_shape b p c m) as (e & -> & _). eauto. }
  assert (Hsearch :
    (exists r, MainJs.search b p c = [r] /\ Js.cedula r = c)
    \/ (exists d estado,
          b = true
          /\ MainJs.search b p c = [Js.withCedula c d; Js.errorResult c estado]
          /\ MainJsReport.isSuccess (Js.errorResult c estado) = false)).
  { unfold MainJs.search.
    destruct (MainJs.searchErr p); [left; apply Hnav|].
    destruct (negb (MainJs.resultsFound p)).
    { destruct (MainJs.noResultsErr p); [left; apply Hnav|]. left. eauto. }
    destruct (MainJs.evaluateErr p); [left; apply Hnav|].
    destruct (MainJs.data p) as [d|error].
    - destruct (MainJs.shot b (MainJs.successShotErr p)) as [e|] eqn:Hshot;
        [|left; eauto].
      right. destruct (main_onNavError_shape b p c e) as (estado & -> & Hno).
      exists d, estado. split; [|split; [reflexivity | exact Hno]].
      destruct b; [reflexivity | discriminate].
    - destruct (MainJs.shot b (MainJs.errorShotErr p));
        [left; apply Hnav | left; eauto]. }
  unfold MainJs.iteration, MainJs.onErr.
  destruct (MainJs.openErr p); [right; left; eauto|].
  destruct (negb (Js.truthy (MainJs.siteKey p))); [right; exact Hsearch|].
  destruct (Js.truthy (Js.returned
              (MainJs.solveTurnstileWith2Captcha (MainJs.solver p))));
    [|now left].
  destruct (MainJs.injectErr p); [right; left; eauto | right; exact Hsearch].
Qed.

(** X20. [main.js] pushes at most two results per identifier, each carrying
    that identifier, and at most one when screenshots are off.  Two are
    pushed, on a page without a captcha widget, when the extracted record
    is pushed, the screenshot taken after it fails, and the handler of
    that failure pushes an error result for the same identifier. *)
Theorem main_script_pushes_at_most_two_results :
  forall (takeScreenshots : bool) (pages : nat -> MainJs.PageRun) (i : nat)
         (cedulas : list string),
    let resultados := MainJs.forLoop takeScreenshots pages i cedulas in
    (List.length resultados <= 2 * List.length cedulas)%nat
    /\ (forall r, r ∈ resultados -> Js.cedula r ∈ cedulas)
    /\ (takeScreenshots = false ->
        (List.length resultados <= List.length cedulas)%nat)
    /\ (forall p c d e,
          MainJs.openErr p = None ->
          Js.truthy (MainJs.siteKey p) = false ->
          MainJs.searchErr p = None ->
          MainJs.resultsFound p = true ->
          MainJs.evaluateErr p = None ->
          MainJs.data p = inl d ->
          MainJs.successShotErr p = Some e ->
          MainJs.navShotErr p = None ->
          MainJs.iteration true p c
          = [Js.withCedula c d;
             Js.errorResult c ("Error: Navigation failed - " +:+ e)]).
Proof.
  intros b pages i cedulas resultados. subst resultados.
  split; [|split; [|split]].
  - revert i. induction cedulas as [|c rest IH]; intros i; [simpl; lia|].
    cbn [MainJs.forLoop]. rewrite length_app. specialize (IH (S i)).
    destruct (main_iteration_shape b (pages i) c)
      as [->|[(r & -> & _)|(d & e & _ & -> & _)]]; simpl in *; lia.
  - revert i. induction cedulas as [|c rest IH]; intros i r Hr.
    + now apply elem_of_nil in Hr.
    + cbn [MainJs.forLoop] in Hr. apply elem_of_app in Hr as [Hr|Hr].
      * assert (Js.cedula r = c) as ->; [|apply list_elem_of_here].
        destruct (main_iteration_shape b (pages i) c)
          as [E|[(r0 & E & Hc)|(d & e & _ & E & _)]]; rewrite E in Hr.
        -- now apply elem_of_nil in Hr.
        -- apply list_elem_of_singleton in Hr. now subst.
        -- apply elem_of_cons in Hr as [->|Hr]; [reflexivity|].
           apply list_elem_of_singleton in Hr. now subst.
      * apply list_elem_of_further. now apply (IH (S i)).
  - intros ->. revert i.
    induction cedulas as [|c rest IH]; intros i; [simpl; lia|].
    cbn [MainJs.forLoop]. rewrite length_app. specialize (IH (S i)).
    destruct (main_iteration_shape false (pages i) c)
      as [->|[(r & -> & _)|(d & e & Hb & _)]];
      [simpl in *; lia | simpl in *; lia | discriminate].
  - intros p c d e Ho Hk Hs Hf He Hd Hshot Hnav.
    unfold MainJs.iteration, MainJs.search, MainJs.onNavError, MainJs.shot.
    now rewrite Ho, Hk, Hs, Hf, He, Hd, Hshot, Hnav.
Qed.

(** A page of [main.js] whose data are extracted but whose last screenshot
    cannot be written. *)
Definition lastScreenshotFails : MainJs.PageRun :=
  {| MainJs.openErr := None;
     MainJs.siteKey := Js.Null;
     MainJs.solver :=
       Js.mkSolver (Js.Throws "" "") (fun _ => Js.Throws "" "");
     MainJs.injectErr := None;
     MainJs.searchErr := None;
     MainJs.resultsFound := true;
     MainJs.noResultsErr := None;
     MainJs.evaluateErr := None;
     MainJs.data :=
       inl (Js.mkFields "PEREZ" "GOMEZ" "ANA" "N/A" "REGISTRO ACTIVO");
     MainJs.errorShotErr := None;
     MainJs.successShotErr := Some "ENOSPC: no space left on device";
     MainJs.navShotErr := None |}.

Lemma main_script_pushes_at_most_two_results_witness :
  MainJs.iteration true lastScreenshotFails "42207035"
  = [Js.mkResult "42207035" "PEREZ" "GOMEZ" "ANA" "N/A" "REGISTRO ACTIVO";
     Js.errorResult "42207035"
       "Error: Navigation failed - ENOSPC: no space left on device"].
Proof.
  exact (proj2 (proj2 (proj2 (main_script_pushes_at_most_two_results true
                                (fun _ => lastScreenshotFails) 0 [])))
           lastScreenshotFails "42207035" _ _
           eq_refl eq_refl eq_refl eq_refl eq_refl eq_refl eq_refl eq_refl).
Defined.

(** ** The counts of [generatePDF] *)

Lemma successCount_app rs rs' :
  MainJsReport.successCount (rs ++ rs')
  = (MainJsReport.successCount rs + MainJsReport.successCount rs')%nat.
Proof.
  unfold MainJsReport.successCount. now rewrite List.filter_app, length_app.
Qed.

(** X21. In the summary of [generatePDF] the successful and the failed
    queries add up to the number of results.  An error result pushed by
    the script is never counted as successful, so on the results of a run
    the number of successful queries is at most the number of input
    identifiers, even when the run pushed more results than that. *)
Theorem report_counts_at_most_one_success_per_identifier :
  forall (takeScreenshots : bool) (pages : nat -> MainJs.PageRun) (i : nat)
         (cedulas : list string),
    let resultados := MainJs.forLoop takeScreenshots pages i cedulas in
    (MainJsReport.successCount resultados
     + MainJsReport.failedCount resultados)%nat
    = List.length resultados
    /\ (MainJsReport.successCount resultados <= List.length cedulas)%nat
    /\ (forall c message,
          MainJsReport.isSuccess (Js.errorResult c ("Error: " +:+ message))
          = false).
Proof.
  intros b pages i cedulas resultados. subst resultados. split; [|split].
  - unfold MainJsReport.failedCount, MainJsReport.successCount.
    pose proof (List.filter_length_le MainJsReport.isSuccess
                  (MainJs.forLoop b pages i cedulas)). lia.
  - revert i. induction cedulas as [|c rest IH]; intros i; [cbn; lia|].
    cbn [MainJs.forLoop]. rewrite successCount_app. specialize (IH (S i)).
    cbn [List.length].
    assert (Hone : (MainJsReport.successCount (MainJs.iteration b (pages i) c)
                    <= 1)%nat); [|lia].
    destruct (main_iteration_shape b (pages i) c)
      as [->|[(r & -> & _)|(d & e & _ & -> & Hno)]];
      unfold MainJsReport.successCount; cbn [List.filter].
    + cbn. lia.
    + destruct (MainJsReport.isSuccess r); cbn; lia.
    + rewrite Hno.
      destruct (MainJsReport.isSuccess (Js.withCedula c d)); cbn; lia.
  - intros c message. reflexivity.
Qed.

(** ** The pool of [js/main.js]: admission, edge cases, schedules *)

Section PoolBounds.

Variable tasks : list PoolJs.Settled.
Variable limit : Z.

(** No more tasks run than the limit allows, and no task beyond the list
    is started. *)
Definition WithinLimit (st : PoolJs.Pool) : Prop :=
  Z.of_nat (PoolJs.running st) <= Z.max 0 limit
  /\ (PoolJs.taskIndex st <= List.length tasks)%nat.

Lemma startTasks_within fuel : forall st,
  WithinLimit st ->
  WithinLimit (PoolJs.startTasks (List.length tasks) limit fuel st).
Proof.
  induction fuel as [|fuel IH]; intros st H; [exact H|].
  cbn [PoolJs.startTasks].
  destruct ((Z.of_nat (PoolJs.running st) <? limit)%Z
            && Nat.ltb (PoolJs.taskIndex st) (List.length tasks)) eqn:E;
    [|exact H].
  apply andb_true_iff in E as [Hr Hi].
  apply Z.ltb_lt in Hr. apply Nat.ltb_lt in Hi.
  apply IH. destruct H as [H1 H2]. split; cbn; lia.
Qed.

Lemma runTask_within st :
  WithinLimit st ->
  WithinLimit (PoolJs.runTask (List.length tasks) limit st).
Proof.
  intros H. unfold PoolJs.runTask.
  destruct (Nat.leb (List.length tasks) (PoolJs.taskIndex st)
            && Nat.eqb (PoolJs.running st) 0).
  - unfold PoolJs.settle. now destruct (PoolJs.promise st).
  - now apply startTasks_within.
Qed.

Lemma taskSettles_within st i :
  WithinLimit st -> WithinLimit (PoolJs.taskSettles tasks limit st i).
Proof.
  intros H. unfold PoolJs.taskSettles. case_bool_decide; [|exact H].
  destruct (tasks !! i) as [[r|e]|]; [| |exact H].
  - apply runTask_within. destruct H as [H1 H2]. split; cbn; lia.
  - unfold PoolJs.settle. cbn. destruct (PoolJs.promise st); exact H.
Qed.

Lemma settleInOrder_within order : forall st,
  WithinLimit st ->
  WithinLimit (PoolJs.settleInOrder tasks limit st order).
Proof.
  induction order as [|i order IH]; intros st H.
  - simpl. now destruct (PoolJs.promise st).
  - cbn [PoolJs.settleInOrder]. destruct (PoolJs.promise st); [exact H|].
    apply IH. now apply taskSettles_within.
Qed.

Lemma limitConcurrency_within order :
  WithinLimit (PoolJs.limitConcurrency tasks limit order).
Proof.
  unfold PoolJs.limitConcurrency. apply settleInOrder_within, runTask_within.
  split; cbn; lia.
Qed.

(** With a limit of at most 0 and a task to run, nothing ever happens. *)
Lemma limitConcurrency_stuck order :
  limit <= 0 -> tasks <> [] ->
  PoolJs.limitConcurrency tasks limit order = PoolJs.mkPool [] O O [] None.
Proof.
  intros Hlim Hne. unfold PoolJs.limitConcurrency.
  assert (Hstart : PoolJs.runTask (List.length tasks) limit
                     (PoolJs.mkPool [] O O [] None)
                   = PoolJs.mkPool [] O O [] None).
  { unfold PoolJs.runTask. cbn [PoolJs.taskIndex PoolJs.running].
    destruct tasks as [|t ts]; [contradiction|]. cbn [List.length Nat.leb andb].
    rewrite Nat.sub_0_r. cbn [PoolJs.startTasks PoolJs.running].
    assert ((Z.of_nat 0 <? limit)%Z = false) as -> by (apply Z.ltb_ge; lia).
    reflexivity. }
  rewrite Hstart. induction order as [|i order IH]; [reflexivity|].
  cbn [PoolJs.settleInOrder PoolJs.promise]. unfold PoolJs.taskSettles at 1.
  cbn [PoolJs.inFlight]. rewrite bool_decide_eq_false_2; [exact IH|].
  apply not_elem_of_nil.
Qed.

End PoolBounds.

(** X22. While [limitConcurrency] runs, whatever the order in which tasks
    settle, the number of running tasks never exceeds the limit (it stays
    0 for a limit below 0) and no task past the end of the list is
    started; while the promise is pending, the tasks in flight are
    distinct, have an index below [taskIndex], and are as many as
    [running] says. *)
Theorem pool_never_exceeds_the_limit :
  forall (tasks : list PoolJs.Settled) (limit : Z) (order : list nat),
    let st := PoolJs.limitConcurrency tasks limit order in
    Z.of_nat (PoolJs.running st) <= Z.max 0 limit
    /\ (PoolJs.taskIndex st <= List.length tasks)%nat
    /\ (PoolJs.promise st = None ->
        PoolJs.running st = List.length (PoolJs.inFlight st)
        /\ NoDup (PoolJs.inFlight st)
        /\ forall i, i ∈ PoolJs.inFlight st -> (i < PoolJs.taskIndex st)%nat).
Proof.
  intros tasks limit order st.
  destruct (limitConcurrency_within tasks limit order) as [Hr Hi].
  split; [exact Hr|]. split; [exact Hi|].
  intros Hpending.
  destruct (limitConcurrency_good tasks limit order) as [Hgood _].
  unfold Good in Hgood. fold st in Hgood. rewrite Hpending in Hgood.
  destruct Hgood as [_ Hnd Hfl Hrun _ _ _]. repeat split; assumption.
Qed.

Lemma pool_never_exceeds_the_limit_witness :
  PoolJs.running
    (PoolJs.limitConcurrency
       (PoolJs.tasksOf fourCedulas (fun _ => plainPoolPage)) 2 [1%nat])
  = List.length
      (PoolJs.inFlight
         (PoolJs.limitConcurrency
            (PoolJs.tasksOf fourCedulas (fun _ => plainPoolPage)) 2
            [1%nat])).
Proof.
  apply (proj2 (proj2 (pool_never_exceeds_the_limit
                         (PoolJs.tasksOf fourCedulas (fun _ => plainPoolPage))
                         2 [1%nat]))).
  reflexivity.
Defined.

Lemma pool_run_launched cedulas apiKey limit balanceReply host pages order :
  PoolJs.launched
    (PoolJs.scrapeDianCedulas cedulas apiKey limit balanceReply host pages
       order)
  = true ->
  PoolJs.launchErr host = None ->
  PoolJs.started
    (PoolJs.scrapeDianCedulas cedulas apiKey limit balanceReply host pages
       order)
  = PoolJs.taskIndex
      (PoolJs.limitConcurrency (PoolJs.tasksOf cedulas pages) limit order).
Proof.
  unfold PoolJs.scrapeDianCedulas.
  destruct (negb (Js.truthy apiKey)); [discriminate|].
  destruct (PoolJs.checkBalance balanceReply) as [balance|]; [|discriminate].
  destruct (Js.leZero balance); [discriminate|].
  intros _ ->. now destruct (PoolJs.browserCloseErr host).
Qed.

(** X23. Two edge cases of a run of [js/main.js] that has passed its key
    and balance guards and started its browser.  With a concurrency limit
    of at most 0 and at least one identifier, no task is ever started and
    the call returns no sequence.  With no identifier at all, the pool
    resolves at once, and the call returns the empty sequence when both
    results files are written and the browser closes; if a file cannot be
    written it returns [undefined]. *)
Theorem pool_run_edge_cases :
  forall (cedulas : list string) (apiKey : Js.Val) (limit : Z)
         (balanceReply : PoolJs.BalanceReply) (host : PoolJs.Host)
         (pages : nat -> PoolJs.PageRun) (beforeDeadline : list nat),
    let run :=
      PoolJs.scrapeDianCedulas cedulas apiKey limit balanceReply host pages
        beforeDeadline in
    PoolJs.launched run = true ->
    PoolJs.launchErr host = None ->
    (limit <= 0 -> cedulas <> [] ->
     PoolJs.value run = None /\ PoolJs.started run = O)
    /\ (cedulas = [] ->
        PoolJs.started run = O
        /\ (PoolJs.browserCloseErr host = None ->
            PoolJs.value run
            = match PoolJs.csvErr host, PoolJs.jsonErr host with
              | None, None => Some []
              | _, _ => None
              end)).
Proof.
  intros cedulas apiKey limit reply host pages order run Hl Hlaunch.
  subst run.
  rewrite pool_value_launched, pool_run_launched by assumption. split.
  - intros Hlim Hne. unfold poolReturn.
    rewrite limitConcurrency_stuck;
      [split; [now destruct (PoolJs.browserCloseErr host) | reflexivity]
      |exact Hlim|].
    intros Hnil. apply Hne. apply (f_equal (@List.length _)) in Hnil.
    rewrite tasksOf_length in Hnil. now destruct cedulas.
  - intros ->. unfold PoolJs.limitConcurrency, poolReturn. cbn.
    destruct order; (split; [reflexivity|]); now intros ->.
Qed.

Lemma pool_run_edge_cases_witness :
  PoolJs.value
    (PoolJs.scrapeDianCedulas fourCedulas
       (Js.Str "6b839fc1d6dd5a9a77261a4fdc2aeb1f") 0
       (PoolJs.BalanceParsed (Js.Fin (25 # 2))) quietHost
       (fun _ => plainPoolPage) [0%nat; 1%nat; 2%nat; 3%nat])
  = None
  /\ PoolJs.value
       (PoolJs.scrapeDianCedulas []
          (Js.Str "6b839fc1d6dd5a9a77261a4fdc2aeb1f") 50
          (PoolJs.BalanceParsed (Js.Fin (25 # 2))) quietHost
          (fun _ => plainPoolPage) [])
     = Some []
  /\ PoolJs.value
       (PoolJs.scrapeDianCedulas []
          (Js.Str "6b839fc1d6dd5a9a77261a4fdc2aeb1f") 50
          (PoolJs.BalanceParsed (Js.Fin (25 # 2))) fullDisk
          (fun _ => plainPoolPage) [])
     = None.
Proof.
  split; [|split].
  - apply (proj1 (pool_run_edge_cases fourCedulas
                    (Js.Str "6b839fc1d6dd5a9a77261a4fdc2aeb1f") 0
                    (PoolJs.BalanceParsed (Js.Fin (25 # 2))) quietHost
                    (fun _ => plainPoolPage) [0%nat; 1%nat; 2%nat; 3%nat]
                    eq_refl eq_refl)).
    + lia.
    + discriminate.
  - apply (proj2 (proj2 (pool_run_edge_cases []
                           (Js.Str "6b839fc1d6dd5a9a77261a4fdc2aeb1f") 50
                           (PoolJs.BalanceParsed (Js.Fin (25 # 2))) quietHost
                           (fun _ => plainPoolPage) [] eq_refl eq_refl)
                   eq_refl) eq_refl).
  - apply (proj2 (proj2 (pool_run_edge_cases []
                           (Js.Str "6b839fc1d6dd5a9a77261a4fdc2aeb1f") 50
                           (PoolJs.BalanceParsed (Js.Fin (25 # 2))) fullDisk
                           (fun _ => plainPoolPage) [] eq_refl eq_refl)
                   eq_refl) eq_refl).
Defined.

(** X24. If the task of any one identifier rejects (its tab cannot be
    opened, request interception cannot be set up, or the tab cannot be
    closed), the run of [js/main.js] returns [undefined] in every
    schedule: the results of all other identifiers are lost with it. *)
Theorem pool_one_rejection_discards_the_run :
  forall (cedulas : list string) (apiKey : Js.Val) (limit : Z)
         (balanceReply : PoolJs.BalanceReply) (host : PoolJs.Host)
         (pages : nat -> PoolJs.PageRun) (beforeDeadline : list nat)
         (i : nat) (c e : string),
    cedulas !! i = Some c ->
    PoolJs.processCedula c (pages i) = PoolJs.RejectedWith e ->
    PoolJs.value
      (PoolJs.scrapeDianCedulas cedulas apiKey limit balanceReply host pages
         beforeDeadline)
    = None.
Proof.
  intros cedulas apiKey limit reply host pages order i c e Hi Hrej.
  destruct (PoolJs.value (PoolJs.scrapeDianCedulas cedulas apiKey limit reply
                            host pages order)) as [rs|] eqn:Hv; [|reflexivity].
  exfalso. apply pool_value_Some in Hv.
  destruct (limitConcurrency_good (PoolJs.tasksOf cedulas pages) limit order)
    as [Hgood _].
  unfold Good in Hgood. rewrite Hv in Hgood. destruct Hgood as [_ Hall].
  destruct (Hall i) as (_ & r & Ht & _).
  { rewrite tasksOf_length. now apply lookup_lt_Some with c. }
  rewrite (tasksOf_lookup _ _ _ _ Hi) in Ht. congruence.
Qed.

Definition tabCannotClose : PoolJs.PageRun :=
  {| PoolJs.newPageErr := None;
     PoolJs.interceptionErr := None;
     PoolJs.openErr := None;
     PoolJs.siteKey := Js.Null;
     PoolJs.solver := Js.mkSolver (Js.Throws "" "") (fun _ => Js.Throws "" "");
     PoolJs.injectErr := None;
     PoolJs.clickErr := None;
     PoolJs.resultsVisible := true;
     PoolJs.extractErr := None;
     PoolJs.data :=
       Some (Js.mkFields "PEREZ" "GOMEZ" "ANA" "N/A" "REGISTRO ACTIVO");
     PoolJs.closeErr := Some "Protocol error: Target closed" |}.

Lemma pool_one_rejection_discards_the_run_witness :
  PoolJs.value
    (PoolJs.scrapeDianCedulas fourCedulas
       (Js.Str "6b839fc1d6dd5a9a77261a4fdc2aeb1f") 50
       (PoolJs.BalanceParsed (Js.Fin (25 # 2))) quietHost
       (fun i => match i with
                 | 3%nat => tabCannotClose
                 | _ => plainPoolPage
                 end)
       [0%nat; 1%nat; 2%nat; 3%nat])
  = None.
Proof.
  apply (pool_one_rejection_discards_the_run fourCedulas
           (Js.Str "6b839fc1d6dd5a9a77261a4fdc2aeb1f") 50
           (PoolJs.BalanceParsed (Js.Fin (25 # 2))) quietHost
           (fun i => match i with
                     | 3%nat => tabCannotClose
                     | _ => plainPoolPage
                     end)
           [0%nat; 1%nat; 2%nat; 3%nat] 3 "1047447085"
           "Protocol error: Target closed"); reflexivity.
Defined.

(** X25. The sequence returned by a run of [js/main.js] does not depend on
    the order in which the tasks finish: two runs on the same input and
    pages that both return a sequence return the same one, namely the
    result of each identifier's task at that identifier's position. *)
Theorem pool_result_independent_of_completion_order :
  forall (cedulas : list string) (apiKey apiKey' : Js.Val) (limit limit' : Z)
         (balanceReply balanceReply' : PoolJs.BalanceReply)
         (host host' : PoolJs.Host)
         (pages : nat -> PoolJs.PageRun) (order order' : list nat)
         (resultados resultados' : list (option Js.Result)),
    PoolJs.value
      (PoolJs.scrapeDianCedulas cedulas apiKey limit balanceReply host pages
         order)
    = Some resultados ->
    PoolJs.value
      (PoolJs.scrapeDianCedulas cedulas apiKey' limit' balanceReply' host'
         pages order')
    = Some resultados' ->
    resultados = resultados'
    /\ resultados
       = imap (fun i c => Some (PoolJs.attempt c (pages i))) cedulas.
Proof.
  intros cedulas apiKey apiKey' limit limit' reply reply' host host' pages
         order order' rs rs' Hv Hv'.
  assert (Hdet : forall k l h o v,
             PoolJs.value
               (PoolJs.scrapeDianCedulas cedulas k l reply h pages o)
             = Some v \/
             PoolJs.value
               (PoolJs.scrapeDianCedulas cedulas k l reply' h pages o)
             = Some v ->
             v = imap (fun i c => Some (PoolJs.attempt c (pages i))) cedulas).
  { intros k l h o v Hval.
    assert (Hpr : PoolJs.promise
                    (PoolJs.limitConcurrency (PoolJs.tasksOf cedulas pages) l o)
                  = Some (PoolJs.Resolved v)).
    { destruct Hval as [H|H]; now apply pool_value_Some in H. }
    destruct (limitConcurrency_good (PoolJs.tasksOf cedulas pages) l o)
      as [Hgood _].
    unfold Good in Hgood. rewrite Hpr in Hgood. destruct Hgood as [Hlen Hall].
    rewrite tasksOf_length in Hlen, Hall.
    apply list_eq. intros i. rewrite list_lookup_imap.
    destruct (cedulas !! i) as [c|] eqn:Hi; cbn.
    - destruct (Hall i) as (_ & r & Ht & Hr);
        [now apply lookup_lt_Some with c|].
      rewrite (tasksOf_lookup _ _ _ _ Hi) in Ht. rewrite Hr. do 2 f_equal.
      unfold PoolJs.processCedula in Ht.
      destruct (PoolJs.newPageErr (pages i)); [discriminate|].
      destruct (PoolJs.interceptionErr (pages i)); [discriminate|].
      destruct (PoolJs.closeErr (pages i)); [discriminate|].
      now injection Ht as <-.
    - apply lookup_ge_None. apply lookup_ge_None in Hi. lia. }
  rewrite (Hdet apiKey limit host order rs (or_introl Hv)).
  rewrite (Hdet apiKey' limit' host' order' rs' (or_intror Hv')).
  split; reflexivity.
Qed.

Lemma pool_result_independent_of_completion_order_witness :
  [Some (PoolJs.attempt "1047473418" plainPoolPage);
   Some (PoolJs.attempt "73089347" plainPoolPage)]
  = imap (fun i c => Some (PoolJs.attempt c ((fun _ => plainPoolPage) i)))
         ["1047473418"; "73089347"].
Proof.
  exact (proj2 (pool_result_independent_of_completion_order
                  ["1047473418"; "73089347"]
                  (Js.Str "6b839fc1d6dd5a9a77261a4fdc2aeb1f")
                  (Js.Str "6b839fc1d6dd5a9a77261a4fdc2aeb1f") 50 1
                  (PoolJs.BalanceParsed (Js.Fin (25 # 2)))
                  (PoolJs.BalanceParsed (Js.Fin (25 # 2)))
                  quietHost quietHost
                  (fun _ => plainPoolPage) [1%nat; 0%nat] [0%nat; 1%nat]
                  _ _ eq_refl eq_refl)).
Defined.

(** ** What the slots of [ProcessCedulas] can hold *)

(** X26. Whatever arrives on the channel, in whatever order, a slot of the
    returned slice holds either the zero value or a received result whose
    identifier is the input identifier at that very position; a received
    result whose identifier is not in the input is dropped and changes no
    slot. *)
Theorem collector_never_misplaces_a_result :
  forall (cedulas : list string) (arrivals : list Go.Result),
    (forall i r,
        Go.collect cedulas arrivals !! i = Some r ->
        r = Go.zeroResult
        \/ (r ∈ arrivals /\ cedulas !! i = Some (Go.Cedula r)))
    /\ (forall results r,
          Go.Cedula r ∉ cedulas ->
          Go.record (Go.cedulaIndices cedulas) results r = results).
Proof.
  intros cedulas arrivals. split.
  - intros i r Hi.
    assert (Hlt : (i < List.length cedulas)%nat).
    { rewrite <- (collect_length cedulas arrivals).
      now apply lookup_lt_Some with r. }
    rewrite collect_lookup in Hi by exact Hlt.
    destruct (lastArrival (Go.cedulaIndices cedulas) i arrivals) as [r'|] eqn:E.
    + injection Hi as ->. right. apply lastArrival_Some in E as [Hin Hidx].
      split; [exact Hin|]. rewrite cedulaIndices_lookup in Hidx.
      now apply lastIndex_lookup.
    + injection Hi as <-. now left.
  - intros results r Hnot. unfold Go.record.
    rewrite cedulaIndices_lookup.
    destruct (lastIndex (Go.Cedula r) cedulas) as [j|] eqn:E; [|reflexivity].
    exfalso. apply Hnot. apply lastIndex_lookup in E.
    apply list_elem_of_lookup. eauto.
Qed.

Lemma collector_never_misplaces_a_result_witness :
  Go.record (Go.cedulaIndices fourCedulas)
    (replicate 4 Go.zeroResult) (Go.startupFailure "999" "x")
  = replicate 4 Go.zeroResult.
Proof.
  apply (proj2 (collector_never_misplaces_a_result fourCedulas [])).
  apply (bool_decide_unpack _). vm_compute. exact I.
Defined.

Lemma processCedula_error_state c p a :
  Go.Error (Go.processCedula c p a) <> "" ->
  Go.Estado (Go.processCedula c p a) = "Error".
Proof.
  unfold Go.processCedula, Go.searchAndExtract, Go.failed.
  repeat match goal with
         | |- context [match ?x with _ => _ end] => destruct x
         end; cbn; try reflexivity; intros H; now contradiction H.
Qed.

Lemma retryLoop_result_origin cfg run c fuel : forall a res,
  fst (Go.retryLoop cfg run c fuel a res) = res
  \/ exists x, fst (Go.retryLoop cfg run c fuel a res)
               = Go.processCedula c (run x) x.
Proof.
  induction fuel as [|fuel IH]; intros a res; [now left|].
  destruct (Go.isCaptchaError (tried run c a)) eqn:E.
  - rewrite retryLoop_retry by exact E. cbn [fst].
    destruct (IH (a + 1) (tried run c a)) as [->|[x ->]]; right;
      [exists a; reflexivity | eauto].
  - rewrite retryLoop_final by exact E. right. exists a. reflexivity.
Qed.

(** X8. In the slice returned by [ProcessCedulas], in every run, a result
    with a non-empty [Error] text has [Estado = "Error"]: no entry carries
    an error text together with a registry state. *)
Theorem error_text_implies_error_state :
  forall (numCPU : Z) (cfg : Go.Config) (env : Go.Env)
         (cedulas : list string) (results : list Go.Result) (r : Go.Result),
    Go.ProcessCedulas numCPU cfg env cedulas results ->
    r ∈ results ->
    Go.Error r <> "" ->
    Go.Estado r = "Error".
Proof.
  intros numCPU cfg env cedulas results r Hrun Hin Herr.
  destruct (ProcessCedulas_elem _ _ _ _ _ _ Hrun Hin)
    as [->|(arrivals & Hil & Hin')]; [now contradiction Herr|].
  clear Hin. rename Hin' into Hin.
  destruct (arrival_sent cfg env cedulas numCPU arrivals r Hil Hin)
    as (shard & idx & Hsent).
  apply sends_worker_elem in Hsent as [(c & err & ->)|(run & c & ->)];
    [reflexivity|].
  unfold Go.processWithRetries in *.
  destruct (retryLoop_result_origin cfg run c
              (Z.to_nat (Go.MaxRetries (Go.Timeouts cfg))) 1 Go.zeroResult)
    as [E|[x E]]; rewrite E in *.
  - now contradiction Herr.
  - now apply processCedula_error_state.
Qed.

Lemma error_text_implies_error_state_witness :
  Go.Estado (Go.startupFailure "1047473418" "exec: chrome: not found")
  = "Error".
Proof.
  apply (error_text_implies_error_state 2 (Go.getDefaultConfig 2)
           firstBrowserDown fourCedulas
           (Go.ProcessCedulasInOrder 2 (Go.getDefaultConfig 2)
              firstBrowserDown fourCedulas)).
  - apply ProcessCedulas_in_order.
  - apply list_elem_of_lookup. exists 0%nat. reflexivity.
  - discriminate.
Defined.
